(** * Rate limiting and credential storage of the login template

    A shallow embedding of [src/utils/delay.js] and [src/utils/storage.js],
    and what holds of them.

    - JavaScript numbers that hold counts and millisecond timestamps are
      integers ([Z]); values beyond [2^53], where doubles stop being exact
      integers, are outside the model.  The backoff delay is computed as
      the source computes it, in IEEE-754 doubles ([Number], the binary64
      format of the standard library's [SpecFloat]): [Math.pow] overflows
      to Infinity and a product can be NaN.  The minutes to wait
      ([/ 1000 / 60]) are computed in exact rationals ([Q]).
    - An [async] function is a computation over a [World] that either
      resolves with a value or rejects with an error; [try]/[catch],
      [throw] and [Promise.all] are combinators on such computations.
    - The platform (the two key-value stores, [JSON], [Date]) is not part
      of the repository.  It is an interface ([Storage], [Codec]); what a
      well-behaved platform guarantees is stated separately ([Consistent],
      [Reliable], [CodecLaws]) and assumed only where a statement needs
      it.  A reference platform (in-memory stores, compact JSON, ISO-8601
      dates) meets these laws and lets the functions run.
    - The stored attempt record is read through [JSON.parse] as an object
      whose [count] is a number and whose [lastAttempt] is a string, each
      possibly missing or null, which is what the source writes and what
      its comments declare; other shapes are outside the model. *)

From Stdlib Require Import ZArith QArith Qround Qminmax Qpower Lia.
From Stdlib Require Import SpecFloat.
From Stdlib Require Import Ascii String DecimalString DecimalZ DecimalPos.
From stdpp Require Import gmap strings.

Open Scope string_scope.
Open Scope Z_scope.

(** ** JavaScript numbers

    A [Number] is an IEEE-754 double: a signed zero, a signed infinity,
    NaN, or a finite number [(-1)^s * m * 2^e].  Multiplication is the
    correctly rounded one of the standard library ([SFmul] at precision
    53 with exponents up to 1024). *)

Definition Number : Type := spec_float.

(** A value of the binary64 format: the mantissa has at most 53 bits and
    is normalised, the exponent is in range. *)
Definition is_double (x : Number) : Prop := valid_binary 53 1024 x = true.

(** The double of an integer literal. *)
Definition Number_of_Z (z : Z) : Number := binary_normalize 53 1024 z 0 false.

(** [x * y] *)
Definition Number_mul (x y : Number) : Number := SFmul 53 1024 x y.

(** [Math.pow(2, k)] for an integer [k]: the double nearest to [2^k],
    which is [2^k] itself from [-1074] to [1023], Infinity above and 0
    below. *)
Definition Math_pow2 (k : Z) : Number := SFldexp 53 1024 (SFone 53 1024) k.

(** The real number a finite double stands for (0 for the others). *)
Definition Number_real (x : Number) : Q :=
  match x with
  | S754_finite s m e => (inject_Z (cond_Zopp s (Zpos m)) * 2 ^ e)%Q
  | _ => 0%Q
  end.

(** The same, for zeros and finite doubles only. *)
Definition Number_value (x : Number) : option Q :=
  match x with
  | S754_zero _ | S754_finite _ _ _ => Some (Number_real x)
  | _ => None
  end.

(** [Number.isFinite(x)] *)
Definition Number_isFinite (x : Number) : bool :=
  match x with
  | S754_zero _ | S754_finite _ _ _ => true
  | _ => false
  end.

(** How two numbers compare; NaN compares with nothing, the two zeros are
    equal. *)
Definition Number_compare (x y : Number) : option comparison :=
  match x, y with
  | S754_nan, _ | _, S754_nan => None
  | S754_infinity sx, S754_infinity sy =>
      Some (match sx, sy with
            | true, false => Lt
            | false, true => Gt
            | _, _ => Eq
            end)
  | S754_infinity s, _ => Some (if s then Lt else Gt)
  | _, S754_infinity s => Some (if s then Gt else Lt)
  | _, _ => Some (Number_real x ?= Number_real y)%Q
  end.

(** [x < y], [x <= y] and [x === y] *)
Definition Number_lt (x y : Number) : bool :=
  match Number_compare x y with
  | Some Lt => true
  | _ => false
  end.

Definition Number_le (x y : Number) : bool :=
  match Number_compare x y with
  | Some (Lt | Eq) => true
  | _ => false
  end.

Definition Number_eq (x y : Number) : bool :=
  match Number_compare x y with
  | Some Eq => true
  | _ => false
  end.

(** [Math.min(x, y)]: NaN when either is NaN, [-0] rather than [+0], and
    otherwise [y] when [y < x] and [x] when not. *)
Definition Math_min (x y : Number) : Number :=
  match x, y with
  | S754_nan, _ | _, S754_nan => S754_nan
  | S754_zero false, S754_zero true => y
  | _, _ => if Number_lt y x then y else x
  end.

(** The whole milliseconds a timer of [ms] milliseconds takes: [ms]
    rounded up, and nothing for a duration that is negative, NaN or
    infinite (the recorder only awaits delays between 1000 and 10000). *)
Definition timer_ms (ms : Number) : Z :=
  match Number_value ms with
  | Some q => Z.max 0 (Qceiling q)
  | None => 0
  end.

(** ** Asynchronous computations *)

Definition Error := string.

Inductive Outcome (A : Type) : Type :=
| Resolved (a : A)
| Rejected (e : Error).
Arguments Resolved {A} a.
Arguments Rejected {A} e.

(** The world an [async] function runs in: the wall clock in milliseconds
    since the epoch, the state [S] of the key-value stores, what was
    written with [console.error], and the timers that were awaited. *)
Record World (S : Type) : Type := mkWorld {
  clock : Z;
  storage : S;
  console : list (string * Error);
  timers : list Number
}.
Arguments mkWorld {S}.
Arguments clock {S}.
Arguments storage {S}.
Arguments console {S}.
Arguments timers {S}.

Definition Async (S A : Type) : Type := World S -> Outcome A * World S.

Definition ret {S A} (a : A) : Async S A := fun w => (Resolved a, w).

Definition throw {S A} (e : Error) : Async S A := fun w => (Rejected e, w).

Definition bind {S A B} (m : Async S A) (k : A -> Async S B) : Async S B :=
  fun w =>
    match m w with
    | (Resolved a, w') => k a w'
    | (Rejected e, w') => (Rejected e, w')
    end.

(** [try { body } catch (error) { handler }]: what [body] did to the world
    before it threw stays done. *)
Definition try_catch {S A} (body : Async S A) (handler : Error -> Async S A)
  : Async S A :=
  fun w =>
    match body w with
    | (Resolved a, w') => (Resolved a, w')
    | (Rejected e, w') => handler e w'
    end.

Declare Scope async_scope.
Delimit Scope async_scope with async.
Notation "x <- m ;; k" := (bind m (fun x => k))
  (at level 100, m at next level, right associativity) : async_scope.
Notation "m ;; k" := (bind m (fun _ => k))
  (at level 100, right associativity) : async_scope.
Open Scope async_scope.

(** Every call of an array of calls run to completion, in the order of
    the array, whether or not an earlier one fails; the first rejection in
    that order, if there is one. *)
Fixpoint Promise_all_in_order {S A} (ps : list (Async S A)) : Async S (list A) :=
  match ps with
  | [] => ret []
  | p :: rest =>
      fun w =>
        match p w with
        | (Resolved a, w1) =>
            match Promise_all_in_order rest w1 with
            | (Resolved l, w2) => (Resolved (a :: l), w2)
            | (Rejected e, w2) => (Rejected e, w2)
            end
        | (Rejected e, w1) =>
            let '(_, w2) := Promise_all_in_order rest w1 in (Rejected e, w2)
        end
  end.

(** A synchronous call that returns or throws. *)
Definition of_outcome {S A} (r : Outcome A) : Async S A := fun w => (r, w).

(** [console.error(label, error)] *)
Definition console_error {S} (label : string) (error : Error) : Async S unit :=
  fun w => (Resolved tt,
            mkWorld (clock w) (storage w) (console w ++ [(label, error)]) (timers w)).

(** [new Date()], as the millisecond time value it holds. *)
Definition Date_now {S} : Async S Z := fun w => (Resolved (clock w), w).

(** [delay(ms)], that is [new Promise(resolve => setTimeout(resolve, ms))]:
    the timer is recorded and the caller resumes once the clock has moved
    on by [ms] (rounded up to a whole millisecond, never backwards). *)
Definition delay {S} (ms : Number) : Async S unit :=
  fun w => (Resolved tt,
            mkWorld (clock w + timer_ms ms) (storage w) (console w)
                    (timers w ++ [ms])).

(** Time passing between two calls; not a function of the source, used to
    state what a later call observes. *)
Definition elapse {S} (ms : Z) : Async S unit :=
  fun w => (Resolved tt, mkWorld (clock w + ms) (storage w) (console w) (timers w)).

(** JavaScript truthiness of a string-or-null value. *)
Definition truthy (v : option string) : bool :=
  match v with
  | Some s => negb (String.eqb s "")
  | None => false
  end.

(** ** The platform *)

(** A key-value backend: [getItem]/[setItem]/[removeItem] of AsyncStorage,
    [getItemAsync]/[setItemAsync]/[deleteItemAsync] of SecureStore.  Each
    call may reject, and acts on the store state only. *)
Record Backend (S : Type) : Type := mkBackend {
  kv_get : string -> S -> Outcome (option string) * S;
  kv_set : string -> string -> S -> Outcome unit * S;
  kv_remove : string -> S -> Outcome unit * S
}.
Arguments mkBackend {S}.
Arguments kv_get {S}.
Arguments kv_set {S}.
Arguments kv_remove {S}.

Definition on_storage {S A} (f : S -> Outcome A * S) : Async S A :=
  fun w =>
    let '(r, s') := f (storage w) in
    (r, mkWorld (clock w) s' (console w) (timers w)).

(** The platform the storage code runs on.  Besides the two stores it
    decides how calls that run at the same time settle: when a call of an
    array given to [Promise.all] rejects, [Promise_all_rejection] is the
    reason of the rejection that settles first and the world at that
    moment, with the other calls done or not as their timing has it. *)
Class Storage (S : Type) : Type := {
  AsyncStorage : Backend S;
  SecureStore : Backend S;
  (** [Platform.OS === 'web'] *)
  Platform_OS_web : bool;
  Promise_all_rejection : forall A : Type, list (Async S A) -> World S -> Error * World S
}.

(** [Promise.all([p1, ..., pn])].  Every call in the array literal is
    started, in order.  When none of them rejects, the result resolves
    with all the values once all have settled, and what the calls did is
    done in the order of the array.  When one of them rejects, the result
    rejects with the first rejection to settle, while the other calls may
    still be on their way: that is the platform's [Promise_all_rejection]. *)
Definition Promise_all {S A} `{ST : Storage S} (ps : list (Async S A))
  : Async S (list A) :=
  fun w =>
    match Promise_all_in_order ps w with
    | (Resolved l, w') => (Resolved l, w')
    | (Rejected _, _) =>
        let '(e, w') := Promise_all_rejection A ps w in (Rejected e, w')
    end.

(** A platform on which the calls of an array settle one after the other,
    in the order of the array, and a rejection is reported once all have
    settled. *)
Definition settle_in_order {S} (A : Type) (ps : list (Async S A)) (w : World S)
  : Error * World S :=
  match Promise_all_in_order ps w with
  | (Rejected e, w') => (e, w')
  | (Resolved _, w') => ("", w')
  end.

(** A [Date] object: a time value, or NaN for an invalid date. *)
Inductive JsDate : Type :=
| ValidDate (t : Z)
| InvalidDate.

(** What [getAttemptData] reads off [JSON.parse(data)]: the [count]
    property when it is a number and the [lastAttempt] property when it is
    a string; [None] stands for a property that is missing or null. *)
Record AttemptJson : Type := mkAttemptJson {
  json_count : option Z;
  json_lastAttempt : option string
}.

Class Codec : Type := {
  (** [JSON.stringify] of an object with these two properties *)
  JSON_stringify : AttemptJson -> string;
  (** [JSON.parse] followed by the property reads; rejects when the text
      is not JSON or the properties cannot be read *)
  JSON_parse : string -> Outcome AttemptJson;
  (** [date.toISOString()] of the date with this time value *)
  toISOString : Z -> string;
  (** [new Date(string)] *)
  Date_parse : string -> JsDate;
  (** the type of stored user profiles and [JSON.parse] on them; the inner
      [None] is the JSON text [null] *)
  UserData : Type;
  JSON_parse_user : string -> Outcome (option UserData)
}.

(** [String(n)] of an integer, as a template literal interpolates it. *)
Definition Number_toString (n : Z) : string :=
  NilZero.string_of_int (Z.to_int n).

(** [new Date(d.getTime() + ms)] *)
Definition Date_plus (d : JsDate) (ms : Z) : JsDate :=
  match d with
  | ValidDate t => ValidDate (t + ms)
  | InvalidDate => InvalidDate
  end.

(** [a < b] on dates: a comparison with NaN is false. *)
Definition Date_lt (a b : JsDate) : bool :=
  match a, b with
  | ValidDate x, ValidDate y => x <? y
  | _, _ => false
  end.

(** [a - b] on dates, for two valid dates. *)
Definition Date_minus (a b : JsDate) : Z :=
  match a, b with
  | ValidDate x, ValidDate y => x - y
  | _, _ => 0
  end.

(** ** src/utils/delay.js *)

Module RATE_LIMIT_KEYS.
Definition LOGIN_ATTEMPTS : string := "rate_limit_login_attempts".
Definition LAST_LOGIN_ATTEMPT : string := "rate_limit_last_login_attempt".
Definition REGISTER_ATTEMPTS : string := "rate_limit_register_attempts".
Definition LAST_REGISTER_ATTEMPT : string := "rate_limit_last_register_attempt".
End RATE_LIMIT_KEYS.

Module RATE_LIMIT_CONFIG.
Definition MAX_LOGIN_ATTEMPTS : Z := 5.
Definition MAX_REGISTER_ATTEMPTS : Z := 3.
Definition LOGIN_COOLDOWN_MINUTES : Z := 15.
Definition REGISTER_COOLDOWN_MINUTES : Z := 5.
Definition BASE_DELAY_MS : Z := 1000.
Definition MAX_DELAY_MS : Z := 10000.
End RATE_LIMIT_CONFIG.

Definition calculateBackoffDelay (attemptCount : Z) (baseDelay maxDelay : Number)
  : Number :=
  let exponentialDelay := Number_mul baseDelay (Math_pow2 (attemptCount - 1)) in
  Math_min exponentialDelay maxDelay.

(** The call with both defaults, [calculateBackoffDelay(newCount)]. *)
Definition calculateBackoffDelay_default (attemptCount : Z) : Number :=
  calculateBackoffDelay attemptCount
    (Number_of_Z RATE_LIMIT_CONFIG.BASE_DELAY_MS)
    (Number_of_Z RATE_LIMIT_CONFIG.MAX_DELAY_MS).

Record AttemptData : Type := mkAttemptData {
  count : Z;
  lastAttempt : option JsDate
}.

Record RateLimit : Type := mkRateLimit {
  isLimited : bool;
  waitTime : Z;
  message : string
}.

Definition notLimited : RateLimit := mkRateLimit false 0 "".

Section Delay.
Context {S : Type} `{ST : Storage S} `{CD : Codec}.

Definition getAttemptData (key : string) : Async S AttemptData :=
  returned <-
    try_catch
      (data <- on_storage (kv_get AsyncStorage key) ;;
       if truthy data then
         parsed <- of_outcome (JSON_parse (default "" data)) ;;
         ret (Some {|
           count := default 0 (json_count parsed);
           lastAttempt :=
             if truthy (json_lastAttempt parsed)
             then Some (Date_parse (default "" (json_lastAttempt parsed)))
             else None |})
       else ret None)
      (fun error => console_error "Error getting attempt data:" error ;; ret None) ;;
  match returned with
  | Some r => ret r
  | None => ret {| count := 0; lastAttempt := None |}
  end.

Definition storeAttemptData (key : string) (count : Z) (lastAttempt : Z)
  : Async S unit :=
  try_catch
    (let data := {| json_count := Some count;
                    json_lastAttempt := Some (toISOString lastAttempt) |} in
     on_storage (kv_set AsyncStorage key (JSON_stringify data)))
    (fun error => console_error "Error storing attempt data:" error).

(** The body shared, up to its constants, by [checkLoginRateLimit] and
    [checkRegisterRateLimit]. *)
Definition checkRateLimit (key : string) (maxAttempts cooldownMinutes : Z)
    (what : string) : Async S RateLimit :=
  a <- getAttemptData key ;;
  match count a >=? maxAttempts, lastAttempt a with
  | true, Some last =>
      let cooldownEndTime := Date_plus last (cooldownMinutes * 60 * 1000) in
      t <- Date_now ;;
      let now := ValidDate t in
      if Date_lt now cooldownEndTime then
        let waitTime :=
          Qceiling (inject_Z (Date_minus cooldownEndTime now) / 1000 / 60)%Q in
        ret {| isLimited := true;
               waitTime := waitTime;
               message := "Too many " ++ what ++ " attempts. Please wait "
                          ++ Number_toString waitTime
                          ++ " minutes before trying again." |}
      else
        on_storage (kv_remove AsyncStorage key) ;;
        ret notLimited
  | _, _ => ret notLimited
  end.

Definition checkLoginRateLimit : Async S RateLimit :=
  checkRateLimit RATE_LIMIT_KEYS.LOGIN_ATTEMPTS
    RATE_LIMIT_CONFIG.MAX_LOGIN_ATTEMPTS
    RATE_LIMIT_CONFIG.LOGIN_COOLDOWN_MINUTES "login".

Definition checkRegisterRateLimit : Async S RateLimit :=
  checkRateLimit RATE_LIMIT_KEYS.REGISTER_ATTEMPTS
    RATE_LIMIT_CONFIG.MAX_REGISTER_ATTEMPTS
    RATE_LIMIT_CONFIG.REGISTER_COOLDOWN_MINUTES "registration".

(** The body shared by [recordLoginAttempt] and [recordRegisterAttempt]. *)
Definition recordAttempt (key : string) (isSuccess : bool) : Async S unit :=
  a <- getAttemptData key ;;
  now <- Date_now ;;
  if isSuccess then
    on_storage (kv_remove AsyncStorage key)
  else
    let newCount := count a + 1 in
    storeAttemptData key newCount now ;;
    if newCount >? 1 then
      let delayMs := calculateBackoffDelay_default newCount in
      delay delayMs
    else ret tt.

Definition recordLoginAttempt (isSuccess : bool) : Async S unit :=
  recordAttempt RATE_LIMIT_KEYS.LOGIN_ATTEMPTS isSuccess.

Definition recordRegisterAttempt (isSuccess : bool) : Async S unit :=
  recordAttempt RATE_LIMIT_KEYS.REGISTER_ATTEMPTS isSuccess.

End Delay.

(** ** src/utils/storage.js *)

Module STORAGE_KEYS.
Definition ACCESS_TOKEN : string := "auth_access_token".
Definition REFRESH_TOKEN : string := "auth_refresh_token".
Definition USER_DATA : string := "auth_user_data".
Definition LAST_LOGIN : string := "auth_last_login".
End STORAGE_KEYS.

Record Tokens : Type := mkTokens {
  accessToken : option string;
  refreshToken : option string
}.

(** [const [a, b] = array]: a position past the end reads as undefined. *)
Definition array_get (l : list (option string)) (i : nat) : option string :=
  default None (l !! i).

Section SecureStorage.
Context {S : Type} `{ST : Storage S} `{CD : Codec}.

Definition isSecureStoreAvailable : bool := negb Platform_OS_web.

Definition setSecureItem (key value : string) : Async S unit :=
  try_catch
    (if isSecureStoreAvailable
     then on_storage (kv_set SecureStore key value)
     else on_storage (kv_set AsyncStorage key value))
    (fun error => console_error "Error storing secure item:" error ;; throw error).

Definition getSecureItem (key : string) : Async S (option string) :=
  try_catch
    (if isSecureStoreAvailable
     then on_storage (kv_get SecureStore key)
     else on_storage (kv_get AsyncStorage key))
    (fun error => console_error "Error retrieving secure item:" error ;; ret None).

Definition removeSecureItem (key : string) : Async S unit :=
  try_catch
    (if isSecureStoreAvailable
     then on_storage (kv_remove SecureStore key)
     else on_storage (kv_remove AsyncStorage key))
    (fun error => console_error "Error removing secure item:" error ;; throw error).

Definition storeTokens (accessToken refreshToken : string) : Async S unit :=
  try_catch
    (Promise_all
       [ setSecureItem STORAGE_KEYS.ACCESS_TOKEN accessToken;
         setSecureItem STORAGE_KEYS.REFRESH_TOKEN refreshToken;
         (now <- Date_now ;;
          setSecureItem STORAGE_KEYS.LAST_LOGIN (toISOString now)) ] ;;
     ret tt)
    (fun error => console_error "Error storing tokens:" error ;; throw error).

Definition getTokens : Async S Tokens :=
  try_catch
    (both <- Promise_all
               [ getSecureItem STORAGE_KEYS.ACCESS_TOKEN;
                 getSecureItem STORAGE_KEYS.REFRESH_TOKEN ] ;;
     ret {| accessToken := array_get both 0; refreshToken := array_get both 1 |})
    (fun error =>
       console_error "Error retrieving tokens:" error ;;
       ret {| accessToken := None; refreshToken := None |}).

Definition getUserData : Async S (option UserData) :=
  try_catch
    (userData <- getSecureItem STORAGE_KEYS.USER_DATA ;;
     if truthy userData
     then of_outcome (JSON_parse_user (default "" userData))
     else ret None)
    (fun error => console_error "Error retrieving user data:" error ;; ret None).

Definition clearAuthData : Async S unit :=
  try_catch
    (Promise_all
       [ removeSecureItem STORAGE_KEYS.ACCESS_TOKEN;
         removeSecureItem STORAGE_KEYS.REFRESH_TOKEN;
         removeSecureItem STORAGE_KEYS.USER_DATA;
         removeSecureItem STORAGE_KEYS.LAST_LOGIN ] ;;
     ret tt)
    (fun error => console_error "Error clearing auth data:" error ;; throw error).

End SecureStorage.

(** ** What a well-behaved platform guarantees *)

(** A backend is consistent with a view of its state as a finite map when
    every call that resolves behaves like the map operation, and reading
    never changes the map. *)
Record Consistent {S} (b : Backend S) (view : S -> gmap string string) : Prop := {
  get_frame : forall k s, view (snd (kv_get b k s)) = view s;
  get_value : forall k s v, fst (kv_get b k s) = Resolved v -> v = view s !! k;
  set_value : forall k v s,
    fst (kv_set b k v s) = Resolved tt ->
    view (snd (kv_set b k v s)) = <[k:=v]> (view s);
  remove_value : forall k s,
    fst (kv_remove b k s) = Resolved tt ->
    view (snd (kv_remove b k s)) = delete k (view s)
}.

(** A reliable backend is consistent and never rejects. *)
Record Reliable {S} (b : Backend S) (view : S -> gmap string string) : Prop := {
  reliable_consistent : Consistent b view;
  get_ok : forall k s, exists v, fst (kv_get b k s) = Resolved v;
  set_ok : forall k v s, fst (kv_set b k v s) = Resolved tt;
  remove_ok : forall k s, fst (kv_remove b k s) = Resolved tt
}.

(** The backend [storage.js] talks to. *)
Definition selected {S} `{ST : Storage S} : Backend S :=
  if isSecureStoreAvailable then SecureStore else AsyncStorage.

(** Time values the laws of [Date] are stated for: the dates that
    [toISOString] writes with a four-digit year, from 1970 on. *)
Definition representable (t : Z) : Prop := 0 <= t < 253402300800000.

(** [JSON.parse] inverts [JSON.stringify] on the objects the rate limiter
    writes, the text of an object is never the empty string, and parsing
    the ISO string of a date gives that date back. *)
Class CodecLaws `{CD : Codec} : Prop := {
  parse_stringify : forall c s,
    JSON_parse (JSON_stringify (mkAttemptJson (Some c) (Some s)))
    = Resolved (mkAttemptJson (Some c) (Some s));
  stringify_nonempty : forall j, JSON_stringify j <> "";
  toISOString_nonempty : forall t, toISOString t <> "";
  parse_toISOString : forall t,
    representable t -> Date_parse (toISOString t) = ValidDate t
}.

(** ** A reference platform

    In-memory key-value stores that never fail, a store that always
    fails, compact JSON text and ISO-8601 dates.  It shows that the laws
    above can be met, and the functions of the source can be run on it. *)

Module RefDate.

(** The civil date of a day of a 400-year era that starts on 1 March:
    the year of the era, the month and the day of the month. *)
Definition civil_of_doe (doe : Z) : Z * Z * Z :=
  let yoe := (doe - doe / 1460 + doe / 36524 - doe / 146096) / 365 in
  let doy := doe - (365 * yoe + yoe / 4 - yoe / 100) in
  let mp := (5 * doy + 2) / 153 in
  let d := doy - (153 * mp + 2) / 5 + 1 in
  let m := if mp <? 10 then mp + 3 else mp - 9 in
  (yoe, m, d).

Definition doe_of_civil (yoe m d : Z) : Z :=
  let mp := if 2 <? m then m - 3 else m + 9 in
  let doy := (153 * mp + 2) / 5 + d - 1 in
  yoe * 365 + yoe / 4 - yoe / 100 + doy.

(** Days since 1970-01-01 to year, month, day, and back. *)
Definition civil_from_days (days : Z) : Z * Z * Z :=
  let z := days + 719468 in
  let era := z / 146097 in
  let '(yoe, m, d) := civil_of_doe (z mod 146097) in
  let y := yoe + era * 400 in
  (if m <=? 2 then y + 1 else y, m, d).

Definition days_from_civil (y m d : Z) : Z :=
  let y := if m <=? 2 then y - 1 else y in
  (y / 400) * 146097 + doe_of_civil (y mod 400) m d - 719468.

Definition digit (k : Z) : ascii := ascii_of_nat (48 + Z.to_nat k).

Definition digit_value (c : ascii) : option Z :=
  let n := Z.of_nat (nat_of_ascii c) in
  if (48 <=? n) && (n <=? 57) then Some (n - 48) else None.

Definition pad2 (n : Z) : string :=
  String (digit (n / 10)) (String (digit (n mod 10)) "").
Definition pad3 (n : Z) : string :=
  String (digit (n / 100)) (pad2 (n mod 100)).
Definition pad4 (n : Z) : string :=
  String (digit (n / 1000)) (pad3 (n mod 1000)).

Definition toISOString (t : Z) : string :=
  let '(y, m, d) := civil_from_days (t / 86400000) in
  let ms := t mod 86400000 in
  pad4 y ++ "-" ++ pad2 m ++ "-" ++ pad2 d ++ "T"
    ++ pad2 (ms / 3600000) ++ ":" ++ pad2 (ms / 60000 mod 60) ++ ":"
    ++ pad2 (ms / 1000 mod 60) ++ "." ++ pad3 (ms mod 1000) ++ "Z".

(** Reads [n] decimal digits off the front of a string. *)
Fixpoint take_digits (n : nat) (acc : Z) (s : string) : option (Z * string) :=
  match n with
  | O => Some (acc, s)
  | Datatypes.S n' =>
      match s with
      | String c rest =>
          match digit_value c with
          | Some k => take_digits n' (acc * 10 + k) rest
          | None => None
          end
      | EmptyString => None
      end
  end.

Definition expect (c : ascii) (s : string) : option string :=
  match s with
  | String c' rest => if Ascii.eqb c c' then Some rest else None
  | EmptyString => None
  end.

Definition field (n : nat) (sep : ascii) (s : string) : option (Z * string) :=
  match take_digits n 0 s with
  | Some (v, rest) =>
      match expect sep rest with
      | Some rest' => Some (v, rest')
      | None => None
      end
  | None => None
  end.

(** [YYYY-MM-DDTHH:mm:ss.sssZ] and nothing else. *)
Definition parse (s : string) : JsDate :=
  match field 4 "-" s with
  | Some (y, s) =>
  match field 2 "-" s with
  | Some (m, s) =>
  match field 2 "T" s with
  | Some (d, s) =>
  match field 2 ":" s with
  | Some (hh, s) =>
  match field 2 ":" s with
  | Some (mm, s) =>
  match field 2 "." s with
  | Some (ss, s) =>
  match field 3 "Z" s with
  | Some (ms, "") =>
      if (1 <=? m) && (m <=? 12) && (1 <=? d) && (d <=? 31)
         && (hh <? 24) && (mm <? 60) && (ss <? 60)
      then ValidDate (days_from_civil y m d * 86400000
                      + hh * 3600000 + mm * 60000 + ss * 1000 + ms)
      else InvalidDate
  | _ => InvalidDate end
  | None => InvalidDate end
  | None => InvalidDate end
  | None => InvalidDate end
  | None => InvalidDate end
  | None => InvalidDate end
  | None => InvalidDate end.

End RefDate.

Module RefJson.

Definition quote : ascii := "034"%char.
Definition backslash : ascii := "092"%char.

Definition special (c : ascii) : bool :=
  Ascii.eqb c quote || Ascii.eqb c backslash.

Fixpoint escape (s : string) : string :=
  match s with
  | EmptyString => EmptyString
  | String c rest =>
      if special c then String backslash (String c (escape rest))
      else String c (escape rest)
  end.

(** A string literal. *)
Definition quoted (s : string) : string :=
  String quote (escape s ++ String quote "").

Definition stringify (j : AttemptJson) : string :=
  let count := match json_count j with
               | Some c => [quoted "count" ++ ":" ++ Number_toString c]
               | None => []
               end in
  let last := match json_lastAttempt j with
              | Some s => [quoted "lastAttempt" ++ ":" ++ quoted s]
              | None => []
              end in
  "{" ++ String.concat "," (count ++ last) ++ "}".

Inductive value : Type :=
| VNull
| VBool (b : bool)
| VNum (n : Z)
| VStr (s : string).

(** The rest of a string literal, after its opening quote. *)
Fixpoint string_body (s : string) : option (string * string) :=
  match s with
  | EmptyString => None
  | String c rest =>
      if Ascii.eqb c quote then Some ("", rest)
      else if Ascii.eqb c backslash then
        match rest with
        | String e rest' =>
            if special e then
              match string_body rest' with
              | Some (t, after) => Some (String e t, after)
              | None => None
              end
            else None
        | EmptyString => None
        end
      else
        match string_body rest with
        | Some (t, after) => Some (String c t, after)
        | None => None
        end
  end.

Definition number_char (c : ascii) : bool :=
  Ascii.eqb c "-" || (Nat.leb 48 (nat_of_ascii c) && Nat.leb (nat_of_ascii c) 57).

Fixpoint span_number (s : string) : string * string :=
  match s with
  | EmptyString => ("", "")
  | String c rest =>
      if number_char c
      then let '(tok, after) := span_number rest in (String c tok, after)
      else ("", s)
  end.

Definition number (s : string) : option (Z * string) :=
  let '(tok, after) := span_number s in
  match NilZero.int_of_string tok with
  | Some i => Some (Z.of_int i, after)
  | None => None
  end.

(** [strip p s] is what follows the prefix [p] of [s]. *)
Fixpoint strip (p s : string) : option string :=
  match p, s with
  | EmptyString, _ => Some s
  | String a p', String b s' => if Ascii.eqb a b then strip p' s' else None
  | _, _ => None
  end.

Definition value_of (s : string) : option (value * string) :=
  match strip (String quote "") s with
  | Some body =>
      match string_body body with
      | Some (t, after) => Some (VStr t, after)
      | None => None
      end
  | None =>
  match strip "null" s with
  | Some after => Some (VNull, after)
  | None =>
  match strip "true" s with
  | Some after => Some (VBool true, after)
  | None =>
  match strip "false" s with
  | Some after => Some (VBool false, after)
  | None =>
  match number s with
  | Some (n, after) => Some (VNum n, after)
  | None => None
  end end end end end.

(** The members of an object after its opening brace, later ones first. *)
Fixpoint members (fuel : nat) (s : string) (acc : list (string * value))
  : option (list (string * value)) :=
  match fuel with
  | O => None
  | Datatypes.S fuel' =>
      match strip (String quote "") s with
      | Some s1 =>
      match string_body s1 with
      | Some (k, s2) =>
      match strip ":" s2 with
      | Some s3 =>
      match value_of s3 with
      | Some (v, s4) =>
          match strip "," s4 with
          | Some s5 => members fuel' s5 ((k, v) :: acc)
          | None => if String.eqb s4 "}" then Some ((k, v) :: acc) else None
          end
      | None => None end
      | None => None end
      | None => None end
      | None => None end
  end.

Definition object (s : string) : option (list (string * value)) :=
  if String.eqb s "{}" then Some []
  else match strip "{" s with
       | Some body => members (String.length s) body []
       | None => None
       end.

Definition property (name : string) (o : list (string * value)) : option value :=
  match List.find (fun kv => String.eqb (fst kv) name) o with
  | Some kv => Some (snd kv)
  | None => None
  end.

(** Compact JSON text of an object whose [count] is an integer or null
    and whose [lastAttempt] is a string or null, or is missing. *)
Definition parse (s : string) : Outcome AttemptJson :=
  match object s with
  | Some o =>
      match property "count" o, property "lastAttempt" o with
      | (None | Some VNull), (None | Some VNull) =>
          Resolved (mkAttemptJson None None)
      | Some (VNum n), (None | Some VNull) =>
          Resolved (mkAttemptJson (Some n) None)
      | (None | Some VNull), Some (VStr t) =>
          Resolved (mkAttemptJson None (Some t))
      | Some (VNum n), Some (VStr t) =>
          Resolved (mkAttemptJson (Some n) (Some t))
      | _, _ => Rejected "TypeError: property of another type"
      end
  | None => Rejected "SyntaxError: JSON Parse error"
  end.

End RefJson.

Record Stores : Type := mkStores {
  async_kv : gmap string string;
  secure_kv : gmap string string
}.

Definition MemoryAsyncStorage : Backend Stores := {|
  kv_get k s := (Resolved (async_kv s !! k), s);
  kv_set k v s := (Resolved tt, mkStores (<[k:=v]> (async_kv s)) (secure_kv s));
  kv_remove k s := (Resolved tt, mkStores (delete k (async_kv s)) (secure_kv s))
|}.

Definition MemorySecureStore : Backend Stores := {|
  kv_get k s := (Resolved (secure_kv s !! k), s);
  kv_set k v s := (Resolved tt, mkStores (async_kv s) (<[k:=v]> (secure_kv s)));
  kv_remove k s := (Resolved tt, mkStores (async_kv s) (delete k (secure_kv s)))
|}.

(** A backend on which every call rejects and nothing is stored. *)
Definition BrokenBackend : Backend Stores := {|
  kv_get k s := (Rejected "storage unavailable", s);
  kv_set k v s := (Rejected "storage unavailable", s);
  kv_remove k s := (Rejected "storage unavailable", s)
|}.

(** A phone: SecureStore is available. *)
Definition Device : Storage Stores := {|
  AsyncStorage := MemoryAsyncStorage;
  SecureStore := MemorySecureStore;
  Platform_OS_web := false;
  Promise_all_rejection := settle_in_order
|}.

(** A browser: everything goes to AsyncStorage. *)
Definition Web : Storage Stores := {|
  AsyncStorage := MemoryAsyncStorage;
  SecureStore := MemorySecureStore;
  Platform_OS_web := true;
  Promise_all_rejection := settle_in_order
|}.

(** A phone whose SecureStore fails. *)
Definition BrokenDevice : Storage Stores := {|
  AsyncStorage := MemoryAsyncStorage;
  SecureStore := BrokenBackend;
  Platform_OS_web := false;
  Promise_all_rejection := settle_in_order
|}.

Definition RefCodec : Codec := {|
  JSON_stringify := RefJson.stringify;
  JSON_parse := RefJson.parse;
  toISOString := RefDate.toISOString;
  Date_parse := RefDate.parse;
  UserData := list (string * RefJson.value);
  JSON_parse_user s :=
    if String.eqb s "null" then Resolved None
    else match RefJson.object s with
         | Some o => Resolved (Some o)
         | None => Rejected "SyntaxError: JSON Parse error"
         end
|}.

(** A world with the given clock and AsyncStorage contents, and nothing
    else. *)
Definition world_at (t : Z) (kv : gmap string string) : World Stores :=
  mkWorld t (mkStores kv ∅) [] [].

(** Checking one era of the calendar day by day: the civil date of a day
    is in range and converts back to the day. *)
Definition era_day_ok (doe : Z) : bool :=
  let '(yoe, m, d) := RefDate.civil_of_doe doe in
  (0 <=? yoe) && (yoe <? 400) && (1 <=? m) && (m <=? 12)
  && (1 <=? d) && (d <=? 31)
  && (RefDate.doe_of_civil yoe m d =? doe)
  && ((yoe <? 399) || (2 <? m) || (146037 <=? doe)).

Fixpoint all_from (n : nat) (doe : Z) : bool :=
  match n with
  | O => true
  | Datatypes.S k => era_day_ok doe && all_from k (doe + 1)
  end.

Fixpoint all_number_chars (s : string) : bool :=
  match s with
  | EmptyString => true
  | String c rest => RefJson.number_char c && all_number_chars rest
  end.

(** ** The backoff formula as the specification words it *)

(** [min(base * 2^(attemptCount - 1), max)], with the power taken in the
    integers. *)
Definition computeDelay_spec (attemptCount : Z) (base max : Q) : Q :=
  Qmin (base * inject_Z (2 ^ (attemptCount - 1))) max.

(** [ceil((cooldownEnd - now) / 60000)] *)
Definition waitMinutes_spec (cooldownEnd now : Z) : Z :=
  Qceiling (inject_Z (cooldownEnd - now) / inject_Z 60000).

(** ** The two attempt kinds *)

(** The specification speaks of [checkRateLimit(kind)] and
    [recordAttempt(kind, success)]; the source has one function per kind. *)
Inductive AttemptKind : Type :=
| login
| register.

Definition attemptKey (kind : AttemptKind) : string :=
  match kind with
  | login => RATE_LIMIT_KEYS.LOGIN_ATTEMPTS
  | register => RATE_LIMIT_KEYS.REGISTER_ATTEMPTS
  end.

Definition maxAttempts (kind : AttemptKind) : Z :=
  match kind with
  | login => RATE_LIMIT_CONFIG.MAX_LOGIN_ATTEMPTS
  | register => RATE_LIMIT_CONFIG.MAX_REGISTER_ATTEMPTS
  end.

Definition cooldownMinutes (kind : AttemptKind) : Z :=
  match kind with
  | login => RATE_LIMIT_CONFIG.LOGIN_COOLDOWN_MINUTES
  | register => RATE_LIMIT_CONFIG.REGISTER_COOLDOWN_MINUTES
  end.

Definition checkRateLimit_of {S} `{ST : Storage S} `{CD : Codec}
    (kind : AttemptKind) : Async S RateLimit :=
  match kind with
  | login => checkLoginRateLimit
  | register => checkRegisterRateLimit
  end.

Definition recordAttempt_of {S} `{ST : Storage S} `{CD : Codec}
    (kind : AttemptKind) (isSuccess : bool) : Async S unit :=
  match kind with
  | login => recordLoginAttempt isSuccess
  | register => recordRegisterAttempt isSuccess
  end.

(** The condition under which a check resets the record: the count has
    reached the maximum, a last attempt is recorded, and it is not the case
    that [now < lastAttempt + cooldown]. *)
Definition cooldown_over (kind : AttemptKind) (a : AttemptData) (now : Z) : bool :=
  (count a >=? maxAttempts kind)
  && match lastAttempt a with
     | Some last =>
         negb (Date_lt (ValidDate now)
                       (Date_plus last (cooldownMinutes kind * 60 * 1000)))
     | None => false
     end.

(** ** Sample worlds on the reference platform *)

(** A login record at the limit, last attempt at midnight UTC on
    2024-01-01 (time value 1704067200000). *)
Definition throttled_login_record : string :=
  RefJson.stringify (mkAttemptJson (Some 5) (Some "2024-01-01T00:00:00.000Z")).

Definition world_throttled (now : Z) : World Stores :=
  world_at now {[ RATE_LIMIT_KEYS.LOGIN_ATTEMPTS := throttled_login_record ]}.

(** A login record over the limit that has no [lastAttempt] property. *)
Definition world_no_timestamp (now : Z) : World Stores :=
  world_at now {[ RATE_LIMIT_KEYS.LOGIN_ATTEMPTS :=
                    RefJson.stringify (mkAttemptJson (Some 7) None) ]}.

(** A signed-in phone: tokens, profile and last login in SecureStore. *)
Definition world_signed_in : World Stores :=
  mkWorld 1704067200000
    (mkStores ∅
       (<[STORAGE_KEYS.ACCESS_TOKEN := "access-token"]>
          (<[STORAGE_KEYS.REFRESH_TOKEN := "refresh-token"]>
             (<[STORAGE_KEYS.USER_DATA := "{}"]>
                (<[STORAGE_KEYS.LAST_LOGIN := "2024-01-01T00:00:00.000Z"]> ∅)))))
    [] [].

(** The same phone with a SecureStore that holds nothing and fails. *)
Definition world_broken : World Stores := world_at 1704067200000 ∅.

(** ** Reading the persisted state *)

(** The store holds under [key] a non-empty text that [JSON.parse] reads
    as [j]. *)
Definition stored_record `{CD : Codec} (m : gmap string string) (key : string)
    (j : AttemptJson) : Prop :=
  exists data, m !! key = Some data /\ data <> "" /\ JSON_parse data = Resolved j.

(** What [getAttemptData] makes of the text stored under a key ([None]:
    nothing stored) when the read itself succeeds. *)
Definition decodeAttempt `{CD : Codec} (data : option string) : AttemptData :=
  if truthy data then
    match JSON_parse (default "" data) with
    | Resolved parsed =>
        {| count := default 0 (json_count parsed);
           lastAttempt :=
             if truthy (json_lastAttempt parsed)
             then Some (Date_parse (default "" (json_lastAttempt parsed)))
             else None |}
    | Rejected _ => {| count := 0; lastAttempt := None |}
    end
  else {| count := 0; lastAttempt := None |}.

(** ** The rest of src/utils/delay.js and src/utils/storage.js *)

(** The profile object that the sign-in and registration actions build:
    [createdAt] is set by registration, [lastLoginAt] by login; [None] is
    a property that is null or missing. *)
Record UserProfile : Type := mkUserProfile {
  uid : string;
  email : option string;
  displayName : string;
  emailVerified : bool;
  photoURL : option string;
  createdAt : option string;
  lastLoginAt : option string
}.

(** [JSON.stringify] of a stored profile, which throws on values that have
    no JSON text, and the JavaScript object a profile literal denotes. *)
Class UserJson `{CD : Codec} : Type := {
  JSON_stringify_user : UserData -> Outcome string;
  user_object : UserProfile -> UserData
}.

Section Utilities.
Context {S : Type} `{ST : Storage S} `{CD : Codec} `{UJ : @UserJson CD}.

Definition clearRateLimitData : Async S unit :=
  try_catch
    (Promise_all
       [ on_storage (kv_remove AsyncStorage RATE_LIMIT_KEYS.LOGIN_ATTEMPTS);
         on_storage (kv_remove AsyncStorage RATE_LIMIT_KEYS.REGISTER_ATTEMPTS) ] ;;
     ret tt)
    (fun error => console_error "Error clearing rate limit data:" error).

Definition storeUserData (userData : UserData) : Async S unit :=
  try_catch
    (text <- of_outcome (JSON_stringify_user userData) ;;
     setSecureItem STORAGE_KEYS.USER_DATA text)
    (fun error => console_error "Error storing user data:" error ;; throw error).

Definition getLastLogin : Async S (option JsDate) :=
  try_catch
    (lastLogin <- getSecureItem STORAGE_KEYS.LAST_LOGIN ;;
     ret (if truthy lastLogin
          then Some (Date_parse (default "" lastLogin))
          else None))
    (fun error => console_error "Error retrieving last login:" error ;; ret None).

End Utilities.

(** [n] calls of the same asynchronous function, one after the other;
    the first rejection ends the sequence. *)
Fixpoint repeat_async {S} (n : nat) (m : Async S unit) : Async S unit :=
  match n with
  | O => ret tt
  | Datatypes.S k => m ;; repeat_async k m
  end.

(** The reference text of a profile object: its members in the order
    [RefJson.object] reads them back. *)
Definition ref_value_text (v : RefJson.value) : string :=
  match v with
  | RefJson.VNull => "null"
  | RefJson.VBool true => "true"
  | RefJson.VBool false => "false"
  | RefJson.VNum n => Number_toString n
  | RefJson.VStr s => RefJson.quoted s
  end.

Definition ref_stringify_user (o : list (string * RefJson.value)) : string :=
  "{" ++ String.concat ","
           (map (fun kv => RefJson.quoted (fst kv) ++ ":" ++ ref_value_text (snd kv))
                (rev o))
      ++ "}".

Definition ref_optional (v : option string) : RefJson.value :=
  match v with
  | Some text => RefJson.VStr text
  | None => RefJson.VNull
  end.

(** Members later first; a timestamp that was not set is left out. *)
Definition ref_user_object (p : UserProfile) : list (string * RefJson.value) :=
  (match lastLoginAt p with
   | Some t => [("lastLoginAt", RefJson.VStr t)]
   | None => []
   end
   ++ match createdAt p with
      | Some t => [("createdAt", RefJson.VStr t)]
      | None => []
      end
   ++ [ ("photoURL", ref_optional (photoURL p));
        ("emailVerified", RefJson.VBool (emailVerified p));
        ("displayName", RefJson.VStr (displayName p));
        ("email", ref_optional (email p));
        ("uid", RefJson.VStr (uid p)) ])%list.

Definition RefUserJson : @UserJson RefCodec :=
  Build_UserJson RefCodec
    (fun o : list (string * RefJson.value) => Resolved (ref_stringify_user o))
    ref_user_object.

(** A profile as the reference codec holds it (later members first). *)
Definition sample_profile : list (string * RefJson.value) :=
  [ ("emailVerified", RefJson.VBool true);
    ("displayName", RefJson.VStr "Ada");
    ("email", RefJson.VStr "ada@example.com");
    ("uid", RefJson.VStr "u-1") ].

(** A login record over the limit whose [lastAttempt] is not a date. *)
Definition world_bad_timestamp (now : Z) : World Stores :=
  world_at now {[ RATE_LIMIT_KEYS.LOGIN_ATTEMPTS :=
                    RefJson.stringify (mkAttemptJson (Some 9) (Some "yesterday")) ]}.

(** A login record that is not JSON. *)
Definition world_malformed (now : Z) : World Stores :=
  world_at now {[ RATE_LIMIT_KEYS.LOGIN_ATTEMPTS := "count=9" ]}.

(** ** src/auth/authActions.js *)

(** The user object of the identity provider, as far as the actions read
    it. *)
Module Fb.
Record User : Type := mkUser {
  uid : string;
  email : option string;
  displayName : option string;
  emailVerified : bool;
  photoURL : option string;
  refreshToken : option string
}.
End Fb.

(** The identity provider and the pieces of JavaScript the actions use.
    Every call acts on the platform state and may reject.  [updateProfile]
    changes the user object it is given; it returns that object as the
    call leaves it.  A rejection reason is any JavaScript value: it may be
    [null] or [undefined], and reading a property of such a value throws
    a TypeError. *)
Class AuthPlatform (S : Type) : Type := {
  createUserWithEmailAndPassword : string -> string -> S -> Outcome Fb.User * S;
  signInWithEmailAndPassword : string -> string -> S -> Outcome Fb.User * S;
  updateProfile : Fb.User -> string -> S -> Outcome Fb.User * S;
  getIdToken : Fb.User -> bool -> S -> Outcome string * S;
  signOut : S -> Outcome unit * S;
  sendPasswordResetEmail : string -> S -> Outcome unit * S;
  (** [auth.currentUser] *)
  currentUser : S -> option Fb.User;
  (** whether a rejection reason is [null] or [undefined] *)
  nullish : Error -> bool;
  (** the TypeError that reading a property of such a reason throws *)
  TypeError : Error -> Error;
  (** [error.code], when the error has one *)
  error_code : Error -> option string;
  (** [error.message], when it is a non-empty string *)
  error_message : Error -> option string;
  (** [string.trim()] *)
  String_trim : string -> string
}.

(** What an action resolves to: [{ success, user?, token?, error? }]. *)
Record ActionResult : Type := mkActionResult {
  success : bool;
  user : option UserProfile;
  token : option string;
  error : option string
}.

Definition failure (message : string) : ActionResult :=
  {| success := false; user := None; token := None; error := Some message |}.

Section AuthActions.
Context {S : Type} `{ST : Storage S} `{CD : Codec} `{UJ : @UserJson CD}
        `{AP : AuthPlatform S}.

(** Entering [switch (error.code)]: reading the code of a reason that is
    [null] or [undefined] throws, inside the [catch] block, where nothing
    catches it; otherwise the switch chooses the message. *)
Definition switch_error_code (error : Error) (errorMessage : Error -> string)
  : Async S string :=
  if nullish error then throw (TypeError error) else ret (errorMessage error).

(** The [switch (error.code)] of [registerUser]. *)
Definition registerErrorMessage (error : Error) : string :=
  let errorMessage := "Registration failed. Please try again." in
  match error_code error with
  | None => default errorMessage (error_message error)
  | Some code =>
      if String.eqb code "auth/email-already-in-use"
      then "An account with this email already exists."
      else if String.eqb code "auth/invalid-email"
      then "Please enter a valid email address."
      else if String.eqb code "auth/operation-not-allowed"
      then "Email/password accounts are not enabled."
      else if String.eqb code "auth/weak-password"
      then "Password should be at least 6 characters long."
      else if String.eqb code "auth/network-request-failed"
      then "Network error. Please check your connection."
      else default errorMessage (error_message error)
  end.

(** The [switch (error.code)] of [loginUser]. *)
Definition loginErrorMessage (error : Error) : string :=
  let errorMessage := "Login failed. Please try again." in
  match error_code error with
  | None => default errorMessage (error_message error)
  | Some code =>
      if String.eqb code "auth/invalid-email"
      then "Please enter a valid email address."
      else if String.eqb code "auth/user-disabled"
      then "This account has been disabled."
      else if String.eqb code "auth/user-not-found"
      then "No account found with this email address."
      else if String.eqb code "auth/wrong-password"
              || String.eqb code "auth/invalid-credential"
      then "Invalid email or password."
      else if String.eqb code "auth/too-many-requests"
      then "Too many failed attempts. Please try again later."
      else if String.eqb code "auth/network-request-failed"
      then "Network error. Please check your connection."
      else default errorMessage (error_message error)
  end.

(** The [switch (error.code)] of [sendPasswordReset]. *)
Definition resetErrorMessage (error : Error) : string :=
  let errorMessage := "Failed to send password reset email." in
  match error_code error with
  | None => default errorMessage (error_message error)
  | Some code =>
      if String.eqb code "auth/invalid-email"
      then "Please enter a valid email address."
      else if String.eqb code "auth/user-not-found"
      then "No account found with this email address."
      else if String.eqb code "auth/network-request-failed"
      then "Network error. Please check your connection."
      else default errorMessage (error_message error)
  end.

Definition registerUser (email password displayName : string)
  : Async S ActionResult :=
  try_catch
    (rateLimitCheck <- checkRegisterRateLimit ;;
     if isLimited rateLimitCheck then
       ret (failure (message rateLimitCheck))
     else
       created <- on_storage (createUserWithEmailAndPassword email password) ;;
       user <- (if negb (String.eqb (String_trim displayName) "")
                then on_storage (updateProfile created (String_trim displayName))
                else ret created) ;;
       idToken <- on_storage (getIdToken user false) ;;
       now <- Date_now ;;
       let userData := {|
         uid := Fb.uid user;
         email := Fb.email user;
         displayName := if truthy (Fb.displayName user)
                        then default "" (Fb.displayName user)
                        else String_trim displayName;
         emailVerified := Fb.emailVerified user;
         photoURL := Fb.photoURL user;
         createdAt := Some (toISOString now);
         lastLoginAt := None |} in
       storeTokens idToken (default "" (Fb.refreshToken user)) ;;
       storeUserData (user_object userData) ;;
       recordRegisterAttempt true ;;
       ret {| success := true; user := Some userData; token := None; error := None |})
    (fun error =>
       console_error "Registration error:" error ;;
       recordRegisterAttempt false ;;
       errorMessage <- switch_error_code error registerErrorMessage ;;
       ret (failure errorMessage)).

Definition loginUser (email password : string) : Async S ActionResult :=
  try_catch
    (rateLimitCheck <- checkLoginRateLimit ;;
     if isLimited rateLimitCheck then
       ret (failure (message rateLimitCheck))
     else
       user <- on_storage (signInWithEmailAndPassword email password) ;;
       idToken <- on_storage (getIdToken user false) ;;
       now <- Date_now ;;
       let userData := {|
         uid := Fb.uid user;
         email := Fb.email user;
         displayName := default "" (Fb.displayName user);
         emailVerified := Fb.emailVerified user;
         photoURL := Fb.photoURL user;
         createdAt := None;
         lastLoginAt := Some (toISOString now) |} in
       storeTokens idToken (default "" (Fb.refreshToken user)) ;;
       storeUserData (user_object userData) ;;
       recordLoginAttempt true ;;
       ret {| success := true; user := Some userData; token := None; error := None |})
    (fun error =>
       console_error "Login error:" error ;;
       recordLoginAttempt false ;;
       errorMessage <- switch_error_code error loginErrorMessage ;;
       ret (failure errorMessage)).

Definition logoutUser : Async S ActionResult :=
  try_catch
    (on_storage signOut ;;
     clearAuthData ;;
     ret {| success := true; user := None; token := None; error := None |})
    (fun error =>
       console_error "Logout error:" error ;;
       ret (failure "Failed to logout. Please try again.")).

Definition sendPasswordReset (email : string) : Async S ActionResult :=
  try_catch
    (on_storage (sendPasswordResetEmail email) ;;
     ret {| success := true; user := None; token := None; error := None |})
    (fun error =>
       console_error "Password reset error:" error ;;
       errorMessage <- switch_error_code error resetErrorMessage ;;
       ret (failure errorMessage)).

(** Reading [auth.currentUser]. *)
Definition auth_currentUser : Async S (option Fb.User) :=
  fun w => (Resolved (currentUser (storage w)), w).

Definition refreshAuthToken : Async S ActionResult :=
  try_catch
    (current <- auth_currentUser ;;
     match current with
     | None => ret (failure "No authenticated user found.")
     | Some user =>
         idToken <- on_storage (getIdToken user true) ;;
         storeTokens idToken (default "" (Fb.refreshToken user)) ;;
         ret {| success := true; user := None; token := Some idToken; error := None |}
     end)
    (fun error =>
       console_error "Token refresh error:" error ;;
       ret (failure "Failed to refresh authentication token.")).

End AuthActions.

(** The action that each kind of attempt guards. *)
Definition guardedAction {S} `{ST : Storage S} `{CD : Codec} `{UJ : @UserJson CD}
    `{AP : AuthPlatform S} (kind : AttemptKind) (email password displayName : string)
  : Async S ActionResult :=
  match kind with
  | login => loginUser email password
  | register => registerUser email password displayName
  end.

(** The operations of AsyncStorage leave the contents of the backend that
    holds the credentials alone, except under the key they are given.  On
    the web both are the same store; on a phone they are two stores. *)
Record Apart {S} `{ST : Storage S} (view : S -> gmap string string) : Prop := {
  get_apart : forall k s, view (snd (kv_get AsyncStorage k s)) = view s;
  remove_apart : forall k k' s,
    k <> k' -> view (snd (kv_remove AsyncStorage k s)) !! k' = view s !! k'
}.

(** ** A reference identity provider *)

Definition ada : Fb.User := {|
  Fb.uid := "u-1";
  Fb.email := Some "ada@example.com";
  Fb.displayName := Some "Ada";
  Fb.emailVerified := true;
  Fb.photoURL := None;
  Fb.refreshToken := Some "refresh-token"
|}.

(** Drops the spaces at both ends. *)
Fixpoint ref_trim_left (s : string) : string :=
  match s with
  | String " " rest => ref_trim_left rest
  | _ => s
  end.

Definition ref_trim (s : string) : string :=
  String.rev (ref_trim_left (String.rev (ref_trim_left s))).

(** One account, [ada@example.com] with password [Secret1]; errors are
    their own code and message when they start with [auth/]. *)
Definition RefAuth : AuthPlatform Stores := {|
  createUserWithEmailAndPassword e p s :=
    if String.eqb e "ada@example.com"
    then (Rejected "auth/email-already-in-use", s)
    else (Resolved (Fb.mkUser "u-2" (Some e) None false None (Some "refresh-token-2")), s);
  signInWithEmailAndPassword e p s :=
    if String.eqb e "ada@example.com" && String.eqb p "Secret1"
    then (Resolved ada, s)
    else (Rejected "auth/invalid-credential", s);
  updateProfile u name s :=
    (Resolved (Fb.mkUser (Fb.uid u) (Fb.email u) (Some name) (Fb.emailVerified u)
                 (Fb.photoURL u) (Fb.refreshToken u)), s);
  getIdToken u force s :=
    (Resolved (if force then "fresh-token" else "id-token"), s);
  signOut s := (Resolved tt, s);
  sendPasswordResetEmail e s :=
    if String.eqb e "ada@example.com"
    then (Resolved tt, s)
    else (Rejected "auth/user-not-found", s);
  currentUser s :=
    match secure_kv s !! STORAGE_KEYS.ACCESS_TOKEN with
    | Some _ => Some ada
    | None => None
    end;
  nullish e := String.eqb e "undefined" || String.eqb e "null";
  TypeError e := "TypeError: Cannot read properties of " +:+ e;
  error_code e := if String.prefix "auth/" e then Some e else None;
  error_message e := if String.eqb e "" then None else Some e;
  String_trim := ref_trim
|}.

(** The same provider without a network: every call rejects. *)
Definition OfflineAuth : AuthPlatform Stores := {|
  createUserWithEmailAndPassword e p s := (Rejected "auth/network-request-failed", s);
  signInWithEmailAndPassword e p s := (Rejected "auth/network-request-failed", s);
  updateProfile u name s := (Rejected "auth/network-request-failed", s);
  getIdToken u force s := (Rejected "auth/network-request-failed", s);
  signOut s := (Rejected "auth/network-request-failed", s);
  sendPasswordResetEmail e s := (Rejected "auth/network-request-failed", s);
  currentUser s := None;
  nullish e := String.eqb e "undefined" || String.eqb e "null";
  TypeError e := "TypeError: Cannot read properties of " +:+ e;
  error_code e := if String.prefix "auth/" e then Some e else None;
  error_message e := if String.eqb e "" then None else Some e;
  String_trim := ref_trim
|}.

(** A provider whose calls reject without a reason. *)
Definition VagueAuth : AuthPlatform Stores := {|
  createUserWithEmailAndPassword e p s := (Rejected "undefined", s);
  signInWithEmailAndPassword e p s := (Rejected "undefined", s);
  updateProfile u name s := (Rejected "undefined", s);
  getIdToken u force s := (Rejected "undefined", s);
  signOut s := (Rejected "undefined", s);
  sendPasswordResetEmail e s := (Rejected "undefined", s);
  currentUser s := None;
  nullish e := String.eqb e "undefined" || String.eqb e "null";
  TypeError e := "TypeError: Cannot read properties of " +:+ e;
  error_code e := None;
  error_message e := None;
  String_trim := ref_trim
|}.

(** ** src/auth/AuthProvider.js *)

Module AuthProvider.

(** The state of the authentication context; [U] is the type of the user
    objects it holds. *)
Record State (U : Type) : Type := mkState {
  isAuthenticated : bool;
  user : option U;
  isLoading : bool;
  error : option string
}.
Arguments mkState {U}.
Arguments isAuthenticated {U}.
Arguments user {U}.
Arguments isLoading {U}.
Arguments error {U}.

Definition initialState {U} : State U :=
  {| isAuthenticated := false; user := None; isLoading := true; error := None |}.

(** An action with its payload; [UNKNOWN] is an action of any other
    type. *)
Inductive Action (U : Type) : Type :=
| AUTH_STATE_CHANGED (isAuthenticated : bool) (user : option U)
| LOGIN_START
| LOGIN_SUCCESS (user : option U)
| LOGIN_FAILURE (error : option string)
| REGISTER_START
| REGISTER_SUCCESS (user : option U)
| REGISTER_FAILURE (error : option string)
| LOGOUT_START
| LOGOUT_SUCCESS
| LOGOUT_FAILURE (error : option string)
| CLEAR_ERROR
| SET_LOADING (isLoading : bool)
| UNKNOWN.
Arguments AUTH_STATE_CHANGED {U}.
Arguments LOGIN_START {U}.
Arguments LOGIN_SUCCESS {U}.
Arguments LOGIN_FAILURE {U}.
Arguments REGISTER_START {U}.
Arguments REGISTER_SUCCESS {U}.
Arguments REGISTER_FAILURE {U}.
Arguments LOGOUT_START {U}.
Arguments LOGOUT_SUCCESS {U}.
Arguments LOGOUT_FAILURE {U}.
Arguments CLEAR_ERROR {U}.
Arguments SET_LOADING {U}.
Arguments UNKNOWN {U}.

Definition authReducer {U} (state : State U) (action : Action U) : State U :=
  match action with
  | AUTH_STATE_CHANGED payload_isAuthenticated payload_user =>
      {| isAuthenticated := payload_isAuthenticated;
         user := payload_user;
         isLoading := false;
         error := None |}
  | LOGIN_START | REGISTER_START =>
      {| isAuthenticated := isAuthenticated state;
         user := user state;
         isLoading := true;
         error := None |}
  | LOGIN_SUCCESS payload_user | REGISTER_SUCCESS payload_user =>
      {| isAuthenticated := true;
         user := payload_user;
         isLoading := false;
         error := None |}
  | LOGIN_FAILURE payload_error | REGISTER_FAILURE payload_error =>
      {| isAuthenticated := false;
         user := None;
         isLoading := false;
         error := payload_error |}
  | LOGOUT_START =>
      {| isAuthenticated := isAuthenticated state;
         user := user state;
         isLoading := true;
         error := None |}
  | LOGOUT_SUCCESS =>
      {| isAuthenticated := false;
         user := None;
         isLoading := false;
         error := None |}
  | LOGOUT_FAILURE payload_error =>
      {| isAuthenticated := isAuthenticated state;
         user := user state;
         isLoading := false;
         error := payload_error |}
  | CLEAR_ERROR =>
      {| isAuthenticated := isAuthenticated state;
         user := user state;
         isLoading := isLoading state;
         error := None |}
  | SET_LOADING payload_isLoading =>
      {| isAuthenticated := isAuthenticated state;
         user := user state;
         isLoading := payload_isLoading;
         error := error state |}
  | UNKNOWN => state
  end.

(** [useReducer]: the state after the actions dispatched so far, in the
    order of their dispatch. *)
Definition reduce {U} (state : State U) (actions : list (Action U)) : State U :=
  fold_left authReducer actions state.

(** A payload of [AUTH_STATE_CHANGED] as the provider dispatches it: one
    that is not authenticated carries no user. *)
Definition provider_action {U} (action : Action U) : Prop :=
  match action with
  | AUTH_STATE_CHANGED false (Some _) => False
  | _ => True
  end.

End AuthProvider.

(** ** src/auth/useAuth.js *)

(** [useAuth_login] is [login] of the hook, and so on for the others.
    An operation resolves to its result together with the actions it has
    dispatched, in order; [isFirebaseConfigured] comes from the context. *)
Section UseAuth.
Context {S : Type} `{ST : Storage S} `{CD : Codec} `{UJ : @UserJson CD}
        `{AP : AuthPlatform S}.
Variable isFirebaseConfigured : bool.

Definition Dispatched (A : Type) : Type :=
  (list (AuthProvider.Action UserProfile) * A)%type.

Definition useAuth_login (email password : string)
  : Async S (Dispatched ActionResult) :=
  if negb isFirebaseConfigured then
    ret ([], failure "Firebase is not configured. Please add your Firebase credentials to the .env file.")
  else
    let dispatched := [AuthProvider.LOGIN_START] in
    try_catch
      (result <- loginUser email password ;;
       if success result then
         ret ((dispatched ++ [AuthProvider.LOGIN_SUCCESS (user result)])%list,
              {| success := true; user := None; token := None; error := None |})
       else
         ret ((dispatched ++ [AuthProvider.LOGIN_FAILURE (error result)])%list,
              {| success := false; user := None; token := None; error := error result |}))
      (fun _ =>
         let errorMessage := "An unexpected error occurred during login." in
         ret ((dispatched ++ [AuthProvider.LOGIN_FAILURE (Some errorMessage)])%list,
              failure errorMessage)).

Definition useAuth_register (email password displayName : string)
  : Async S (Dispatched ActionResult) :=
  if negb isFirebaseConfigured then
    ret ([], failure "Firebase is not configured. Please add your Firebase credentials to the .env file.")
  else
    let dispatched := [AuthProvider.REGISTER_START] in
    try_catch
      (result <- registerUser email password displayName ;;
       if success result then
         ret ((dispatched ++ [AuthProvider.REGISTER_SUCCESS (user result)])%list,
              {| success := true; user := None; token := None; error := None |})
       else
         ret ((dispatched ++ [AuthProvider.REGISTER_FAILURE (error result)])%list,
              {| success := false; user := None; token := None; error := error result |}))
      (fun _ =>
         let errorMessage := "An unexpected error occurred during registration." in
         ret ((dispatched ++ [AuthProvider.REGISTER_FAILURE (Some errorMessage)])%list,
              failure errorMessage)).

Definition useAuth_logout : Async S (Dispatched ActionResult) :=
  if negb isFirebaseConfigured then
    ret ([], failure "Firebase is not configured.")
  else
    let dispatched := [AuthProvider.LOGOUT_START] in
    try_catch
      (result <- logoutUser ;;
       if success result then
         ret ((dispatched ++ [AuthProvider.LOGOUT_SUCCESS])%list,
              {| success := true; user := None; token := None; error := None |})
       else
         ret ((dispatched ++ [AuthProvider.LOGOUT_FAILURE (error result)])%list,
              {| success := false; user := None; token := None; error := error result |}))
      (fun _ =>
         let errorMessage := "An unexpected error occurred during logout." in
         ret ((dispatched ++ [AuthProvider.LOGOUT_FAILURE (Some errorMessage)])%list,
              failure errorMessage)).

Definition useAuth_resetPassword (email : string) : Async S ActionResult :=
  if negb isFirebaseConfigured then
    ret (failure "Firebase is not configured. Please add your Firebase credentials to the .env file.")
  else
    try_catch (sendPasswordReset email)
      (fun _ => ret (failure "An unexpected error occurred while sending password reset email.")).

Definition useAuth_refreshToken : Async S ActionResult :=
  if negb isFirebaseConfigured then
    ret (failure "Firebase is not configured.")
  else
    try_catch refreshAuthToken
      (fun _ => ret (failure "An unexpected error occurred while refreshing token.")).

End UseAuth.

(** ** JavaScript strings and regular expressions

    The form screens test what the user typed with [String.prototype.trim],
    [.length] and two regular expression literals.  A JavaScript string is
    its sequence of UTF-16 code units, and a regular expression without
    flags matches code unit by code unit. *)

Module Js.

Definition String : Type := list N.

(** The code units of a text of ASCII characters. *)
Definition codeUnits (s : string) : String :=
  map N_of_ascii (list_ascii_of_string s).

(** WhiteSpace and LineTerminator of ECMAScript: what [\s] matches and
    what [trim] removes. *)
Definition isLineTerminator (c : N) : bool :=
  ((c =? 10) || (c =? 13) || (c =? 8232) || (c =? 8233))%N.

Definition isWhiteSpace (c : N) : bool :=
  ((c =? 9) || (c =? 11) || (c =? 12) || (c =? 32) || (c =? 160) || (c =? 5760)
   || ((8192 <=? c) && (c <=? 8202)) || (c =? 8239) || (c =? 8287) || (c =? 12288)
   || (c =? 65279))%N
  || isLineTerminator c.

(** [\S], [.], [[a-z]], [[A-Z]] and [\d]. *)
Definition notSpace (c : N) : bool := negb (isWhiteSpace c).
Definition anyChar (c : N) : bool := negb (isLineTerminator c).
Definition lower (c : N) : bool := ((97 <=? c) && (c <=? 122))%N.
Definition upper (c : N) : bool := ((65 <=? c) && (c <=? 90))%N.
Definition digit (c : N) : bool := ((48 <=? c) && (c <=? 57))%N.

Fixpoint trimStart (s : String) : String :=
  match s with
  | c :: rest => if isWhiteSpace c then trimStart rest else s
  | [] => []
  end.

Definition trim (s : String) : String :=
  rev (trimStart (rev (trimStart s))).

(** The patterns the two literals are made of. *)
Inductive RegExp : Type :=
| Char (c : N)
| Class (p : N -> bool)
| Seq (r1 r2 : RegExp)
| Star (r : RegExp)
| Plus (r : RegExp)
| Lookahead (r : RegExp).

(** A matcher is given the rest of the input and a continuation that
    decides on what follows, as in the semantics of ECMAScript.  The
    quantifiers are greedy: they try one more repetition before they try
    to go on.  A repetition of a star that has matched nothing is given
    up, so the number of repetitions is at most the length of the input,
    which is the fuel [RepeatMatcher] starts with. *)
Definition Matcher : Type := String -> (String -> bool) -> bool.

Fixpoint RepeatMatcher (m : Matcher) (fuel : nat) : Matcher :=
  fun s k =>
    match fuel with
    | O => k s
    | Datatypes.S fuel' =>
        m s (fun s' => (length s' <? length s)%nat && RepeatMatcher m fuel' s' k)
        || k s
    end.

Fixpoint matcher (r : RegExp) : Matcher :=
  fun s k =>
    match r with
    | Char c =>
        match s with
        | x :: rest => (x =? c)%N && k rest
        | [] => false
        end
    | Class p =>
        match s with
        | x :: rest => p x && k rest
        | [] => false
        end
    | Seq r1 r2 => matcher r1 s (fun s' => matcher r2 s' k)
    | Star r1 => RepeatMatcher (matcher r1) (length s) s k
    | Plus r1 =>
        matcher r1 s (fun s' => RepeatMatcher (matcher r1) (length s') s' k)
    | Lookahead r1 => matcher r1 s (fun _ => true) && k s
    end.

(** [RegExp.prototype.test] of a pattern without flags: a match is tried
    at every index, from the first to the end of the input. *)
Fixpoint test (r : RegExp) (s : String) : bool :=
  matcher r s (fun _ => true)
  || match s with
     | _ :: rest => test r rest
     | [] => false
     end.

End Js.

(** The literal [/\S+@\S+\.\S+/] of both screens. *)
Definition emailPattern : Js.RegExp :=
  Js.Seq (Js.Plus (Js.Class Js.notSpace))
    (Js.Seq (Js.Char 64)
       (Js.Seq (Js.Plus (Js.Class Js.notSpace))
          (Js.Seq (Js.Char 46) (Js.Plus (Js.Class Js.notSpace))))).

(** The literal [/(?=.*[a-z])(?=.*[A-Z])(?=.*\d)/]. *)
Definition passwordPattern : Js.RegExp :=
  Js.Seq (Js.Lookahead (Js.Seq (Js.Star (Js.Class Js.anyChar)) (Js.Class Js.lower)))
    (Js.Seq (Js.Lookahead (Js.Seq (Js.Star (Js.Class Js.anyChar)) (Js.Class Js.upper)))
       (Js.Lookahead (Js.Seq (Js.Star (Js.Class Js.anyChar)) (Js.Class Js.digit)))).

(** [!text] of a string. *)
Definition blank (text : Js.String) : bool :=
  match text with
  | [] => true
  | _ => false
  end.

(** [Object.keys(newErrors).length === 0] *)
Definition noErrors (newErrors : gmap string string) : bool :=
  Nat.eqb (size newErrors) 0.

(** ** src/screens/LoginScreen.js *)

Module LoginScreen.

Record FormData : Type := mkFormData {
  email : Js.String;
  password : Js.String
}.

(** [validateForm] gives the errors it sets and its result. *)
Definition validateForm (formData : FormData) : gmap string string * bool :=
  let newErrors : gmap string string := ∅ in
  let newErrors :=
    if blank (email formData) then
      <["email" := "Email is required"]> newErrors
    else if negb (Js.test emailPattern (email formData)) then
      <["email" := "Please enter a valid email address"]> newErrors
    else newErrors in
  let newErrors :=
    if blank (password formData) then
      <["password" := "Password is required"]> newErrors
    else if (length (password formData) <? 6)%nat then
      <["password" := "Password must be at least 6 characters"]> newErrors
    else newErrors in
  (newErrors, noErrors newErrors).

End LoginScreen.

(** ** src/screens/RegisterScreen.js *)

Module RegisterScreen.

Record FormData : Type := mkFormData {
  displayName : Js.String;
  email : Js.String;
  password : Js.String;
  confirmPassword : Js.String
}.

Definition validateForm (formData : FormData) : gmap string string * bool :=
  let newErrors : gmap string string := ∅ in
  let newErrors :=
    if blank (Js.trim (displayName formData)) then
      <["displayName" := "Display name is required"]> newErrors
    else if (length (Js.trim (displayName formData)) <? 2)%nat then
      <["displayName" := "Display name must be at least 2 characters"]> newErrors
    else newErrors in
  let newErrors :=
    if blank (email formData) then
      <["email" := "Email is required"]> newErrors
    else if negb (Js.test emailPattern (email formData)) then
      <["email" := "Please enter a valid email address"]> newErrors
    else newErrors in
  let newErrors :=
    if blank (password formData) then
      <["password" := "Password is required"]> newErrors
    else if (length (password formData) <? 6)%nat then
      <["password" := "Password must be at least 6 characters"]> newErrors
    else if negb (Js.test passwordPattern (password formData)) then
      <["password" := "Password must contain at least one uppercase letter, one lowercase letter, and one number"]> newErrors
    else newErrors in
  let newErrors :=
    if blank (confirmPassword formData) then
      <["confirmPassword" := "Please confirm your password"]> newErrors
    else if negb (bool_decide (password formData = confirmPassword formData)) then
      <["confirmPassword" := "Passwords do not match"]> newErrors
    else newErrors in
  (newErrors, noErrors newErrors).

End RegisterScreen.

(** What the email pattern looks for: somewhere in the text, an [@]
    and a later dot, with one or more characters that are not white
    space before the [@], between the two, and after the dot. *)
Definition email_shaped (text : Js.String) : Prop :=
  exists before a b c after : Js.String,
    text = (before ++ a ++ 64%N :: b ++ 46%N :: c ++ after)%list
    /\ a <> [] /\ b <> [] /\ c <> []
    /\ Forall (fun x => Js.isWhiteSpace x = false) (a ++ b ++ c)%list.

(** A character of the class [p] that can be reached from the start of
    the text without crossing a line terminator. *)
Definition on_first_line (p : N -> bool) (text : Js.String) : Prop :=
  exists a x b,
    text = (a ++ x :: b)%list
    /\ Forall (fun y => Js.isLineTerminator y = false) a /\ p x = true.

(** What the password pattern looks for: a place in the text from which
    a lower case letter, an upper case letter and a digit can each be
    reached without crossing a line terminator. *)
Definition mixed_password (text : Js.String) : Prop :=
  exists before rest : Js.String,
    text = (before ++ rest)%list
    /\ on_first_line Js.lower rest
    /\ on_first_line Js.upper rest
    /\ on_first_line Js.digit rest.

(** * Theorems *)

(** ** The backoff calculator *)

(** *** Doubles *)

Lemma digits2_pos_size (p : positive) : digits2_pos p = Pos.size p.
Proof. induction p; cbn; congruence. Qed.

Lemma Zdigits2_log2 (p : positive) : Zpos (digits2_pos p) = Z.log2 (Zpos p) + 1.
Proof.
  rewrite digits2_pos_size. destruct p; cbn [Pos.size Z.log2]; lia.
Qed.

Lemma Zdigits2_pos (z : Z) : 0 < z -> Zdigits2 z = Z.log2 z + 1.
Proof. destruct z; try lia. intros _. apply Zdigits2_log2. Qed.

Lemma iter_pos_nat {A} (f : A -> A) (p : positive) (x : A) :
  SpecFloat.iter_pos f p x = Nat.iter (Pos.to_nat p) f x.
Proof.
  revert x. induction p as [p IH | p IH |]; intros x; cbn [SpecFloat.iter_pos].
  - rewrite !IH, Pos2Nat.inj_xI, <- Nat.iter_succ_r.
    replace (S (2 * Pos.to_nat p))%nat with (S (Pos.to_nat p + Pos.to_nat p))%nat by lia.
    rewrite !Nat.iter_succ_r, Nat.iter_add. reflexivity.
  - rewrite !IH, Pos2Nat.inj_xO.
    replace (2 * Pos.to_nat p)%nat with (Pos.to_nat p + Pos.to_nat p)%nat by lia.
    rewrite Nat.iter_add. reflexivity.
  - reflexivity.
Qed.

Lemma shr_1_even (z : Z) :
  0 < z -> shr_1 (Build_shr_record (2 * z) false false) = Build_shr_record z false false.
Proof. destruct z; try lia. intros _. reflexivity. Qed.

Lemma iter_shr_1_exact (j : nat) (z : Z) :
  0 < z ->
  Nat.iter j shr_1 (Build_shr_record (z * 2 ^ Z.of_nat j) false false)
  = Build_shr_record z false false.
Proof.
  intros Hz. induction j as [| j IH].
  - cbn [Nat.iter]. change (2 ^ Z.of_nat 0) with 1. rewrite Z.mul_1_r. reflexivity.
  - rewrite Nat.iter_succ_r.
    replace (z * 2 ^ Z.of_nat (S j)) with (2 * (z * 2 ^ Z.of_nat j))
      by (rewrite Nat2Z.inj_succ, Z.pow_succ_r by lia; ring).
    rewrite shr_1_even by (apply Z.mul_pos_pos; [lia | apply Z.pow_pos_nonneg; lia]).
    exact IH.
Qed.

Lemma shr_exact (z e n : Z) :
  0 < z -> 0 <= n ->
  shr (Build_shr_record (z * 2 ^ n) false false) e n
  = (Build_shr_record z false false, e + n).
Proof.
  intros Hz Hn. destruct n as [| p | p]; [| | lia].
  - cbn [shr]. change (2 ^ 0) with 1. rewrite Z.mul_1_r, Z.add_0_r. reflexivity.
  - cbn [shr]. f_equal. rewrite iter_pos_nat.
    rewrite <- (positive_nat_Z p). apply iter_shr_1_exact. exact Hz.
Qed.

Lemma fexp_unfold (e : Z) : fexp 53 1024 e = Z.max (e - 53) (-1074).
Proof. reflexivity. Qed.

Lemma Zdigits2_mul_pow2 (z n : Z) :
  0 < z -> 0 <= n -> Zdigits2 (z * 2 ^ n) = Zdigits2 z + n.
Proof.
  intros Hz Hn.
  rewrite !Zdigits2_pos, Z.log2_mul_pow2 by
    (try apply Z.mul_pos_pos; try apply Z.pow_pos_nonneg; lia).
  lia.
Qed.

(** Rounding a number that needs none: [z * 2^n] at exponent [e], when
    the format asks for the exponent [e + n]. *)
Lemma binary_round_aux_exact (s : bool) (z e n : Z) :
  0 < z -> 0 <= n ->
  fexp 53 1024 (Zdigits2 (z * 2 ^ n) + e) = e + n ->
  binary_round_aux 53 1024 s (z * 2 ^ n) e loc_Exact
  = if e + n <=? 971 then S754_finite s (Z.to_pos z) (e + n) else S754_infinity s.
Proof.
  intros Hz Hn Hf. unfold binary_round_aux, shr_fexp.
  rewrite Hf. replace (e + n - e) with n by lia.
  cbn [shr_record_of_loc]. rewrite shr_exact by assumption.
  cbn [loc_of_shr_record shr_m round_nearest_even shr_record_of_loc].
  rewrite Zdigits2_mul_pow2 in Hf by assumption.
  replace (Zdigits2 z + (e + n)) with (Zdigits2 z + n + e) by lia.
  rewrite Hf, Z.sub_diag. cbn [shr shr_m].
  destruct z as [| p | p]; try lia. reflexivity.
Qed.

Lemma Math_pow2_closed (k : Z) :
  -1022 <= k ->
  Math_pow2 k = if k <=? 1023 then S754_finite false 4503599627370496 (k - 52)
                else S754_infinity false.
Proof.
  intros Hk. unfold Math_pow2.
  change (SFone 53 1024) with (S754_finite false 4503599627370496 (-52)).
  unfold SFldexp, binary_round.
  change (Z.pos (digits2_pos 4503599627370496)) with 53.
  rewrite fexp_unfold.
  replace (Z.max (53 + (-52 + k) - 53) (-1074)) with (-52 + k) by lia.
  unfold shl_align. rewrite Z.sub_diag.
  change (Z.pos 4503599627370496) with (Z.pos 4503599627370496 * 2 ^ 0).
  rewrite binary_round_aux_exact.
  - replace (-52 + k + 0) with (k - 52) by lia.
    replace (k - 52 <=? 971) with (k <=? 1023); [reflexivity |].
    destruct (Z.leb_spec k 1023), (Z.leb_spec (k - 52) 971); lia || reflexivity.
  - lia.
  - lia.
  - change (Zdigits2 (Z.pos 4503599627370496 * 2 ^ 0)) with 53.
    rewrite fexp_unfold. lia.
Qed.

Lemma bounded_unfold (m : positive) (e : Z) :
  bounded 53 1024 m e = true ->
  Z.max (Zpos (digits2_pos m) + e - 53) (-1074) = e /\ e <= 971.
Proof.
  unfold bounded, canonical_mantissa. rewrite fexp_unfold.
  intros [H1 H2]%andb_prop. apply Z.eqb_eq in H1. apply Z.leb_le in H2.
  change (1024 - 53) with 971 in H2. auto.
Qed.

(** Multiplying a double by a power of two shifts its exponent: the
    product is exact unless it overflows. *)
Lemma Number_mul_pow2 (s : bool) (mx : positive) (ex k : Z) :
  bounded 53 1024 mx ex = true ->
  0 <= k <= 1023 ->
  let e1 := Z.max (Zpos (digits2_pos mx) + ex + k - 53) (-1074) in
  Number_mul (S754_finite s mx ex) (Math_pow2 k)
  = if e1 <=? 971
    then S754_finite s (Z.to_pos (Zpos mx * 2 ^ (ex + k - e1))) e1
    else S754_infinity s.
Proof.
  intros Hb Hk e1. apply bounded_unfold in Hb as [Hc He].
  rewrite Math_pow2_closed by lia.
  replace (k <=? 1023) with true by (symmetry; apply Z.leb_le; lia).
  unfold Number_mul. cbn [SFmul]. rewrite xorb_false_r.
  pose proof (Pos2Z.is_pos (digits2_pos mx)) as Hd.
  set (d := Zpos (digits2_pos mx)) in *.
  set (n1 := e1 - (ex + (k - 52))).
  assert (Hn1 : 0 <= n1 <= 52) by (subst n1 e1; lia).
  rewrite Pos2Z.inj_mul. change (Z.pos 4503599627370496) with (2 ^ 52).
  replace (Z.pos mx * 2 ^ 52) with ((Z.pos mx * 2 ^ (52 - n1)) * 2 ^ n1)
    by (rewrite <- Z.mul_assoc, <- Z.pow_add_r by lia; do 2 f_equal; lia).
  assert (Hz : 0 < Z.pos mx * 2 ^ (52 - n1))
    by (apply Z.mul_pos_pos; [lia | apply Z.pow_pos_nonneg; lia]).
  rewrite binary_round_aux_exact; try lia.
  - replace (ex + (k - 52) + n1) with e1 by (subst n1; lia).
    replace (52 - n1) with (ex + k - e1) by (subst n1; lia). reflexivity.
  - rewrite Zdigits2_mul_pow2, Zdigits2_mul_pow2 by lia.
    change (Zdigits2 (Z.pos mx)) with d. rewrite fexp_unfold. subst n1 e1. lia.
Qed.

Lemma pow2_Q (a : Z) : 0 <= a -> (inject_Z (2 ^ a) == 2 ^ a)%Q.
Proof. intros H. exact (Zpower_Qpower 2 a H). Qed.

Lemma two_not_0 : ~ (2 == 0)%Q.
Proof. discriminate. Qed.

Lemma cond_Zopp_mul (s : bool) (a b : Z) : cond_Zopp s (a * b) = cond_Zopp s a * b.
Proof. destruct s; cbn [cond_Zopp]; ring. Qed.

(** The value of the exact product. *)
Lemma Number_real_scaled (s : bool) (mx : positive) (ex k e1 : Z) :
  0 <= k -> e1 <= ex + k ->
  (Number_real (S754_finite s (Z.to_pos (Zpos mx * 2 ^ (ex + k - e1))) e1)
   == Number_real (S754_finite s mx ex) * inject_Z (2 ^ k))%Q.
Proof.
  intros Hk He. unfold Number_real.
  rewrite Z2Pos.id by (apply Z.mul_pos_pos; [lia | apply Z.pow_pos_nonneg; lia]).
  rewrite cond_Zopp_mul, inject_Z_mult, !pow2_Q by lia.
  rewrite <- Qmult_assoc, <- Qpower_plus by apply two_not_0.
  rewrite <- Qmult_assoc, <- Qpower_plus by apply two_not_0.
  replace (ex + k - e1 + e1) with (ex + k) by lia. reflexivity.
Qed.

Lemma pow2_le_mantissa (m : positive) : 2 ^ (Zpos (digits2_pos m) - 1) <= Zpos m.
Proof.
  rewrite Zdigits2_log2. replace (Z.log2 (Z.pos m) + 1 - 1) with (Z.log2 (Z.pos m)) by lia.
  apply Z.log2_spec. lia.
Qed.

Lemma mantissa_lt_pow2 (m : positive) : Zpos m < 2 ^ Zpos (digits2_pos m).
Proof.
  rewrite Zdigits2_log2. apply Z.log2_spec. lia.
Qed.

(** The value of a product that overflows. *)
Lemma Number_real_overflow (mx : positive) (ex k : Z) :
  0 <= k ->
  971 < Z.max (Zpos (digits2_pos mx) + ex + k - 53) (-1074) ->
  (inject_Z (2 ^ 1024) <= Number_real (S754_finite false mx ex) * inject_Z (2 ^ k))%Q.
Proof.
  intros Hk H. unfold Number_real. cbn [cond_Zopp].
  pose proof (pow2_le_mantissa mx) as Hm.
  pose proof (Pos2Z.is_pos (digits2_pos mx)) as Hd.
  set (d := Zpos (digits2_pos mx)) in *.
  rewrite !pow2_Q by lia.
  rewrite <- Qmult_assoc, <- Qpower_plus by apply two_not_0.
  apply Qle_trans with (inject_Z (2 ^ (d - 1)) * 2 ^ (ex + k))%Q.
  - rewrite pow2_Q by lia. rewrite <- Qpower_plus by apply two_not_0.
    apply Qpower_le_compat_l; [lia | discriminate].
  - apply Qmult_le_compat_r.
    + rewrite <- Zle_Qle. exact Hm.
    + apply Qpower_0_le. discriminate.
Qed.

(** A finite double is below [2^1024]. *)
Lemma Number_real_bound (s : bool) (m : positive) (e : Z) :
  bounded 53 1024 m e = true ->
  (Number_real (S754_finite s m e) < inject_Z (2 ^ 1024))%Q.
Proof.
  intros [Hc He]%bounded_unfold. unfold Number_real.
  pose proof (mantissa_lt_pow2 m) as Hm.
  pose proof (Pos2Z.is_pos (digits2_pos m)) as Hd.
  set (d := Zpos (digits2_pos m)) in *.
  assert (P : (0 < 2 ^ e)%Q) by (apply Qpower_0_lt; reflexivity).
  destruct s; cbn [cond_Zopp].
  - apply Qlt_trans with 0%Q; [| reflexivity].
    assert (H : (inject_Z (Z.neg m) * 2 ^ e < 0 * 2 ^ e)%Q)
      by (apply Qmult_lt_compat_r; [exact P | reflexivity]).
    rewrite Qmult_0_l in H. exact H.
  - apply Qlt_le_trans with (inject_Z (2 ^ d) * 2 ^ e)%Q.
    + apply Qmult_lt_compat_r; [exact P |]. rewrite <- Zlt_Qlt. exact Hm.
    + rewrite !pow2_Q by lia. rewrite <- Qpower_plus by apply two_not_0.
      apply Qpower_le_compat_l; [lia | discriminate].
Qed.

Lemma Number_value_real (x : Number) (v : Q) :
  Number_value x = Some v -> v = Number_real x.
Proof. destruct x; cbn; congruence. Qed.

(** On finite numbers [<] compares the values. *)
Lemma Number_lt_real (a b : Number) :
  Number_value a <> None -> Number_value b <> None ->
  Number_lt b a = true <-> (Number_real b < Number_real a)%Q.
Proof.
  intros Ha Hb. unfold Number_lt.
  destruct a, b; cbn in Ha, Hb; try congruence; cbn [Number_compare];
    rewrite Qlt_alt; destruct (_ ?= _)%Q; split; congruence.
Qed.

(** [Math.min] of two finite numbers has the smaller value. *)
Lemma Math_min_value (x y : Number) (vx vy : Q) :
  Number_value x = Some vx -> Number_value y = Some vy ->
  exists v, Number_value (Math_min x y) = Some v /\ (v == Qmin vx vy)%Q.
Proof.
  intros Hx Hy.
  pose proof (Number_value_real _ _ Hx) as Ex.
  pose proof (Number_value_real _ _ Hy) as Ey. subst vx vy.
  assert (G : forall z, (z = x \/ z = y) ->
              (Number_real z == Qmin (Number_real x) (Number_real y))%Q ->
              exists v, Number_value z = Some v
                        /\ (v == Qmin (Number_real x) (Number_real y))%Q).
  { intros z [-> | ->] Hz; eexists; (split; [eassumption | exact Hz]). }
  pose proof Number_lt_real as L.
  assert (Nx : Number_value x <> None) by congruence.
  assert (Ny : Number_value y <> None) by congruence.
  assert (D : Math_min x y = (if Number_lt y x then y else x)
              \/ (Math_min x y = y /\ (Number_real x == Number_real y)%Q)).
  { destruct x as [[] | | |], y as [[] | | |]; cbn in Nx, Ny; try congruence;
      try (left; reflexivity). right. split; reflexivity. }
  destruct D as [D | [D E]]; rewrite D.
  - destruct (Number_lt y x) eqn:Hlt.
    + apply G; [auto |]. apply L in Hlt; [| assumption ..].
      symmetry. rewrite Q.min_r; [reflexivity | apply Qlt_le_weak; exact Hlt].
    + apply G; [auto |]. symmetry. apply Q.min_l. apply Qnot_lt_le.
      intros H. apply L in H; [congruence | assumption ..].
  - apply G; [auto |]. symmetry. apply Q.min_r. rewrite E. apply Qle_refl.
Qed.

Lemma Math_min_Infinity (y : Number) (vy : Q) :
  Number_value y = Some vy -> Math_min (S754_infinity false) y = y.
Proof. destruct y as [[] | | |]; cbn; congruence || reflexivity. Qed.

Lemma Number_real_negative (m : positive) (e : Z) :
  (Number_real (S754_finite true m e) < 0)%Q.
Proof.
  unfold Number_real. cbn [cond_Zopp].
  assert (H : (inject_Z (Z.neg m) * 2 ^ e < 0 * 2 ^ e)%Q)
    by (apply Qmult_lt_compat_r; [apply Qpower_0_lt |]; reflexivity).
  rewrite Qmult_0_l in H. exact H.
Qed.

(** The formula, for the counts at which [Math.pow] does not overflow. *)
Lemma calculateBackoffDelay_real (n : Z) (base max : Number) (b m : Q) :
  1 <= n <= 1024 ->
  is_double base -> is_double max ->
  Number_value base = Some b -> Number_value max = Some m ->
  (0 <= b)%Q ->
  exists v, Number_value (calculateBackoffDelay n base max) = Some v
            /\ (v == computeDelay_spec n b m)%Q.
Proof.
  intros Hn Vb Vm Hb Hm Hpos. unfold calculateBackoffDelay, computeDelay_spec.
  cbv zeta. set (k := n - 1). assert (Hk : 0 <= k <= 1023) by (subst k; lia).
  destruct base as [s | | | s mx ex]; cbn in Hb; try discriminate.
  - injection Hb as <-.
    rewrite Math_pow2_closed by lia.
    replace (k <=? 1023) with true by (symmetry; apply Z.leb_le; lia).
    cbn [Number_mul SFmul].
    destruct (Math_min_value (S754_zero (xorb s false)) max 0 m eq_refl Hm)
      as (v & Hv & Ev).
    exists v. split; [exact Hv |]. rewrite Ev, Qmult_0_l. reflexivity.
  - injection Hb as <-. destruct s.
    { exfalso. apply (Qlt_not_le _ _ (Number_real_negative mx ex)). exact Hpos. }
    pose proof (Number_mul_pow2 false mx ex k Vb Hk) as P. cbv zeta in P.
    rewrite P. clear P.
    set (e1 := Z.max (Zpos (digits2_pos mx) + ex + k - 53) (-1074)) in *.
    pose proof (bounded_unfold _ _ Vb) as [Hc He].
    destruct (Z.leb_spec e1 971) as [Hle | Hgt].
    + match goal with |- context [Math_min ?x max] =>
        destruct (Math_min_value x max _ m eq_refl Hm) as (v & Hv & Ev) end.
      exists v. split; [exact Hv |]. rewrite Ev.
      rewrite Number_real_scaled by (subst e1; lia). reflexivity.
    + rewrite (Math_min_Infinity _ _ Hm). exists m. split; [exact Hm |].
      symmetry. apply Q.min_r.
      apply Qle_trans with (inject_Z (2 ^ 1024)).
      * apply Qlt_le_weak. rewrite (Number_value_real _ _ Hm).
        destruct max; cbn in Hm; try discriminate; [reflexivity |].
        apply Number_real_bound. exact Vm.
      * apply Number_real_overflow; [lia | exact Hgt].
Qed.

(** Multiplying by [Math.pow(2, 0)], that is by 1, changes nothing. *)
Lemma Number_mul_pow2_0 (x : Number) :
  is_double x -> Number_mul x (Math_pow2 0) = x.
Proof.
  intros V. destruct x as [s | s | | s mx ex].
  - destruct s; reflexivity.
  - destruct s; reflexivity.
  - reflexivity.
  - pose proof (Number_mul_pow2 s mx ex 0 V ltac:(lia)) as P. cbv zeta in P.
    rewrite P. apply bounded_unfold in V as [Hc He].
    replace (Z.pos (digits2_pos mx) + ex + 0 - 53)
      with (Z.pos (digits2_pos mx) + ex - 53) by lia.
    rewrite Hc. replace (ex <=? 971) with true by (symmetry; apply Z.leb_le; lia).
    replace (ex + 0 - ex) with 0 by lia.
    change (2 ^ 0) with 1. rewrite Z.mul_1_r. reflexivity.
Qed.

Lemma Number_compare_antisym (x y : Number) :
  Number_compare y x = option_map CompOpp (Number_compare x y).
Proof.
  destruct x as [sx | sx | | sx mx ex], y as [sy | sy | | sy my ey];
    cbn [Number_compare option_map];
    try reflexivity;
    try (destruct sx; reflexivity); try (destruct sy; reflexivity);
    try (destruct sx, sy; reflexivity);
    rewrite <- Qcompare_antisym; reflexivity.
Qed.

Lemma Number_compare_refl (x : Number) :
  x <> S754_nan -> Number_compare x x = Some Eq.
Proof.
  destruct x as [s | s | | s m e]; intros H; cbn [Number_compare];
    try congruence; try (destruct s; reflexivity);
    f_equal; apply Qeq_alt; reflexivity.
Qed.

(** When [x <= y], [Math.min(x, y)] is [x] (up to the sign of a zero,
    which [===] does not see). *)
Lemma Math_min_le_cases (x y : Number) :
  Number_le x y = true ->
  Math_min x y = x
  \/ (x = S754_zero false /\ y = S754_zero true /\ Math_min x y = y).
Proof.
  unfold Number_le. intros H.
  assert (Nx : x <> S754_nan) by (intros ->; discriminate H).
  assert (Ny : y <> S754_nan) by (intros ->; destruct x; discriminate H).
  assert (L : Number_lt y x = false).
  { unfold Number_lt. rewrite Number_compare_antisym.
    destruct (Number_compare x y) as [[] |]; cbn; congruence. }
  destruct x as [[] | | |], y as [[] | | |]; try congruence;
    try (left; cbn [Math_min]; rewrite L; reflexivity).
  right. auto.
Qed.

Lemma Math_min_le (x y : Number) :
  Number_le x y = true -> Number_eq (Math_min x y) x = true.
Proof.
  intros H. pose proof (Math_min_le_cases x y H) as D.
  unfold Number_le, Number_eq in *.
  assert (Nx : x <> S754_nan) by (intros ->; discriminate H).
  destruct D as [-> | (-> & -> & ->)].
  - rewrite Number_compare_refl by assumption. reflexivity.
  - reflexivity.
Qed.

(** When [y < x], [Math.min(x, y)] is [y]. *)
Lemma Math_min_gt (x y : Number) :
  Number_lt y x = true -> Math_min x y = y.
Proof.
  intros H.
  destruct x as [[] | | |], y as [[] | | |]; try discriminate H;
    try reflexivity; cbn [Math_min]; rewrite H; reflexivity.
Qed.

(** A timer for [Math.min(x, y)] waits no longer than one for [y]. *)
Lemma timer_ms_Math_min (x y : Number) (vy : Q) :
  Number_value y = Some vy ->
  0 <= timer_ms (Math_min x y) <= timer_ms y.
Proof.
  intros Hy.
  assert (Ty : timer_ms y = Z.max 0 (Qceiling vy))
    by (unfold timer_ms; rewrite Hy; reflexivity).
  assert (B : forall z, 0 <= timer_ms z)
    by (intros z; unfold timer_ms; destruct (Number_value z); lia).
  split; [apply B |].
  assert (D : Math_min x y = y \/ Number_value (Math_min x y) = None
              \/ (Math_min x y = x /\ Number_lt y x = false
                  /\ Number_value x <> None)).
  { destruct x as [[] | [] | |], y as [[] | [] | |]; cbn in Hy; try discriminate Hy;
      cbn [Math_min Number_value]; auto;
      destruct (Number_lt _ _) eqn:E; auto;
      right; right; repeat split; congruence. }
  destruct D as [-> | [D | (D & L & Nx)]].
  - lia.
  - unfold timer_ms at 1. rewrite D. apply B.
  - rewrite D, Ty. unfold timer_ms.
    destruct (Number_value x) as [vx |] eqn:Hx; [| congruence].
    apply Z.max_le_compat_l. apply Qceiling_resp_le.
    rewrite (Number_value_real _ _ Hx), (Number_value_real _ _ Hy).
    apply Qnot_lt_le. intros H.
    assert (T : Number_lt y x = true); [| congruence].
    apply Number_lt_real; [congruence | congruence | exact H].
Qed.

Lemma Number_isFinite_value (x : Number) :
  Number_isFinite x = true <-> Number_value x = Some (Number_real x).
Proof. destruct x; cbn; split; congruence. Qed.

Lemma calculateBackoffDelay_finite (n : Z) (base max : Number) :
  1 <= n <= 1024 ->
  is_double base -> is_double max ->
  Number_isFinite base = true -> Number_isFinite max = true ->
  (0 <= Number_real base)%Q ->
  Number_isFinite (calculateBackoffDelay n base max) = true
  /\ (Number_real (calculateBackoffDelay n base max)
      == computeDelay_spec n (Number_real base) (Number_real max))%Q.
Proof.
  intros Hn Vb Vm Fb Fm Hb.
  apply Number_isFinite_value in Fb, Fm.
  destruct (calculateBackoffDelay_real n base max _ _ Hn Vb Vm Fb Fm Hb) as (v & Hv & Ev).
  pose proof (Number_value_real _ _ Hv) as ->.
  split; [| exact Ev].
  destruct (calculateBackoffDelay n base max); cbn in Hv |- *; congruence.
Qed.

(** *** The formula *)

(** C1, as the code has it: for every attempt count from 1 to 1024, every
    finite base that is not negative and every finite maximum,
    [calculateBackoffDelay] returns [min(base * 2^(attemptCount-1), max)];
    with base 1000 and maximum 10000 the first attempt gives 1000, the
    fourth 8000 and the fifth the cap, 10000. *)
Theorem calculateBackoffDelay_formula (attemptCount : Z) (base max : Number) :
  1 <= attemptCount <= 1024 ->
  is_double base -> is_double max ->
  Number_isFinite base = true -> Number_isFinite max = true ->
  (0 <= Number_real base)%Q ->
  (Number_isFinite (calculateBackoffDelay attemptCount base max) = true
   /\ (Number_real (calculateBackoffDelay attemptCount base max)
       == computeDelay_spec attemptCount (Number_real base) (Number_real max))%Q)
  /\ calculateBackoffDelay 1 (Number_of_Z 1000) (Number_of_Z 10000) = Number_of_Z 1000
  /\ calculateBackoffDelay 4 (Number_of_Z 1000) (Number_of_Z 10000) = Number_of_Z 8000
  /\ calculateBackoffDelay 5 (Number_of_Z 1000) (Number_of_Z 10000) = Number_of_Z 10000.
Proof.
  intros Hn Vb Vm Fb Fm Hb.
  split; [apply calculateBackoffDelay_finite; assumption |].
  repeat split; vm_compute; reflexivity.
Qed.

Lemma calculateBackoffDelay_formula_witness :
  (Number_isFinite (calculateBackoffDelay 3 (Number_of_Z 1000) (Number_of_Z 10000)) = true
   /\ (Number_real (calculateBackoffDelay 3 (Number_of_Z 1000) (Number_of_Z 10000))
       == computeDelay_spec 3 (Number_real (Number_of_Z 1000))
            (Number_real (Number_of_Z 10000)))%Q)
  /\ calculateBackoffDelay 1 (Number_of_Z 1000) (Number_of_Z 10000) = Number_of_Z 1000
  /\ calculateBackoffDelay 4 (Number_of_Z 1000) (Number_of_Z 10000) = Number_of_Z 8000
  /\ calculateBackoffDelay 5 (Number_of_Z 1000) (Number_of_Z 10000) = Number_of_Z 10000.
Proof.
  apply (calculateBackoffDelay_formula 3 (Number_of_Z 1000) (Number_of_Z 10000)).
  - lia.
  - reflexivity.
  - reflexivity.
  - reflexivity.
  - reflexivity.
  - vm_compute. discriminate.
Defined.

(** C1 as stated fails where [Math.pow] overflows: from the attempt count
    1025 on, [Math.pow(2, attemptCount - 1)] is Infinity, so a base of 0
    gives NaN where the formula gives 0, and the smallest positive base
    gives the maximum where the formula gives 32.  It also fails where
    the product overflows below: with the base -2 the count 1024 gives
    -Infinity, whatever the maximum. *)
Lemma calculateBackoffDelay_overflow :
  (calculateBackoffDelay 1025 (Number_of_Z 0) (Number_of_Z 10000) = S754_nan
   /\ (computeDelay_spec 1025 0 10000 == 0)%Q)
  /\ (calculateBackoffDelay 1080 (Math_pow2 (-1074)) (Number_of_Z 10000)
      = Number_of_Z 10000
      /\ is_double (Math_pow2 (-1074))
      /\ (computeDelay_spec 1080 (Number_real (Math_pow2 (-1074))) 10000 == 32)%Q)
  /\ calculateBackoffDelay 1024 (Number_of_Z (-2)) (Number_of_Z 10000)
     = S754_infinity true.
Proof.
  repeat split; vm_compute; reflexivity.
Qed.

(** C9, as the code has it: on the first attempt the calculator returns
    [base] whenever [base] does not exceed the maximum.  The result equals
    [base] as JavaScript numbers compare, and is the very same double
    unless [base] is [+0] and the maximum is [-0], where it is [-0]. *)
Theorem calculateBackoffDelay_first (base max : Number) :
  is_double base ->
  Number_le base max = true ->
  Number_eq (calculateBackoffDelay 1 base max) base = true
  /\ (calculateBackoffDelay 1 base max = base
      \/ (base = S754_zero false /\ max = S754_zero true)).
Proof.
  intros V H. unfold calculateBackoffDelay. cbv zeta.
  change (1 - 1) with 0. rewrite Number_mul_pow2_0 by exact V.
  split; [apply Math_min_le; exact H |].
  destruct (Math_min_le_cases base max H) as [E | (Eb & Em & _)]; auto.
Qed.

Lemma calculateBackoffDelay_first_witness :
  Number_le (Number_of_Z 1000) (Number_of_Z 10000) = true
  /\ calculateBackoffDelay 1 (Number_of_Z 1000) (Number_of_Z 10000) = Number_of_Z 1000.
Proof.
  split; [reflexivity |].
  destruct (calculateBackoffDelay_first (Number_of_Z 1000) (Number_of_Z 10000)
              eq_refl eq_refl) as [_ [E | [E _]]]; [exact E | discriminate E].
Defined.

(** C9 as stated fails: with a maximum below the base, the first attempt
    returns the maximum. *)
Lemma calculateBackoffDelay_first_capped :
  calculateBackoffDelay 1 (Number_of_Z 1000) (Number_of_Z 500) = Number_of_Z 500
  /\ Number_eq (calculateBackoffDelay 1 (Number_of_Z 1000) (Number_of_Z 500))
       (Number_of_Z 1000) = false.
Proof. split; reflexivity. Qed.

(** ** The reference platform obeys the laws *)

Module RefDateFacts.
Import RefDate.

Lemma date_digit_value_digit k : 0 <= k <= 9 -> digit_value (digit k) = Some k.
Proof.
  intros H.
  assert (E : k = 0 \/ k = 1 \/ k = 2 \/ k = 3 \/ k = 4 \/ k = 5 \/ k = 6
              \/ k = 7 \/ k = 8 \/ k = 9) by lia.
  repeat (destruct E as [-> | E]; [reflexivity |]). subst k. reflexivity.
Qed.

Local Ltac by_div := Z.div_mod_to_equations; lia.

Lemma date_sep_append c rest : String c "" ++ rest = String c rest.
Proof. reflexivity. Qed.

Lemma date_field2 sep n rest :
  0 <= n < 100 -> field 2 sep (pad2 n ++ String sep rest) = Some (n, rest).
Proof.
  intros H. unfold field, pad2. cbv [String.append]; cbn [take_digits].
  rewrite !date_digit_value_digit by by_div.
  cbn [expect]. rewrite Ascii.eqb_refl. do 2 f_equal. by_div.
Qed.

Lemma date_field3 sep n rest :
  0 <= n < 1000 -> field 3 sep (pad3 n ++ String sep rest) = Some (n, rest).
Proof.
  intros H. unfold field, pad3, pad2. cbv [String.append]; cbn [take_digits].
  rewrite !date_digit_value_digit by by_div.
  cbn [expect]. rewrite Ascii.eqb_refl. do 2 f_equal. by_div.
Qed.

Lemma date_field4 sep n rest :
  0 <= n < 10000 -> field 4 sep (pad4 n ++ String sep rest) = Some (n, rest).
Proof.
  intros H. unfold field, pad4, pad3, pad2. cbv [String.append]; cbn [take_digits].
  rewrite !date_digit_value_digit by by_div.
  cbn [expect]. rewrite Ascii.eqb_refl. do 2 f_equal. by_div.
Qed.

Lemma date_all_from_spec n : forall doe i,
  all_from n doe = true -> doe <= i < doe + Z.of_nat n -> era_day_ok i = true.
Proof.
  induction n as [| k IH]; intros doe i A Hi; [lia |].
  cbn [all_from] in A. apply andb_prop in A as [A1 A2].
  destruct (Z.eq_dec i doe) as [-> | Hne]; [exact A1 |].
  apply (IH (doe + 1)); [exact A2 | lia].
Qed.

Lemma date_era_days_ok : all_from (Z.to_nat 146097) 0 = true.
Proof. vm_compute. reflexivity. Qed.

Lemma date_era_day doe : 0 <= doe < 146097 -> era_day_ok doe = true.
Proof.
  intros H. apply (date_all_from_spec _ 0 doe date_era_days_ok). lia.
Qed.

Lemma date_civil_roundtrip days :
  0 <= days < 2932897 ->
  let '(y, m, d) := civil_from_days days in
  0 <= y < 10000 /\ 1 <= m <= 12 /\ 1 <= d <= 31 /\ days_from_civil y m d = days.
Proof.
  intros H. unfold civil_from_days, days_from_civil.
  set (z := days + 719468).
  pose proof (Z.mod_pos_bound z 146097 ltac:(lia)) as Hdoe.
  pose proof (date_era_day _ Hdoe) as E. unfold era_day_ok in E.
  destruct (civil_of_doe (z mod 146097)) as [[yoe m] d].
  pose proof (Z.div_mod z 146097 ltac:(lia)) as Hz.
  set (era := z / 146097) in *. set (doe := z mod 146097) in *.
  assert (He : 4 <= era <= 24) by (subst z; lia).
  assert (Hdiv : (yoe + era * 400) / 400 = era)
    by (symmetry; apply (Z.div_unique _ 400 era yoe); lia).
  assert (Hmod : (yoe + era * 400) mod 400 = yoe)
    by (symmetry; apply (Z.mod_unique _ 400 era yoe); lia).
  destruct (m <=? 2) eqn:Hm.
  - replace (yoe + era * 400 + 1 - 1) with (yoe + era * 400) by lia.
    rewrite Hdiv, Hmod. subst z. lia.
  - rewrite Hdiv, Hmod. subst z. lia.
Qed.

Lemma ref_parse_toISOString t : representable t -> parse (toISOString t) = ValidDate t.
Proof.
  unfold representable. intros H. unfold toISOString.
  pose proof (date_civil_roundtrip (t / 86400000)) as C.
  pose proof (Z.div_mod t 86400000 ltac:(lia)) as Ht.
  pose proof (Z.mod_pos_bound t 86400000 ltac:(lia)) as Hms.
  destruct (civil_from_days (t / 86400000)) as [[y m] d].
  destruct C as (Hy & Hm & Hd & Hdays); [lia |].
  set (ms := t mod 86400000) in *.
  unfold parse. rewrite !date_sep_append.
  rewrite date_field4 by lia.
  rewrite !date_field2 by by_div.
  rewrite date_field3 by by_div.
  replace ((1 <=? m) && (m <=? 12) && (1 <=? d) && (d <=? 31)
           && (ms / 3600000 <? 24) && (ms / 60000 mod 60 <? 60)
           && (ms / 1000 mod 60 <? 60)) with true by (symmetry; by_div).
  f_equal. rewrite Hdays. by_div.
Qed.

End RefDateFacts.

Module RefJsonFacts.
Import RefJson.
Local Arguments String.append !s1 s2 : simpl nomatch.

Lemma json_string_body_escape s rest :
  string_body (escape s ++ String quote rest) = Some (s, rest).
Proof.
  induction s as [| c s IH]; [reflexivity |].
  cbn [escape]. unfold special.
  destruct (Ascii.eqb c quote) eqn:Hq.
  - cbn [orb String.append string_body].
    replace (Ascii.eqb backslash quote) with false by reflexivity.
    rewrite Ascii.eqb_refl. unfold special. rewrite Hq. cbn [orb].
    rewrite IH. reflexivity.
  - destruct (Ascii.eqb c backslash) eqn:Hb.
    + cbn [orb String.append string_body].
      replace (Ascii.eqb backslash quote) with false by reflexivity.
      rewrite Ascii.eqb_refl. unfold special. rewrite Hq, Hb. cbn [orb].
      rewrite IH. reflexivity.
    + cbn [orb String.append string_body]. rewrite Hq, Hb, IH. reflexivity.
Qed.

Lemma json_span_number_token tok sep rest :
  all_number_chars tok = true -> number_char sep = false ->
  span_number (tok ++ String sep rest) = (tok, String sep rest).
Proof.
  intros Htok Hsep. induction tok as [| c tok IH].
  - cbn. rewrite Hsep. reflexivity.
  - cbn in Htok. apply andb_prop in Htok as [Hc Htok].
    cbn [String.append span_number]. rewrite Hc, (IH Htok). reflexivity.
Qed.

Lemma json_uint_number_chars d : all_number_chars (NilEmpty.string_of_uint d) = true.
Proof. induction d; cbn; auto. Qed.

Lemma json_Number_toString_number_chars n : all_number_chars (Number_toString n) = true.
Proof.
  unfold Number_toString.
  destruct n as [| p | p]; cbn [Z.to_int NilZero.string_of_int]; [reflexivity | |].
  - unfold NilZero.string_of_uint.
    destruct (Pos.to_uint p); try apply json_uint_number_chars; reflexivity.
  - cbn [all_number_chars]. unfold NilZero.string_of_uint.
    destruct (Pos.to_uint p); try apply json_uint_number_chars; reflexivity.
Qed.

Lemma json_number_Number_toString n sep rest :
  number_char sep = false ->
  number (Number_toString n ++ String sep rest) = Some (n, String sep rest).
Proof.
  intros Hsep. unfold number.
  rewrite json_span_number_token by (auto using json_Number_toString_number_chars).
  unfold Number_toString. rewrite NilZero.isi.
  - rewrite DecimalZ.of_to. reflexivity.
  - destruct n; cbn; try discriminate.
    intros [= E]. exact (Unsigned.to_uint_nonnil _ E).
  - destruct n; cbn; try discriminate.
    intros [= E]. exact (Unsigned.to_uint_nonnil _ E).
Qed.

Lemma json_append_assoc (a b c : string) : (a ++ b) ++ c = a ++ b ++ c.
Proof. induction a as [| x a IH]; [reflexivity |]. cbn. rewrite IH. reflexivity. Qed.

Lemma json_Number_toString_head n :
  exists ch tl, Number_toString n = String ch tl /\ number_char ch = true.
Proof.
  pose proof (json_Number_toString_number_chars n) as H.
  destruct (Number_toString n) as [| ch tl] eqn:E.
  - exfalso. unfold Number_toString in E.
    destruct n as [| p | p]; cbn in E; try discriminate.
    unfold NilZero.string_of_uint in E.
    pose proof (Unsigned.to_uint_nonnil p) as Hn.
    destruct (Pos.to_uint p); try discriminate; congruence.
  - exists ch, tl. split; [reflexivity |].
    cbn in H. apply andb_prop in H as [H _]. exact H.
Qed.

Lemma json_value_of_number n sep rest :
  number_char sep = false ->
  value_of (Number_toString n ++ String sep rest) = Some (VNum n, String sep rest).
Proof.
  intros Hsep. unfold value_of.
  rewrite (json_number_Number_toString n sep rest Hsep).
  destruct (json_Number_toString_head n) as (ch & tl & -> & Hch).
  cbn [String.append strip].
  assert (Ascii.eqb quote ch = false /\ Ascii.eqb "n" ch = false
          /\ Ascii.eqb "t" ch = false /\ Ascii.eqb "f" ch = false) as (-> & -> & -> & ->).
  { destruct ch as [[] [] [] [] [] [] [] []]; try discriminate Hch; repeat split. }
  reflexivity.
Qed.

Lemma json_value_of_string s rest :
  value_of (String quote (escape s ++ String quote rest)) = Some (VStr s, rest).
Proof.
  unfold value_of. cbn [strip]. rewrite Ascii.eqb_refl, json_string_body_escape.
  reflexivity.
Qed.

Lemma json_members_more fuel k vtext v rest acc :
  value_of (vtext ++ String "," rest) = Some (v, String "," rest) ->
  members (Datatypes.S fuel)
    (String quote (escape k ++ String quote (String ":" (vtext ++ String "," rest)))) acc
  = members fuel rest ((k, v) :: acc).
Proof.
  intros Hv. cbn [members strip]. rewrite Ascii.eqb_refl, json_string_body_escape.
  cbn [strip]. rewrite Ascii.eqb_refl, Hv. cbn [strip]. rewrite Ascii.eqb_refl.
  reflexivity.
Qed.

Lemma json_members_last fuel k vtext v acc :
  value_of (vtext ++ "}") = Some (v, "}") ->
  members (Datatypes.S fuel)
    (String quote (escape k ++ String quote (String ":" (vtext ++ "}")))) acc
  = Some ((k, v) :: acc).
Proof.
  intros Hv. cbn [members strip]. rewrite Ascii.eqb_refl, json_string_body_escape.
  cbn [strip]. rewrite Ascii.eqb_refl, Hv. reflexivity.
Qed.

Lemma json_object_open body :
  object (String "{" (String quote body))
  = members (Datatypes.S (Datatypes.S (String.length body))) (String quote body) [].
Proof. reflexivity. Qed.

Lemma json_stringify_both c s :
  stringify (mkAttemptJson (Some c) (Some s))
  = String "{" (String quote (escape "count" ++ String quote (String ":"
      (Number_toString c ++ String ","
        (String quote (escape "lastAttempt" ++ String quote (String ":"
           (String quote (escape s ++ String quote EmptyString) ++ "}")))))))).
Proof.
  unfold stringify, quoted. cbn [json_count json_lastAttempt app String.concat].
  rewrite !json_append_assoc. reflexivity.
Qed.

Lemma ref_parse_stringify c s :
  parse (stringify (mkAttemptJson (Some c) (Some s)))
  = Resolved (mkAttemptJson (Some c) (Some s)).
Proof.
  unfold parse. rewrite json_stringify_both, json_object_open.
  rewrite (json_members_more _ "count" _ (VNum c)) by (apply json_value_of_number; reflexivity).
  rewrite (json_members_last _ "lastAttempt" _ (VStr s)).
  - reflexivity.
  - change (String quote (escape s ++ String quote "") ++ "}")
      with (String quote ((escape s ++ String quote "") ++ "}")).
    rewrite json_append_assoc. apply json_value_of_string.
Qed.

Lemma ref_stringify_nonempty j : stringify j <> "".
Proof. unfold stringify. discriminate. Qed.

End RefJsonFacts.

Lemma ref_toISOString_nonempty (t : Z) : RefDate.toISOString t <> "".
Proof.
  unfold RefDate.toISOString.
  destruct (RefDate.civil_from_days (t / 86400000)) as [[y m] d].
  unfold RefDate.pad4. discriminate.
Qed.

Lemma RefCodec_laws : @CodecLaws RefCodec.
Proof.
  split.
  - exact RefJsonFacts.ref_parse_stringify.
  - exact RefJsonFacts.ref_stringify_nonempty.
  - exact ref_toISOString_nonempty.
  - exact RefDateFacts.ref_parse_toISOString.
Qed.

Lemma MemoryAsyncStorage_reliable : Reliable MemoryAsyncStorage async_kv.
Proof. repeat split; cbn; intros; subst; eauto; congruence. Qed.

Lemma MemorySecureStore_reliable : Reliable MemorySecureStore secure_kv.
Proof. repeat split; cbn; intros; subst; eauto; congruence. Qed.

(** ** Running asynchronous code *)

Lemma on_storage_run {S A} (f : S -> Outcome A * S) (w : World S) :
  on_storage f w
  = (fst (f (storage w)),
     mkWorld (clock w) (snd (f (storage w))) (console w) (timers w)).
Proof. unfold on_storage. destruct (f (storage w)); reflexivity. Qed.

Lemma bind_run {S A B} (m : Async S A) (k : A -> Async S B) (w : World S) a :
  fst (m w) = Resolved a -> bind m k w = k a (snd (m w)).
Proof. unfold bind. destruct (m w) as [o w']; cbn. intros ->. reflexivity. Qed.

Lemma truthy_Some (s : string) : s <> "" -> truthy (Some s) = true.
Proof.
  intros H. cbn. destruct (String.eqb_spec s ""); [contradiction | reflexivity].
Qed.

Lemma reliable_get {S} (b : Backend S) view k s :
  Reliable b view -> fst (kv_get b k s) = Resolved (view s !! k).
Proof.
  intros HR. destruct (get_ok _ _ HR k s) as [v Hv].
  rewrite Hv. f_equal. exact (get_value _ _ (reliable_consistent _ _ HR) k s v Hv).
Qed.

(** ** Decoding what the recorder wrote *)

Lemma wait_minutes_formula (x : Z) :
  Qceiling (inject_Z x / 1000 / 60) = waitMinutes_spec x 0.
Proof.
  unfold waitMinutes_spec. rewrite Z.sub_0_r. apply Qceiling_comp.
  change (inject_Z 60000) with (1000 * 60)%Q. field.
Qed.

Lemma waitMinutes_spec_shift (e n : Z) :
  waitMinutes_spec e n = waitMinutes_spec (e - n) 0.
Proof. unfold waitMinutes_spec. rewrite Z.sub_0_r. reflexivity. Qed.

Lemma waitMinutes_spec_15 (x : Z) :
  840000 < x <= 900000 -> waitMinutes_spec x 0 = 15.
Proof.
  intros H. unfold waitMinutes_spec, Qceiling, Qfloor. rewrite Z.sub_0_r. cbn.
  Z.div_mod_to_equations. lia.
Qed.

Section CodecFacts.
Context {CD : Codec}.


Lemma decodeAttempt_stored (m : gmap string string) (key : string) (j : AttemptJson) :
  stored_record m key j ->
  decodeAttempt (m !! key)
  = {| count := default 0 (json_count j);
       lastAttempt :=
         if truthy (json_lastAttempt j)
         then Some (Date_parse (default "" (json_lastAttempt j)))
         else None |}.
Proof.
  intros (data & -> & Hne & Hparse). unfold decodeAttempt.
  rewrite (truthy_Some data Hne). simpl. rewrite Hparse. reflexivity.
Qed.

Context {CL : CodecLaws}.

Lemma stored_record_written (m : gmap string string) (key : string) (c t : Z) :
  stored_record
    (<[key := JSON_stringify (mkAttemptJson (Some c) (Some (toISOString t)))]> m)
    key (mkAttemptJson (Some c) (Some (toISOString t))).
Proof.
  eexists. split; [apply lookup_insert_eq |].
  split; [apply stringify_nonempty | apply parse_stringify].
Qed.

Lemma decodeAttempt_written_count (m : gmap string string) (key : string) (c t : Z) :
  count (decodeAttempt
           (<[key := JSON_stringify (mkAttemptJson (Some c) (Some (toISOString t)))]> m
            !! key)) = c.
Proof. rewrite (decodeAttempt_stored _ _ _ (stored_record_written m key c t)). reflexivity. Qed.

Lemma decodeAttempt_written (m : gmap string string) (key : string) (c t : Z) :
  representable t ->
  decodeAttempt
    (<[key := JSON_stringify (mkAttemptJson (Some c) (Some (toISOString t)))]> m !! key)
  = {| count := c; lastAttempt := Some (ValidDate t) |}.
Proof.
  intros Ht. rewrite (decodeAttempt_stored _ _ _ (stored_record_written m key c t)).
  cbn [json_count json_lastAttempt from_option id].
  rewrite (truthy_Some _ (toISOString_nonempty t)), (parse_toISOString t Ht).
  reflexivity.
Qed.

End CodecFacts.

(** ** The attempt tracker *)

Section DelayFacts.
Context {S : Type} {ST : Storage S} {CD : Codec}.
Variable view : S -> gmap string string.

(** Whatever the backend does, [getAttemptData] resolves, performs exactly
    one read and leaves clock and timers alone. *)
Lemma getAttemptData_frame (key : string) (w : World S) :
  (exists a, fst (getAttemptData key w) = Resolved a)
  /\ clock (snd (getAttemptData key w)) = clock w
  /\ timers (snd (getAttemptData key w)) = timers w
  /\ storage (snd (getAttemptData key w)) = snd (kv_get AsyncStorage key (storage w)).
Proof.
  unfold getAttemptData, bind, try_catch. rewrite on_storage_run.
  destruct (kv_get AsyncStorage key (storage w)) as [[data | e] s']; cbn.
  - destruct (truthy data); cbn; [| eauto].
    destruct (JSON_parse (default "" data)); cbn; eauto.
  - eauto.
Qed.

Lemma getAttemptData_decode (key : string) (w : World S) :
  Reliable AsyncStorage view ->
  fst (getAttemptData key w) = Resolved (decodeAttempt (view (storage w) !! key))
  /\ view (storage (snd (getAttemptData key w))) = view (storage w)
  /\ clock (snd (getAttemptData key w)) = clock w
  /\ timers (snd (getAttemptData key w)) = timers w.
Proof.
  intros HR.
  destruct (getAttemptData_frame key w) as (_ & Hc & Ht & Hs).
  repeat split; [| rewrite Hs; apply (get_frame _ _ (reliable_consistent _ _ HR)) | exact Hc | exact Ht].
  pose proof (reliable_get AsyncStorage view key (storage w) HR) as Hget.
  unfold getAttemptData, bind, try_catch. rewrite on_storage_run.
  destruct (kv_get AsyncStorage key (storage w)) as [o s']; cbn in Hget; subst o.
  unfold decodeAttempt. cbn.
  destruct (truthy (view (storage w) !! key)); cbn; [| reflexivity].
  destruct (JSON_parse (default "" (view (storage w) !! key))); reflexivity.
Qed.

(** The three ways a rate-limit check can go on a reliable store. *)
Lemma checkRateLimit_cases (key : string) (maxAttempts cooldownMinutes : Z)
    (what : string) (w : World S) :
  Reliable AsyncStorage view ->
  let a := decodeAttempt (view (storage w) !! key) in
  let r := checkRateLimit key maxAttempts cooldownMinutes what w in
  clock (snd r) = clock w /\ timers (snd r) = timers w /\
  match count a >=? maxAttempts, lastAttempt a with
  | true, Some last =>
      let cooldownEndTime := Date_plus last (cooldownMinutes * 60 * 1000) in
      if Date_lt (ValidDate (clock w)) cooldownEndTime then
        (let waitTime :=
           Qceiling (inject_Z (Date_minus cooldownEndTime (ValidDate (clock w)))
                     / 1000 / 60)%Q in
         fst r = Resolved {|
           isLimited := true;
           waitTime := waitTime;
           message := "Too many " ++ what ++ " attempts. Please wait "
                      ++ Number_toString waitTime
                      ++ " minutes before trying again." |})
        /\ view (storage (snd r)) = view (storage w)
      else
        fst r = Resolved notLimited
        /\ view (storage (snd r)) = delete key (view (storage w))
  | _, _ =>
      fst r = Resolved notLimited /\ view (storage (snd r)) = view (storage w)
  end.
Proof.
  intros HR a r. subst r.
  destruct (getAttemptData_decode key w HR) as (Ha & Hv & Hc & Ht).
  fold a in Ha. unfold checkRateLimit. rewrite (bind_run _ _ _ _ Ha).
  set (w1 := snd (getAttemptData key w)) in *.
  destruct (count a >=? maxAttempts); [| cbn; auto].
  destruct (lastAttempt a) as [last |]; [| cbn; auto].
  unfold bind, Date_now. rewrite Hc.
  destruct (Date_lt (ValidDate (clock w)) (Date_plus last (cooldownMinutes * 60 * 1000))).
  - cbn. rewrite Hc. auto.
  - rewrite on_storage_run.
    rewrite (remove_ok _ _ HR). cbn.
    rewrite (remove_value _ _ (reliable_consistent _ _ HR)) by apply (remove_ok _ _ HR).
    rewrite Hv. auto.
Qed.

(** A successful attempt on a reliable store: the record is removed and no
    timer is awaited. *)
Lemma recordAttempt_success (key : string) (w : World S) :
  Reliable AsyncStorage view ->
  let r := recordAttempt key true w in
  fst r = Resolved tt
  /\ view (storage (snd r)) = delete key (view (storage w))
  /\ timers (snd r) = timers w
  /\ clock (snd r) = clock w.
Proof.
  intros HR r. subst r.
  destruct (getAttemptData_decode key w HR) as (Ha & Hv & Hc & Ht).
  unfold recordAttempt. rewrite (bind_run _ _ _ _ Ha).
  unfold bind, Date_now. rewrite on_storage_run.
  rewrite (remove_ok _ _ HR). cbn.
  rewrite (remove_value _ _ (reliable_consistent _ _ HR)) by apply (remove_ok _ _ HR).
  rewrite Hv. auto.
Qed.

(** A failed attempt on a reliable store: the incremented count and the
    current time are written, then the backoff timer is awaited when the
    new count exceeds one. *)
Lemma recordAttempt_failure (key : string) (w : World S) :
  Reliable AsyncStorage view ->
  let newCount := count (decodeAttempt (view (storage w) !! key)) + 1 in
  let r := recordAttempt key false w in
  fst r = Resolved tt
  /\ view (storage (snd r))
     = <[key := JSON_stringify (mkAttemptJson (Some newCount)
                                 (Some (toISOString (clock w))))]> (view (storage w))
  /\ timers (snd r)
     = (timers w ++ (if newCount >? 1
                     then [calculateBackoffDelay_default newCount] else []))%list
  /\ clock (snd r)
     = clock w + (if newCount >? 1
                  then timer_ms (calculateBackoffDelay_default newCount)
                  else 0).
Proof.
  intros HR newCount r. subst r.
  pose proof (getAttemptData_decode key w HR) as (Ha & Hv & Hc & Ht).
  unfold recordAttempt, bind.
  destruct (getAttemptData key w) as [o w1]. cbn in Ha, Hv, Hc, Ht. subst o.
  unfold Date_now. rewrite Hc. fold newCount.
  unfold storeAttemptData, try_catch. rewrite on_storage_run.
  set (data := JSON_stringify _).
  pose proof (set_ok _ _ HR key data (storage w1)) as Hok.
  pose proof (set_value _ _ (reliable_consistent _ _ HR) key data (storage w1) Hok) as Hset.
  destruct (kv_set AsyncStorage key data (storage w1)) as [o2 s2].
  cbn in Hok, Hset. subst o2. rewrite Hv in Hset.
  destruct (newCount >? 1); cbn; rewrite ?Hc, ?Ht, ?app_nil_r, ?Z.add_0_r; auto.
Qed.

(** One more failure: what the next read of the record will see. *)
Lemma recordAttempt_failure_next {CL : CodecLaws} (key : string) (w : World S) (c : Z) :
  Reliable AsyncStorage view ->
  count (decodeAttempt (view (storage w) !! key)) = c ->
  let r := recordAttempt key false w in
  fst r = Resolved tt
  /\ view (storage (snd r))
     = <[key := JSON_stringify (mkAttemptJson (Some (c + 1))
                                 (Some (toISOString (clock w))))]> (view (storage w))
  /\ clock (snd r)
     = clock w + (if c + 1 >? 1
                  then timer_ms (calculateBackoffDelay_default (c + 1))
                  else 0)
  /\ count (decodeAttempt (view (storage (snd r)) !! key)) = c + 1.
Proof.
  intros HR Hc r. subst r.
  destruct (recordAttempt_failure key w HR) as (H1 & H2 & _ & H4).
  rewrite Hc in H2, H4. repeat split; try assumption.
  rewrite H2. apply decodeAttempt_written_count.
Qed.

End DelayFacts.

(** C2: five failed logins in a row, starting with no login record, leave
    the limiter throttled: a check made at once (or up to fifty seconds
    after the last backoff wait ended) reports [isLimited] with a wait of
    15 minutes.  And whenever a login check reports [isLimited], its wait
    time is [ceil((lastAttempt + cooldown - now) / 60000)].

    The fifth attempt is stamped 14 seconds after the first (the backoff
    waits of 2, 4 and 8 seconds lie in between); that timestamp has to be
    a date the codec laws speak about. *)
Theorem five_failures_rate_limited {S} {ST : Storage S} {CD : Codec} {CL : CodecLaws}
    (view : S -> gmap string string) (w : World S) (e : Z) :
  Reliable AsyncStorage view ->
  view (storage w) !! RATE_LIMIT_KEYS.LOGIN_ATTEMPTS = None ->
  representable (clock w + 14000) ->
  0 <= e < 50000 ->
  fst ((recordLoginAttempt false ;;
        recordLoginAttempt false ;;
        recordLoginAttempt false ;;
        recordLoginAttempt false ;;
        recordLoginAttempt false ;;
        elapse e ;;
        checkLoginRateLimit) w)
  = Resolved {|
      isLimited := true;
      waitTime := 15;
      message := "Too many login attempts. Please wait 15 minutes before trying again." |}
  /\ (forall (w' : World S) (r : RateLimit),
        fst (checkLoginRateLimit w') = Resolved r ->
        isLimited r = true ->
        exists a last,
          fst (getAttemptData RATE_LIMIT_KEYS.LOGIN_ATTEMPTS w') = Resolved a
          /\ lastAttempt a = Some (ValidDate last)
          /\ waitTime r
             = waitMinutes_spec
                 (last + RATE_LIMIT_CONFIG.LOGIN_COOLDOWN_MINUTES * 60000) (clock w')).
Proof.
  intros HR Habsent Hrep He. split.
  - set (key := RATE_LIMIT_KEYS.LOGIN_ATTEMPTS) in *.
    unfold recordLoginAttempt. fold key.
    assert (H0 : count (decodeAttempt (view (storage w) !! key)) = 0)
      by (rewrite Habsent; reflexivity).
    destruct (recordAttempt_failure_next view key w 0 HR H0) as (R1 & _ & C1 & N1).
    rewrite (bind_run _ _ _ _ R1). set (w1 := snd (recordAttempt key false w)) in *.
    destruct (recordAttempt_failure_next view key w1 1 HR N1) as (R2 & _ & C2 & N2).
    rewrite (bind_run _ _ _ _ R2). set (w2 := snd (recordAttempt key false w1)) in *.
    destruct (recordAttempt_failure_next view key w2 2 HR N2) as (R3 & _ & C3 & N3).
    rewrite (bind_run _ _ _ _ R3). set (w3 := snd (recordAttempt key false w2)) in *.
    destruct (recordAttempt_failure_next view key w3 3 HR N3) as (R4 & _ & C4 & N4).
    rewrite (bind_run _ _ _ _ R4). set (w4 := snd (recordAttempt key false w3)) in *.
    destruct (recordAttempt_failure_next view key w4 4 HR N4) as (R5 & V5 & C5 & _).
    rewrite (bind_run _ _ _ _ R5). set (w5 := snd (recordAttempt key false w4)) in *.
    change (0 + 1) with 1 in *. change (1 + 1) with 2 in *.
    change (2 + 1) with 3 in *. change (3 + 1) with 4 in *.
    change (4 + 1) with 5 in *.
    change (if 1 >? 1 then _ else 0) with 0 in C1.
    change (if 2 >? 1 then _ else 0) with 2000 in C2.
    change (if 3 >? 1 then _ else 0) with 4000 in C3.
    change (if 4 >? 1 then _ else 0) with 8000 in C4.
    change (if 5 >? 1 then _ else 0) with 10000 in C5.
    assert (T4 : clock w4 = clock w + 14000) by lia.
    unfold bind at 1, elapse at 1.
    set (w6 := mkWorld (clock w5 + e) (storage w5) (console w5) (timers w5)).
    pose proof (checkRateLimit_cases view key RATE_LIMIT_CONFIG.MAX_LOGIN_ATTEMPTS
                  RATE_LIMIT_CONFIG.LOGIN_COOLDOWN_MINUTES "login" w6 HR) as (_ & _ & K).
    change (storage w6) with (storage w5) in K. change (clock w6) with (clock w5 + e) in K.
    rewrite V5, T4, (decodeAttempt_written _ _ _ _ Hrep) in K.
    cbn [count lastAttempt Date_plus Date_lt Date_minus] in K.
    change (5 >=? RATE_LIMIT_CONFIG.MAX_LOGIN_ATTEMPTS) with true in K.
    replace (clock w5 + e <? clock w + 14000 + RATE_LIMIT_CONFIG.LOGIN_COOLDOWN_MINUTES * 60 * 1000)
      with true in K by (symmetry; apply Z.ltb_lt; unfold RATE_LIMIT_CONFIG.LOGIN_COOLDOWN_MINUTES; lia).
    destruct K as [K _]. cbv zeta in K.
    rewrite wait_minutes_formula, waitMinutes_spec_15 in K
      by (unfold RATE_LIMIT_CONFIG.LOGIN_COOLDOWN_MINUTES; lia).
    exact K.
  - intros w' r Hr Hlim.
    pose proof (checkRateLimit_cases view RATE_LIMIT_KEYS.LOGIN_ATTEMPTS
                  RATE_LIMIT_CONFIG.MAX_LOGIN_ATTEMPTS
                  RATE_LIMIT_CONFIG.LOGIN_COOLDOWN_MINUTES "login" w' HR) as (_ & _ & K).
    destruct (getAttemptData_decode view RATE_LIMIT_KEYS.LOGIN_ATTEMPTS w' HR) as (Ha & _).
    fold checkLoginRateLimit in K. rewrite Hr in K.
    set (a := decodeAttempt _) in *.
    destruct (count a >=? RATE_LIMIT_CONFIG.MAX_LOGIN_ATTEMPTS);
      [| destruct K as [[= ->] _]; discriminate].
    destruct (lastAttempt a) as [last |] eqn:Hlast;
      [| destruct K as [[= ->] _]; discriminate].
    destruct last as [last |]; cbn [Date_plus Date_lt] in K;
      [| destruct K as [[= ->] _]; discriminate].
    destruct (clock w' <? _); [| destruct K as [[= ->] _]; discriminate].
    destruct K as [[= ->] _]. cbn [waitTime Date_minus].
    exists a, last. repeat split; [exact Ha | exact Hlast |].
    rewrite wait_minutes_formula, (waitMinutes_spec_shift _ (clock w')).
    f_equal; unfold RATE_LIMIT_CONFIG.LOGIN_COOLDOWN_MINUTES; lia.
Qed.

Lemma five_failures_rate_limited_witness :
  fst ((recordLoginAttempt (ST := Device) (CD := RefCodec) false ;;
        recordLoginAttempt (ST := Device) (CD := RefCodec) false ;;
        recordLoginAttempt (ST := Device) (CD := RefCodec) false ;;
        recordLoginAttempt (ST := Device) (CD := RefCodec) false ;;
        recordLoginAttempt (ST := Device) (CD := RefCodec) false ;;
        elapse 0 ;;
        checkLoginRateLimit (ST := Device) (CD := RefCodec))
         (world_at 1704067200000 ∅))
  = Resolved {|
      isLimited := true;
      waitTime := 15;
      message := "Too many login attempts. Please wait 15 minutes before trying again." |}.
Proof.
  apply (@five_failures_rate_limited Stores Device RefCodec RefCodec_laws async_kv
           (world_at 1704067200000 ∅) 0 MemoryAsyncStorage_reliable).
  - reflexivity.
  - unfold representable. cbn. lia.
  - lia.
Defined.

(** ** Checks that do not limit *)

Lemma checkRateLimit_of_cases {S} {ST : Storage S} {CD : Codec}
    (view : S -> gmap string string) (kind : AttemptKind) (w : World S) :
  exists what,
    checkRateLimit_of kind w
    = checkRateLimit (attemptKey kind) (maxAttempts kind) (cooldownMinutes kind) what w.
Proof. destruct kind; eexists; reflexivity. Qed.

(** C4, as the code has it: a check that answers "not limited" leaves the
    persisted state as it was, unless the count had reached the maximum
    with a last attempt whose cooldown is no longer running; then the
    record of that kind, and nothing else, is deleted. *)
Theorem check_not_limited_frame {S} {ST : Storage S} {CD : Codec}
    (view : S -> gmap string string) (kind : AttemptKind) (w : World S)
    (r : RateLimit) :
  Reliable AsyncStorage view ->
  fst (checkRateLimit_of kind w) = Resolved r ->
  isLimited r = false ->
  exists a,
    fst (getAttemptData (attemptKey kind) w) = Resolved a
    /\ view (storage (snd (checkRateLimit_of kind w)))
       = (if cooldown_over kind a (clock w)
          then delete (attemptKey kind) (view (storage w))
          else view (storage w))
    /\ clock (snd (checkRateLimit_of kind w)) = clock w
    /\ timers (snd (checkRateLimit_of kind w)) = timers w.
Proof.
  intros HR Hr Hlim.
  destruct (checkRateLimit_of_cases view kind w) as [what E]. rewrite E in *.
  destruct (getAttemptData_decode view (attemptKey kind) w HR) as (Ha & _).
  pose proof (checkRateLimit_cases view (attemptKey kind) (maxAttempts kind)
                (cooldownMinutes kind) what w HR) as (Hc & Ht & K).
  eexists. split; [exact Ha |]. split; [| auto].
  unfold cooldown_over. set (a := decodeAttempt _) in *.
  destruct (count a >=? maxAttempts kind); [| apply K].
  destruct (lastAttempt a) as [last |]; [| apply K].
  cbv zeta in K. cbn [andb]. destruct (Date_lt _ _); [| apply K].
  destruct K as [K _]. rewrite Hr in K. injection K as ->. discriminate Hlim.
Qed.

Lemma check_not_limited_frame_witness :
  let w := world_throttled 1704068160000 in
  fst (checkRateLimit_of (ST := Device) (CD := RefCodec) login w) = Resolved notLimited
  /\ exists a,
       fst (getAttemptData (ST := Device) (CD := RefCodec) (attemptKey login) w)
       = Resolved a
       /\ async_kv (storage (snd (checkRateLimit_of (ST := Device) (CD := RefCodec) login w)))
          = (if cooldown_over login a (clock w)
             then delete (attemptKey login) (async_kv (storage w))
             else async_kv (storage w))
       /\ clock (snd (checkRateLimit_of (ST := Device) (CD := RefCodec) login w)) = clock w
       /\ timers (snd (checkRateLimit_of (ST := Device) (CD := RefCodec) login w)) = timers w.
Proof.
  split; [vm_compute; reflexivity |].
  apply (@check_not_limited_frame Stores Device RefCodec async_kv login
           (world_throttled 1704068160000) notLimited MemoryAsyncStorage_reliable).
  - vm_compute. reflexivity.
  - reflexivity.
Defined.

(** C4 as stated fails: sixteen minutes after the fifth failure the login
    check answers "not limited" and the stored record is gone. *)
Lemma check_not_limited_changes_state :
  let w := world_throttled 1704068160000 in
  let r := checkLoginRateLimit (ST := Device) (CD := RefCodec) w in
  fst r = Resolved notLimited
  /\ isLimited notLimited = false
  /\ async_kv (storage w) !! RATE_LIMIT_KEYS.LOGIN_ATTEMPTS = Some throttled_login_record
  /\ async_kv (storage (snd r)) !! RATE_LIMIT_KEYS.LOGIN_ATTEMPTS = None
  /\ storage (snd r) <> storage w.
Proof.
  repeat split; try (vm_compute; reflexivity).
  intros H.
  apply (f_equal (fun s => async_kv s !! RATE_LIMIT_KEYS.LOGIN_ATTEMPTS)) in H.
  vm_compute in H. discriminate H.
Qed.

(** ** Lazy reset *)

(** C5: when the stored login count has reached the maximum and the
    cooldown that started at the stored last attempt has run out, the next
    login check answers "not limited" and deletes the stored record, so
    that no counter is stored afterwards. *)
Theorem cooldown_elapsed_resets {S} {ST : Storage S} {CD : Codec}
    (view : S -> gmap string string) (w : World S) (c last : Z) (iso : string) :
  Reliable AsyncStorage view ->
  stored_record (view (storage w)) RATE_LIMIT_KEYS.LOGIN_ATTEMPTS
    (mkAttemptJson (Some c) (Some iso)) ->
  iso <> "" ->
  Date_parse iso = ValidDate last ->
  RATE_LIMIT_CONFIG.MAX_LOGIN_ATTEMPTS <= c ->
  last + RATE_LIMIT_CONFIG.LOGIN_COOLDOWN_MINUTES * 60 * 1000 <= clock w ->
  let r := checkLoginRateLimit w in
  fst r = Resolved {| isLimited := false; waitTime := 0; message := "" |}
  /\ view (storage (snd r))
     = delete RATE_LIMIT_KEYS.LOGIN_ATTEMPTS (view (storage w))
  /\ view (storage (snd r)) !! RATE_LIMIT_KEYS.LOGIN_ATTEMPTS = None.
Proof.
  intros HR Hrec Hiso Hdate Hmax Hnow r. subst r.
  pose proof (checkRateLimit_cases view RATE_LIMIT_KEYS.LOGIN_ATTEMPTS
                RATE_LIMIT_CONFIG.MAX_LOGIN_ATTEMPTS
                RATE_LIMIT_CONFIG.LOGIN_COOLDOWN_MINUTES "login" w HR) as (_ & _ & K).
  fold checkLoginRateLimit in K.
  rewrite (decodeAttempt_stored _ _ _ Hrec) in K.
  cbn [json_count json_lastAttempt from_option id count lastAttempt] in K.
  rewrite (truthy_Some _ Hiso), Hdate in K.
  replace (c >=? RATE_LIMIT_CONFIG.MAX_LOGIN_ATTEMPTS) with true in K
    by (symmetry; apply Z.geb_le; lia).
  cbn [Date_plus Date_lt] in K.
  replace (clock w <? last + RATE_LIMIT_CONFIG.LOGIN_COOLDOWN_MINUTES * 60 * 1000)
    with false in K by (symmetry; apply Z.ltb_ge; lia).
  destruct K as [K1 K2]. split; [exact K1 |].
  split; [exact K2 |]. rewrite K2. apply lookup_delete_eq.
Qed.

Lemma cooldown_elapsed_resets_witness :
  let w := world_throttled 1704068100000 in
  let r := checkLoginRateLimit (ST := Device) (CD := RefCodec) w in
  fst r = Resolved {| isLimited := false; waitTime := 0; message := "" |}
  /\ async_kv (storage (snd r))
     = delete RATE_LIMIT_KEYS.LOGIN_ATTEMPTS (async_kv (storage w))
  /\ async_kv (storage (snd r)) !! RATE_LIMIT_KEYS.LOGIN_ATTEMPTS = None.
Proof.
  apply (@cooldown_elapsed_resets Stores Device RefCodec async_kv
           (world_throttled 1704068100000) 5 1704067200000 "2024-01-01T00:00:00.000Z"
           MemoryAsyncStorage_reliable).
  - exists throttled_login_record.
    split; [reflexivity |]. split; [discriminate | vm_compute; reflexivity].
  - discriminate.
  - vm_compute. reflexivity.
  - vm_compute. discriminate.
  - vm_compute. discriminate.
Defined.

(** ** A record without a timestamp *)

(** C10: a stored record whose count is at or above the maximum but which
    has no [lastAttempt] (null or missing) does not limit: the check
    answers "not limited" and the record stays where it is. *)
Theorem missing_timestamp_fails_open {S} {ST : Storage S} {CD : Codec}
    (view : S -> gmap string string) (kind : AttemptKind) (w : World S)
    (j : AttemptJson) (c : Z) :
  Reliable AsyncStorage view ->
  stored_record (view (storage w)) (attemptKey kind) j ->
  json_count j = Some c ->
  maxAttempts kind <= c ->
  json_lastAttempt j = None ->
  let r := checkRateLimit_of kind w in
  fst r = Resolved notLimited
  /\ view (storage (snd r)) = view (storage w)
  /\ is_Some (view (storage (snd r)) !! attemptKey kind).
Proof.
  intros HR Hrec Hcount Hmax Hlast r. subst r.
  destruct (checkRateLimit_of_cases view kind w) as [what E]. rewrite E.
  pose proof (checkRateLimit_cases view (attemptKey kind) (maxAttempts kind)
                (cooldownMinutes kind) what w HR) as (_ & _ & K).
  rewrite (decodeAttempt_stored _ _ _ Hrec), Hlast in K.
  cbn [lastAttempt truthy] in K.
  assert (K' : fst (checkRateLimit (attemptKey kind) (maxAttempts kind)
                      (cooldownMinutes kind) what w) = Resolved notLimited
               /\ view (storage (snd (checkRateLimit (attemptKey kind) (maxAttempts kind)
                                        (cooldownMinutes kind) what w)))
                  = view (storage w))
    by (destruct (_ >=? _); exact K).
  destruct K' as [K1 K2]. repeat split; [exact K1 | exact K2 |].
  rewrite K2. destruct Hrec as (data & -> & _). eauto.
Qed.

Lemma missing_timestamp_fails_open_witness :
  let w := world_no_timestamp 1704068100000 in
  let r := checkRateLimit_of (ST := Device) (CD := RefCodec) login w in
  fst r = Resolved notLimited
  /\ async_kv (storage (snd r)) = async_kv (storage w)
  /\ is_Some (async_kv (storage (snd r)) !! attemptKey login).
Proof.
  apply (@missing_timestamp_fails_open Stores Device RefCodec async_kv login
           (world_no_timestamp 1704068100000) (mkAttemptJson (Some 7) None) 7
           MemoryAsyncStorage_reliable).
  - eexists. split; [reflexivity |]. split; [discriminate | vm_compute; reflexivity].
  - reflexivity.
  - vm_compute. discriminate.
  - reflexivity.
Defined.

(** ** The attempt recorder *)

Lemma recordAttempt_of_unfold {S} {ST : Storage S} {CD : Codec}
    (kind : AttemptKind) (isSuccess : bool) :
  recordAttempt_of kind isSuccess = recordAttempt (attemptKey kind) isSuccess.
Proof. destruct kind; reflexivity. Qed.



Example recordAttempt_first_failure :
  let w := world_at 1704067200000 ∅ in
  let r := recordAttempt_of (ST := Device) (CD := RefCodec) login false w in
  async_kv (storage (snd r))
  = {[ RATE_LIMIT_KEYS.LOGIN_ATTEMPTS :=
         RefJson.stringify (mkAttemptJson (Some 1) (Some "2024-01-01T00:00:00.000Z")) ]}
  /\ timers (snd r) = [] /\ clock (snd r) = clock w.
Proof. vm_compute. repeat split; reflexivity. Qed.

(** ** The secure key-value store *)

Section StorageFacts.
Context {S : Type} {ST : Storage S}.

Lemma setSecureItem_run (key value : string) (w : World S) :
  setSecureItem key value w
  = try_catch (on_storage (kv_set selected key value))
      (fun error => console_error "Error storing secure item:" error ;; throw error) w.
Proof. unfold setSecureItem, selected. destruct isSecureStoreAvailable; reflexivity. Qed.

Lemma getSecureItem_run (key : string) (w : World S) :
  getSecureItem key w
  = try_catch (on_storage (kv_get selected key))
      (fun error => console_error "Error retrieving secure item:" error ;; ret None) w.
Proof. unfold getSecureItem, selected. destruct isSecureStoreAvailable; reflexivity. Qed.

Lemma removeSecureItem_run (key : string) (w : World S) :
  removeSecureItem key w
  = try_catch (on_storage (kv_remove selected key))
      (fun error => console_error "Error removing secure item:" error ;; throw error) w.
Proof. unfold removeSecureItem, selected. destruct isSecureStoreAvailable; reflexivity. Qed.

(** [getSecureItem] resolves whatever the backend does. *)
Lemma getSecureItem_resolves (key : string) (w : World S) :
  exists v, fst (getSecureItem key w) = Resolved v.
Proof.
  rewrite getSecureItem_run. unfold try_catch. rewrite on_storage_run.
  destruct (kv_get selected key (storage w)) as [[v | e] s']; cbn; eauto.
Qed.

End StorageFacts.

(** C3, as the code has it: [getSecureItem] never rejects, and when the
    backend read fails it logs the error and resolves to null;
    [removeSecureItem], when the backend removal fails, and
    [setSecureItem], when the backend write fails, log the error and then
    reject with that same error. *)
Theorem secure_item_failures {S} {ST : Storage S} (key value : string)
    (w : World S) (e : Error) :
  (forall (k : string) (w' : World S), exists v, fst (getSecureItem k w') = Resolved v)
  /\ (fst (kv_get selected key (storage w)) = Rejected e ->
      fst (getSecureItem key w) = Resolved None
      /\ console (snd (getSecureItem key w))
         = (console w ++ [("Error retrieving secure item:", e)])%list)
  /\ (fst (kv_remove selected key (storage w)) = Rejected e ->
      fst (removeSecureItem key w) = Rejected e
      /\ console (snd (removeSecureItem key w))
         = (console w ++ [("Error removing secure item:", e)])%list)
  /\ (fst (kv_set selected key value (storage w)) = Rejected e ->
      fst (setSecureItem key value w) = Rejected e
      /\ console (snd (setSecureItem key value w))
         = (console w ++ [("Error storing secure item:", e)])%list).
Proof.
  split; [intros k w'; apply getSecureItem_resolves |].
  rewrite getSecureItem_run, removeSecureItem_run, setSecureItem_run.
  unfold try_catch. rewrite !on_storage_run.
  split; [| split].
  - destruct (kv_get selected key (storage w)) as [o s']. cbn [fst].
    intros ->. split; reflexivity.
  - destruct (kv_remove selected key (storage w)) as [o s']. cbn [fst].
    intros ->. split; reflexivity.
  - destruct (kv_set selected key value (storage w)) as [o s']. cbn [fst].
    intros ->. split; reflexivity.
Qed.

Lemma secure_item_failures_witness :
  (fst (getSecureItem (ST := BrokenDevice) STORAGE_KEYS.ACCESS_TOKEN world_broken)
   = Resolved None
   /\ console (snd (getSecureItem (ST := BrokenDevice) STORAGE_KEYS.ACCESS_TOKEN
                      world_broken))
      = [("Error retrieving secure item:", "storage unavailable")])
  /\ (fst (removeSecureItem (ST := BrokenDevice) STORAGE_KEYS.ACCESS_TOKEN world_broken)
      = Rejected "storage unavailable"
      /\ console (snd (removeSecureItem (ST := BrokenDevice) STORAGE_KEYS.ACCESS_TOKEN
                         world_broken))
         = [("Error removing secure item:", "storage unavailable")])
  /\ (fst (setSecureItem (ST := BrokenDevice) STORAGE_KEYS.ACCESS_TOKEN "access-token"
             world_broken)
      = Rejected "storage unavailable"
      /\ console (snd (setSecureItem (ST := BrokenDevice) STORAGE_KEYS.ACCESS_TOKEN
                         "access-token" world_broken))
         = [("Error storing secure item:", "storage unavailable")]).
Proof.
  destruct (@secure_item_failures Stores BrokenDevice STORAGE_KEYS.ACCESS_TOKEN
              "access-token" world_broken "storage unavailable")
    as (_ & Hget & Hremove & Hset).
  split; [apply Hget; reflexivity |].
  split; [apply Hremove; reflexivity | apply Hset; reflexivity].
Defined.

(** C3 as stated fails for [removeSecureItem]: on a failing SecureStore
    the call rejects, it does not resolve as a no-op. *)
Lemma removeSecureItem_propagates :
  fst (removeSecureItem (ST := BrokenDevice) STORAGE_KEYS.ACCESS_TOKEN world_broken)
  = Rejected "storage unavailable"
  /\ ~ (exists u, fst (removeSecureItem (ST := BrokenDevice)
                         STORAGE_KEYS.ACCESS_TOKEN world_broken) = Resolved u).
Proof.
  split; [reflexivity |]. intros [u Hu]. vm_compute in Hu. discriminate Hu.
Qed.

(** ** The credential store *)

(** [Promise.all] resolves exactly when every call, run in the order of
    the array, resolves; it is then what the calls do in that order. *)
Lemma Promise_all_resolved {S A} {ST : Storage S} (ps : list (Async S A))
    (w : World S) (l : list A) :
  fst (Promise_all ps w) = Resolved l <-> fst (Promise_all_in_order ps w) = Resolved l.
Proof.
  unfold Promise_all. destruct (Promise_all_in_order ps w) as [[l' | e] w']; cbn.
  - reflexivity.
  - destruct (Promise_all_rejection A ps w). cbn. split; discriminate.
Qed.

Lemma Promise_all_in_order_run {S A} {ST : Storage S} (ps : list (Async S A))
    (w : World S) (l : list A) :
  fst (Promise_all_in_order ps w) = Resolved l ->
  Promise_all ps w = Promise_all_in_order ps w.
Proof.
  unfold Promise_all. destruct (Promise_all_in_order ps w) as [[l' | e] w']; cbn.
  - reflexivity.
  - discriminate.
Qed.

Lemma Promise_all_rejects {S A} {ST : Storage S} (ps : list (Async S A))
    (w : World S) (e : Error) :
  fst (Promise_all_in_order ps w) = Rejected e ->
  exists e', fst (Promise_all ps w) = Rejected e'.
Proof.
  unfold Promise_all. destruct (Promise_all_in_order ps w) as [[l' | e0] w']; cbn.
  - discriminate.
  - intros _. destruct (Promise_all_rejection A ps w). cbn. eauto.
Qed.

Lemma Promise_all_in_order_cons {S A} (p : Async S A) (rest : list (Async S A))
    (w : World S) (l : list A) :
  fst (Promise_all_in_order (p :: rest) w) = Resolved l ->
  exists a l',
    l = a :: l'
    /\ fst (p w) = Resolved a
    /\ fst (Promise_all_in_order rest (snd (p w))) = Resolved l'
    /\ snd (Promise_all_in_order (p :: rest) w)
       = snd (Promise_all_in_order rest (snd (p w))).
Proof.
  cbn [Promise_all_in_order]. destruct (p w) as [[a | e] w1]; cbn [fst snd].
  - destruct (Promise_all_in_order rest w1) as [[l' | e] w2]; cbn; [| discriminate].
    intros [= <-]. exists a, l'. auto.
  - destruct (Promise_all_in_order rest w1); discriminate.
Qed.

Lemma Promise_all_cons {S A} {ST : Storage S} (p : Async S A) (rest : list (Async S A))
    (w : World S) (l : list A) :
  fst (Promise_all (p :: rest) w) = Resolved l ->
  exists a l',
    l = a :: l'
    /\ fst (p w) = Resolved a
    /\ fst (Promise_all rest (snd (p w))) = Resolved l'
    /\ snd (Promise_all (p :: rest) w) = snd (Promise_all rest (snd (p w))).
Proof.
  intros H. pose proof (proj1 (Promise_all_resolved _ _ _) H) as H'.
  destruct (Promise_all_in_order_cons p rest w l H') as (a & l' & -> & Hp & Hr & Hs).
  exists a, l'. split; [reflexivity |]. split; [exact Hp |].
  split; [apply Promise_all_resolved; exact Hr |].
  rewrite (Promise_all_in_order_run _ _ _ H'), (Promise_all_in_order_run _ _ _ Hr).
  exact Hs.
Qed.

Section CredentialFacts.
Context {S : Type} {ST : Storage S} {CD : Codec}.
Variable view : S -> gmap string string.

Lemma setSecureItem_reliable (key value : string) (w : World S) :
  Reliable selected view ->
  fst (setSecureItem key value w) = Resolved tt
  /\ view (storage (snd (setSecureItem key value w))) = <[key := value]> (view (storage w))
  /\ clock (snd (setSecureItem key value w)) = clock w.
Proof.
  intros HR. rewrite setSecureItem_run. unfold try_catch. rewrite on_storage_run.
  pose proof (set_ok _ _ HR key value (storage w)) as Hok.
  pose proof (set_value _ _ (reliable_consistent _ _ HR) key value (storage w) Hok) as Hv.
  destruct (kv_set selected key value (storage w)) as [o s']. cbn in Hok, Hv. subst o.
  cbn. auto.
Qed.

(** On a consistent backend a read resolves to null or to the stored
    value, and changes nothing that is stored. *)
Lemma getSecureItem_consistent (key : string) (w : World S) :
  Consistent selected view ->
  (fst (getSecureItem key w) = Resolved None
   \/ fst (getSecureItem key w) = Resolved (view (storage w) !! key))
  /\ view (storage (snd (getSecureItem key w))) = view (storage w).
Proof.
  intros HC. rewrite getSecureItem_run. unfold try_catch. rewrite on_storage_run.
  pose proof (get_frame _ _ HC key (storage w)) as Hf.
  pose proof (get_value _ _ HC key (storage w)) as Hv.
  destruct (kv_get selected key (storage w)) as [[v | e] s']; cbn in *.
  - rewrite (Hv v eq_refl). auto.
  - auto.
Qed.

Lemma getSecureItem_reliable (key : string) (w : World S) :
  Reliable selected view ->
  fst (getSecureItem key w) = Resolved (view (storage w) !! key)
  /\ view (storage (snd (getSecureItem key w))) = view (storage w).
Proof.
  intros HR. split; [| apply getSecureItem_consistent, HR].
  rewrite getSecureItem_run. unfold try_catch. rewrite on_storage_run.
  pose proof (reliable_get selected view key (storage w) HR) as Hget.
  destruct (kv_get selected key (storage w)) as [o s']. cbn in Hget. subst o.
  reflexivity.
Qed.

(** A removal that resolves has removed the key. *)
Lemma removeSecureItem_resolved (key : string) (w : World S) (u : unit) :
  Consistent selected view ->
  fst (removeSecureItem key w) = Resolved u ->
  view (storage (snd (removeSecureItem key w))) = delete key (view (storage w)).
Proof.
  intros HC. rewrite removeSecureItem_run. unfold try_catch. rewrite on_storage_run.
  pose proof (remove_value _ _ HC key (storage w)) as Hv.
  destruct (kv_remove selected key (storage w)) as [[[] | e] s']; cbn in *.
  - intros _. auto.
  - discriminate.
Qed.

(** Reading both tokens when neither is stored. *)
Lemma getTokens_absent (w : World S) :
  Consistent selected view ->
  view (storage w) !! STORAGE_KEYS.ACCESS_TOKEN = None ->
  view (storage w) !! STORAGE_KEYS.REFRESH_TOKEN = None ->
  fst (getTokens w) = Resolved {| accessToken := None; refreshToken := None |}
  /\ view (storage (snd (getTokens w))) = view (storage w).
Proof.
  intros HC Ha Hr. unfold getTokens, try_catch, bind. unfold Promise_all. cbn [Promise_all_in_order].
  destruct (getSecureItem_consistent STORAGE_KEYS.ACCESS_TOKEN w HC) as (H1 & F1).
  rewrite Ha in H1.
  destruct (getSecureItem STORAGE_KEYS.ACCESS_TOKEN w) as [o1 w1]. cbn in H1, F1.
  assert (o1 = Resolved None) as -> by (destruct H1; assumption).
  destruct (getSecureItem_consistent STORAGE_KEYS.REFRESH_TOKEN w1 HC) as (H2 & F2).
  rewrite F1, Hr in H2.
  destruct (getSecureItem STORAGE_KEYS.REFRESH_TOKEN w1) as [o2 w2]. cbn in H2, F2.
  assert (o2 = Resolved None) as -> by (destruct H2; assumption).
  cbn. split; [reflexivity | congruence].
Qed.

End CredentialFacts.

(** What [storeTokens] leaves in a reliable store. *)
Lemma storeTokens_reliable {S} {ST : Storage S} {CD : Codec}
    (view : S -> gmap string string) (a r : string) (w : World S) :
  Reliable selected view ->
  fst (storeTokens a r w) = Resolved tt
  /\ view (storage (snd (storeTokens a r w)))
     = <[STORAGE_KEYS.LAST_LOGIN := toISOString (clock w)]>
         (<[STORAGE_KEYS.REFRESH_TOKEN := r]>
            (<[STORAGE_KEYS.ACCESS_TOKEN := a]> (view (storage w)))).
Proof.
  intros HR. unfold storeTokens, try_catch, bind. unfold Promise_all. cbn [Promise_all_in_order].
  pose proof (setSecureItem_reliable view STORAGE_KEYS.ACCESS_TOKEN a w HR) as (O1 & V1 & C1).
  destruct (setSecureItem STORAGE_KEYS.ACCESS_TOKEN a w) as [o1 w1].
  cbn in O1, V1, C1. subst o1.
  pose proof (setSecureItem_reliable view STORAGE_KEYS.REFRESH_TOKEN r w1 HR) as (O2 & V2 & C2).
  destruct (setSecureItem STORAGE_KEYS.REFRESH_TOKEN r w1) as [o2 w2].
  cbn in O2, V2, C2. subst o2.
  unfold Date_now.
  pose proof (setSecureItem_reliable view STORAGE_KEYS.LAST_LOGIN
                (toISOString (clock w2)) w2 HR) as (O3 & V3 & _).
  destruct (setSecureItem STORAGE_KEYS.LAST_LOGIN (toISOString (clock w2)) w2) as [o3 w3].
  cbn in O3, V3. subst o3. cbn.
  split; [reflexivity |]. rewrite V3, V2, V1. congruence.
Qed.

(** C7: on a backend that does not fail, [getTokens] after
    [storeTokens(a, r)] returns exactly the pair [a], [r]. *)
Theorem tokens_roundtrip {S} {ST : Storage S} {CD : Codec}
    (view : S -> gmap string string) (a r : string) (w : World S) :
  Reliable selected view ->
  fst ((storeTokens a r ;; getTokens) w)
  = Resolved {| accessToken := Some a; refreshToken := Some r |}.
Proof.
  intros HR.
  destruct (storeTokens_reliable view a r w HR) as (Hs & Hv).
  rewrite (bind_run _ _ _ _ Hs). set (w1 := snd (storeTokens a r w)) in *.
  unfold getTokens, try_catch, bind. unfold Promise_all. cbn [Promise_all_in_order].
  pose proof (getSecureItem_reliable view STORAGE_KEYS.ACCESS_TOKEN w1 HR) as (G1 & F1).
  destruct (getSecureItem STORAGE_KEYS.ACCESS_TOKEN w1) as [o1 w2].
  cbn in G1, F1. subst o1.
  pose proof (getSecureItem_reliable view STORAGE_KEYS.REFRESH_TOKEN w2 HR) as (G2 & F2).
  destruct (getSecureItem STORAGE_KEYS.REFRESH_TOKEN w2) as [o2 w3].
  cbn in G2, F2. subst o2. cbn.
  rewrite F1, Hv. do 2 f_equal.
  - rewrite lookup_insert_ne by discriminate.
    rewrite lookup_insert_ne by discriminate.
    apply lookup_insert_eq.
  - rewrite lookup_insert_ne by discriminate.
    apply lookup_insert_eq.
Qed.

Lemma tokens_roundtrip_witness :
  fst ((storeTokens (ST := Device) (CD := RefCodec) "access-token" "refresh-token" ;;
        getTokens (ST := Device))
         (world_at 1704067200000 ∅))
  = Resolved {| accessToken := Some "access-token";
                refreshToken := Some "refresh-token" |}.
Proof.
  exact (@tokens_roundtrip Stores Device RefCodec secure_kv "access-token"
           "refresh-token" (world_at 1704067200000 ∅) MemorySecureStore_reliable).
Defined.

(** C8: after a [clearAuthData] that resolved, on a backend consistent
    with its contents, [getTokens] returns null for both tokens and
    [getUserData] returns null. *)
Theorem clear_then_absent {S} {ST : Storage S} {CD : Codec}
    (view : S -> gmap string string) (w : World S) :
  Consistent selected view ->
  fst (clearAuthData w) = Resolved tt ->
  let w1 := snd (clearAuthData w) in
  fst (getTokens w1) = Resolved {| accessToken := None; refreshToken := None |}
  /\ fst (getUserData (snd (getTokens w1))) = Resolved None
  /\ fst (getUserData w1) = Resolved None.
Proof.
  intros HC Hclear w1.
  assert (Hgone : view (storage w1) !! STORAGE_KEYS.ACCESS_TOKEN = None
                  /\ view (storage w1) !! STORAGE_KEYS.REFRESH_TOKEN = None
                  /\ view (storage w1) !! STORAGE_KEYS.USER_DATA = None).
  { subst w1. revert Hclear. unfold clearAuthData, try_catch, bind.
    destruct (Promise_all _ w) as [[l | e] w'] eqn:E; cbn; [intros _ | discriminate].
    assert (E1 : fst (Promise_all
                        [removeSecureItem STORAGE_KEYS.ACCESS_TOKEN;
                         removeSecureItem STORAGE_KEYS.REFRESH_TOKEN;
                         removeSecureItem STORAGE_KEYS.USER_DATA;
                         removeSecureItem STORAGE_KEYS.LAST_LOGIN] w) = Resolved l)
      by (rewrite E; reflexivity).
    assert (E2 : w' = snd (Promise_all
                        [removeSecureItem STORAGE_KEYS.ACCESS_TOKEN;
                         removeSecureItem STORAGE_KEYS.REFRESH_TOKEN;
                         removeSecureItem STORAGE_KEYS.USER_DATA;
                         removeSecureItem STORAGE_KEYS.LAST_LOGIN] w))
      by (rewrite E; reflexivity).
    apply Promise_all_cons in E1 as (u1 & l1 & -> & R1 & E1 & S1).
    apply Promise_all_cons in E1 as (u2 & l2 & -> & R2 & E1 & S2).
    apply Promise_all_cons in E1 as (u3 & l3 & -> & R3 & E1 & S3).
    apply Promise_all_cons in E1 as (u4 & l4 & -> & R4 & E1 & S4).
    rewrite E2, S1, S2, S3, S4. unfold Promise_all. cbn [Promise_all_in_order ret snd].
    rewrite (removeSecureItem_resolved view _ _ _ HC R4).
    rewrite (removeSecureItem_resolved view _ _ _ HC R3).
    rewrite (removeSecureItem_resolved view _ _ _ HC R2).
    rewrite (removeSecureItem_resolved view _ _ _ HC R1).
    repeat split.
    - rewrite !lookup_delete_ne by discriminate. apply lookup_delete_eq.
    - rewrite !lookup_delete_ne by discriminate. apply lookup_delete_eq.
    - rewrite !lookup_delete_ne by discriminate. apply lookup_delete_eq. }
  destruct Hgone as (Ha & Hr & Hu).
  destruct (getTokens_absent view w1 HC Ha Hr) as (Ht & Hf).
  assert (Huser : forall w2, view (storage w2) = view (storage w1) ->
                             fst (getUserData w2) = Resolved None).
  { intros w2 Hw2. unfold getUserData, try_catch, bind.
    destruct (getSecureItem_consistent view STORAGE_KEYS.USER_DATA w2 HC) as (G & _).
    rewrite Hw2, Hu in G.
    destruct (getSecureItem STORAGE_KEYS.USER_DATA w2) as [o w3]. cbn in G.
    assert (o = Resolved None) as -> by (destruct G; assumption).
    reflexivity. }
  split; [exact Ht |]. split; [apply Huser; exact Hf | apply Huser; reflexivity].
Qed.

Lemma clear_then_absent_witness :
  let w1 := snd (clearAuthData (ST := Device) world_signed_in) in
  fst (clearAuthData (ST := Device) world_signed_in) = Resolved tt
  /\ fst (getTokens (ST := Device) w1)
     = Resolved {| accessToken := None; refreshToken := None |}
  /\ fst (getUserData (ST := Device) (CD := RefCodec) (snd (getTokens (ST := Device) w1)))
     = Resolved None
  /\ fst (getUserData (ST := Device) (CD := RefCodec) w1) = Resolved None.
Proof.
  split; [reflexivity |].
  apply (@clear_then_absent Stores Device RefCodec secure_kv world_signed_in).
  - apply MemorySecureStore_reliable.
  - reflexivity.
Defined.

(** ** Sample runs on the reference platform *)

Example backoff_delays :
  map calculateBackoffDelay_default [1; 2; 3; 4; 5; 6]
  = map Number_of_Z [1000; 2000; 4000; 8000; 10000; 10000].
Proof. vm_compute. reflexivity. Qed.

Example backoff_before_first_attempt :
  calculateBackoffDelay 0 (Number_of_Z 1000) (Number_of_Z 10000) = Number_of_Z 500.
Proof. vm_compute. reflexivity. Qed.

(** On some doubles, the comparison above is the one of the standard
    library. *)
Example Number_compare_samples :
  let samples :=
    [S754_nan; S754_infinity true; S754_infinity false; S754_zero true;
     S754_zero false; Number_of_Z 1; Number_of_Z (-1); Number_of_Z 1000;
     Number_of_Z 10000; Math_pow2 (-1074); Math_pow2 1023; Math_pow2 (-3);
     Number_mul (Number_of_Z (-3)) (Math_pow2 (-1070))] in
  forallb (fun x =>
     forallb (fun y =>
        match Number_compare x y, SFcompare x y with
        | Some a, Some b => match a, b with
                            | Eq, Eq | Lt, Lt | Gt, Gt => true
                            | _, _ => false
                            end
        | None, None => true
        | _, _ => false
        end) samples) samples = true.
Proof. vm_compute. reflexivity. Qed.

Example login_check_one_minute_in :
  fst (checkLoginRateLimit (ST := Device) (CD := RefCodec)
         (world_throttled (1704067200000 + 60000)))
  = Resolved {|
      isLimited := true;
      waitTime := 14;
      message := "Too many login attempts. Please wait 14 minutes before trying again." |}.
Proof. vm_compute. reflexivity. Qed.

Example login_check_at_cooldown_end :
  fst (checkLoginRateLimit (ST := Device) (CD := RefCodec)
         (world_throttled (1704067200000 + 900000)))
  = Resolved notLimited.
Proof. vm_compute. reflexivity. Qed.

Example three_failed_registrations :
  fst ((recordRegisterAttempt (ST := Device) (CD := RefCodec) false ;;
        recordRegisterAttempt (ST := Device) (CD := RefCodec) false ;;
        recordRegisterAttempt (ST := Device) (CD := RefCodec) false ;;
        checkRegisterRateLimit (ST := Device) (CD := RefCodec))
         (world_at 1704067200000 ∅))
  = Resolved {|
      isLimited := true;
      waitTime := 5;
      message := "Too many registration attempts. Please wait 5 minutes before trying again." |}.
Proof. vm_compute. reflexivity. Qed.

Example malformed_record_reads_as_empty :
  fst (getAttemptData (ST := Device) (CD := RefCodec) RATE_LIMIT_KEYS.LOGIN_ATTEMPTS
         (world_at 0 {[ RATE_LIMIT_KEYS.LOGIN_ATTEMPTS := "not json" ]}))
  = Resolved {| count := 0; lastAttempt := None |}.
Proof. vm_compute. reflexivity. Qed.

Example signed_in_tokens :
  fst (getTokens (ST := Device) world_signed_in)
  = Resolved {| accessToken := Some "access-token";
                refreshToken := Some "refresh-token" |}.
Proof. vm_compute. reflexivity. Qed.

Example broken_store_reads_as_signed_out :
  fst (getTokens (ST := BrokenDevice) world_broken)
  = Resolved {| accessToken := None; refreshToken := None |}.
Proof. vm_compute. reflexivity. Qed.

Example broken_store_rejects_storeTokens :
  fst (storeTokens (ST := BrokenDevice) (CD := RefCodec) "access-token" "refresh-token"
         world_broken)
  = Rejected "storage unavailable".
Proof. vm_compute. reflexivity. Qed.

(** * Further properties of the two utility modules *)

Example sample_profile_roundtrip :
  JSON_parse_user (Codec := RefCodec) (ref_stringify_user sample_profile)
  = Resolved (Some sample_profile).
Proof. vm_compute. reflexivity. Qed.

(** ** Bounds of the backoff delay *)

(** On finite numbers [<=] compares the values. *)
Lemma Number_le_real (a b : Number) :
  Number_isFinite a = true -> Number_isFinite b = true ->
  Number_le a b = true <-> (Number_real a <= Number_real b)%Q.
Proof.
  intros Ha Hb. unfold Number_le.
  destruct a, b; cbn in Ha, Hb; try discriminate; cbn [Number_compare];
    rewrite Qle_alt; destruct (_ ?= _)%Q; split; congruence.
Qed.

(** [Math.min(x, y)] is NaN or at most [y]. *)
Lemma Math_min_le_r (x y : Number) :
  Math_min x y = S754_nan \/ Number_le (Math_min x y) y = true.
Proof.
  destruct (Number_compare x y) as [c |] eqn:C.
  - right.
    assert (Ny : y <> S754_nan) by (intros ->; destruct x; discriminate C).
    assert (Nx : x <> S754_nan) by (intros ->; discriminate C).
    assert (D : Math_min x y = y \/ (Math_min x y = x /\ Number_lt y x = false)).
    { destruct x as [[] | | |], y as [[] | | |]; try congruence; auto;
        cbn [Math_min]; destruct (Number_lt _ _); auto. }
    destruct D as [-> | [-> L]].
    + unfold Number_le. rewrite Number_compare_refl by exact Ny. reflexivity.
    + unfold Number_le, Number_lt in *. rewrite Number_compare_antisym, C in L.
      rewrite C. destruct c; cbn in L; congruence.
  - left. destruct x as [[] | | |], y as [[] | | |]; try reflexivity;
      cbn in C; try discriminate C; destruct s; discriminate C.
Qed.

(** From the count 1025 on [Math.pow] overflows: with a finite positive
    base the result is the maximum. *)
Lemma calculateBackoffDelay_saturated (n : Z) (base max : Number) :
  1025 <= n ->
  Number_isFinite base = true -> (0 < Number_real base)%Q ->
  Number_isFinite max = true ->
  calculateBackoffDelay n base max = max.
Proof.
  intros Hn Fb Hb Fm. unfold calculateBackoffDelay. cbv zeta.
  rewrite Math_pow2_closed by lia.
  replace (n - 1 <=? 1023) with false by (symmetry; apply Z.leb_gt; lia).
  destruct base as [s | | | s mx ex]; cbn in Fb; try discriminate.
  destruct s.
  - exfalso. apply (Qlt_irrefl 0). apply Qlt_trans with (1 := Hb).
    apply Number_real_negative.
  - cbn [Number_mul SFmul xorb].
    apply Number_isFinite_value in Fm. apply (Math_min_Infinity _ _ Fm).
Qed.

(** X1: whatever the count, the base and the maximum, the result is NaN
    or does not exceed the maximum.  For a finite base that is not
    negative and a finite maximum, the result never decreases when the
    count grows from 1 on, and is not negative when the maximum is not;
    this holds up to the count 1024, and beyond it when the base is not
    zero. *)
Theorem calculateBackoffDelay_bounds (n m : Z) (base max : Number) :
  (calculateBackoffDelay n base max = S754_nan
   \/ Number_le (calculateBackoffDelay n base max) max = true)
  /\ (is_double base -> is_double max ->
      Number_isFinite base = true -> Number_isFinite max = true ->
      (0 <= Number_real base)%Q ->
      1 <= n <= m ->
      m <= 1024 \/ (0 < Number_real base)%Q ->
      Number_le (calculateBackoffDelay n base max) (calculateBackoffDelay m base max)
      = true
      /\ ((0 <= Number_real max)%Q ->
          Number_le (Number_of_Z 0) (calculateBackoffDelay n base max) = true)).
Proof.
  split; [apply Math_min_le_r |].
  intros Vb Vm Fb Fm Hb Hnm Hcase.
  assert (Small : forall i, 1 <= i <= 1024 ->
            Number_isFinite (calculateBackoffDelay i base max) = true
            /\ (Number_real (calculateBackoffDelay i base max)
                == Qmin (Number_real base * inject_Z (2 ^ (i - 1))) (Number_real max))%Q)
    by (intros i Hi; apply calculateBackoffDelay_finite; assumption).
  assert (Mono : forall i j, 1 <= i <= j ->
            (Qmin (Number_real base * inject_Z (2 ^ (i - 1))) (Number_real max)
             <= Qmin (Number_real base * inject_Z (2 ^ (j - 1))) (Number_real max))%Q).
  { intros i j Hij. apply Q.min_le_compat_r.
    rewrite !(Qmult_comm (Number_real base)).
    apply Qmult_le_compat_r; [| exact Hb].
    rewrite <- Zle_Qle. apply Z.pow_le_mono_r; lia. }
  assert (Big : forall i, 1025 <= i -> (0 < Number_real base)%Q ->
            calculateBackoffDelay i base max = max)
    by (intros i Hi Hp; apply calculateBackoffDelay_saturated; assumption).
  assert (Hn : n <= 1024 \/ (1025 <= n /\ (0 < Number_real base)%Q))
    by (destruct Hcase; [left; lia | destruct (Z.le_gt_cases n 1024); [left | right]; auto; split; [lia | assumption]]).
  split.
  - destruct (Z.le_gt_cases m 1024) as [Hm | Hm].
    + destruct (Small n ltac:(lia)) as (Fn & En), (Small m ltac:(lia)) as (Fm' & Em).
      apply Number_le_real; [assumption .. |]. rewrite En, Em. apply Mono. lia.
    + destruct Hcase as [Hc | Hp]; [lia |].
      rewrite (Big m ltac:(lia) Hp).
      destruct (Z.le_gt_cases n 1024) as [Hn' | Hn'].
      * destruct (Small n ltac:(lia)) as (Fn & En).
        apply Number_le_real; [assumption .. |]. rewrite En. apply Q.le_min_r.
      * rewrite (Big n ltac:(lia) Hp).
        apply Number_le_real; [assumption .. |]. apply Qle_refl.
  - intros Hmax. destruct Hn as [Hn | [Hn Hp]].
    + destruct (Small n ltac:(lia)) as (Fn & En).
      apply Number_le_real; [reflexivity | assumption |]. rewrite En.
      apply Q.min_glb; [| exact Hmax].
      apply Qmult_le_0_compat; [exact Hb |].
      change 0%Q with (inject_Z 0). rewrite <- Zle_Qle. apply Z.pow_nonneg. lia.
    + rewrite (Big n Hn Hp). apply Number_le_real; [reflexivity | assumption |].
      exact Hmax.
Qed.

Lemma calculateBackoffDelay_bounds_witness :
  (calculateBackoffDelay 2 (Number_of_Z 1000) (Number_of_Z 10000) = S754_nan
   \/ Number_le (calculateBackoffDelay 2 (Number_of_Z 1000) (Number_of_Z 10000))
        (Number_of_Z 10000) = true)
  /\ Number_le (calculateBackoffDelay 2 (Number_of_Z 1000) (Number_of_Z 10000))
       (calculateBackoffDelay 7 (Number_of_Z 1000) (Number_of_Z 10000)) = true.
Proof.
  destruct (calculateBackoffDelay_bounds 2 7 (Number_of_Z 1000) (Number_of_Z 10000))
    as [H1 H2].
  split; [exact H1 |].
  apply H2; try reflexivity; try (vm_compute; discriminate); lia.
Defined.

(** The default schedule, for every count from the first on. *)
Lemma calculateBackoffDelay_default_cases (n : Z) :
  1 <= n ->
  Number_isFinite (calculateBackoffDelay_default n) = true
  /\ (Number_real (calculateBackoffDelay_default n)
      == Qmin (1000 * inject_Z (2 ^ (n - 1))) 10000)%Q
  /\ (5 <= n -> calculateBackoffDelay_default n = Number_of_Z 10000).
Proof.
  intros Hn. unfold calculateBackoffDelay_default.
  set (base := Number_of_Z RATE_LIMIT_CONFIG.BASE_DELAY_MS).
  set (max := Number_of_Z RATE_LIMIT_CONFIG.MAX_DELAY_MS).
  assert (Rb : (Number_real base == 1000)%Q) by reflexivity.
  assert (Rm : (Number_real max == 10000)%Q) by reflexivity.
  assert (Pb : (0 < Number_real base)%Q) by reflexivity.
  assert (Grow : 5 <= n -> (10000 < 1000 * inject_Z (2 ^ (n - 1)))%Q).
  { intros H5. apply Qlt_le_trans with (1000 * inject_Z (2 ^ 4))%Q; [reflexivity |].
    rewrite !(Qmult_comm 1000). apply Qmult_le_compat_r; [| discriminate].
    rewrite <- Zle_Qle. apply Z.pow_le_mono_r; lia. }
  destruct (Z.le_gt_cases n 1024) as [Hs | Hb].
  - destruct (calculateBackoffDelay_finite n base max) as (Fn & En);
      try reflexivity; try lia; [discriminate |].
    unfold computeDelay_spec in En. rewrite Rb, Rm in En.
    split; [exact Fn |]. split; [exact En |].
    intros H5. unfold calculateBackoffDelay in *. cbv zeta in *.
    set (x := Number_mul base (Math_pow2 (n - 1))) in *.
    assert (Fx : Number_isFinite x = true \/ x = S754_infinity false).
    { subst x. pose proof (Number_mul_pow2 false 8796093022208000 (-43) (n - 1)
                             eq_refl ltac:(lia)) as P.
      cbv zeta in P. change (S754_finite false 8796093022208000 (-43)) with base in P.
      rewrite P. destruct (_ <=? 971); [left | right]; reflexivity. }
    destruct Fx as [Fx | ->]; [| reflexivity].
    apply Math_min_gt. apply Number_lt_real.
    + apply Number_isFinite_value in Fx. congruence.
    + discriminate.
    + apply Qle_lt_trans with 10000%Q; [discriminate |].
      (* the product is exact *)
      pose proof (Number_mul_pow2 false 8796093022208000 (-43) (n - 1)
                    eq_refl ltac:(lia)) as P.
      cbv zeta in P. change (S754_finite false 8796093022208000 (-43)) with base in P.
      fold x in P.
      destruct (Z.leb_spec (Z.max (Z.pos (digits2_pos 8796093022208000) + -43 + (n - 1) - 53)
                              (-1074)) 971) as [Hle | Hgt].
      * change (Z.pos (digits2_pos 8796093022208000)) with 53 in *.
        set (e1 := Z.max (53 + -43 + (n - 1) - 53) (-1074)) in *.
        pose proof (Number_real_scaled false 8796093022208000 (-43) (n - 1) e1
                      ltac:(lia) ltac:(lia)) as Sc.
        rewrite <- P in Sc.
        change (Number_real (S754_finite false 8796093022208000 (-43)))
          with (Number_real base) in Sc.
        rewrite Sc, Rb. apply Grow. exact H5.
      * rewrite P in Fx. discriminate Fx.
  - rewrite (calculateBackoffDelay_saturated n base max) by (try reflexivity; lia).
    split; [reflexivity |]. split; [| reflexivity].
    rewrite Rm. symmetry. apply Q.min_r. apply Qlt_le_weak. apply Grow. lia.
Qed.

(** X2: with the configured base and maximum, every attempt from the
    first on waits between one and ten seconds (none before the second,
    see [recordAttempt]), and from the fifth attempt on the delay is the
    maximum, ten seconds. *)
Theorem default_backoff_schedule (n : Z) :
  1 <= n ->
  Number_isFinite (calculateBackoffDelay_default n) = true
  /\ (1000 <= Number_real (calculateBackoffDelay_default n))%Q
  /\ (Number_real (calculateBackoffDelay_default n) <= 10000)%Q
  /\ (5 <= n -> calculateBackoffDelay_default n = Number_of_Z 10000).
Proof.
  intros Hn. destruct (calculateBackoffDelay_default_cases n Hn) as (F & E & T).
  split; [exact F |]. rewrite E. repeat split.
  - apply Q.min_glb; [| discriminate].
    rewrite <- (Qmult_1_r 1000) at 1.
    rewrite !(Qmult_comm 1000). apply Qmult_le_compat_r; [| discriminate].
    change 1%Q with (inject_Z (2 ^ 0)). rewrite <- Zle_Qle.
    apply Z.pow_le_mono_r; lia.
  - apply Q.le_min_r.
  - exact T.
Qed.

Lemma default_backoff_schedule_witness :
  Number_isFinite (calculateBackoffDelay_default 9) = true
  /\ (1000 <= Number_real (calculateBackoffDelay_default 9))%Q
  /\ (Number_real (calculateBackoffDelay_default 9) <= 10000)%Q
  /\ (5 <= 9 -> calculateBackoffDelay_default 9 = Number_of_Z 10000).
Proof.
  apply (default_backoff_schedule 9). lia.
Defined.

(** ** When a check limits *)

Lemma waitMinutes_spec_bounds (x c : Z) :
  0 < x -> 0 <= c ->
  1 <= waitMinutes_spec x 0 /\ (x <= c * 60000 -> waitMinutes_spec x 0 <= c).
Proof.
  intros Hx Hc. unfold waitMinutes_spec, Qceiling, Qfloor. rewrite Z.sub_0_r. cbn.
  rewrite Z.mul_1_r. split; [| intros Hle]; Z.div_mod_to_equations; lia.
Qed.

(** A limiting answer on any backend: what was read, and what follows. *)
Lemma checkRateLimit_limited {S} {ST : Storage S} {CD : Codec}
    (key : string) (maxA cooldown : Z) (what : string) (w : World S) (r : RateLimit) :
  fst (checkRateLimit key maxA cooldown what w) = Resolved r ->
  isLimited r = true ->
  exists a last,
    fst (getAttemptData key w) = Resolved a
    /\ lastAttempt a = Some (ValidDate last)
    /\ maxA <= count a
    /\ clock w < last + cooldown * 60 * 1000
    /\ waitTime r = waitMinutes_spec (last + cooldown * 60 * 1000 - clock w) 0
    /\ storage (snd (checkRateLimit key maxA cooldown what w))
       = snd (kv_get AsyncStorage key (storage w)).
Proof.
  intros Hr Hlim.
  destruct (getAttemptData_frame key w) as ([a Ha] & Hc & _ & Hs).
  revert Hr. unfold checkRateLimit, bind.
  destruct (getAttemptData key w) as [o w1]. cbn in Ha, Hc, Hs. subst o.
  destruct (count a >=? maxA) eqn:Hcount; [| cbn; intros [= <-]; discriminate].
  destruct (lastAttempt a) as [[last |] |] eqn:Hlast; cbn [Date_plus Date_lt];
    try (unfold Date_now; cbn;
         try destruct (on_storage _ _) as [[] ?]; cbn; intros [= <-]; discriminate).
  unfold Date_now. rewrite Hc.
  destruct (clock w <? last + cooldown * 60 * 1000) eqn:Hlt.
  - cbn. intros [= <-]. exists a, last. cbn [waitTime Date_minus].
    repeat split; auto.
    + apply Z.geb_le in Hcount. lia.
    + apply Z.ltb_lt. exact Hlt.
    + apply wait_minutes_formula.
  - destruct (on_storage _ _) as [[] ?]; cbn; intros [= <-]; discriminate.
Qed.

(** X3: a check limits only at or above the maximum and inside the
    cooldown that started at the stored last attempt; the wait it reports
    is at least one minute, and at most the cooldown when the clock is not
    behind the stored timestamp.  This holds on every backend. *)
Theorem limited_only_within_cooldown {S} {ST : Storage S} {CD : Codec}
    (kind : AttemptKind) (w : World S) (r : RateLimit) :
  fst (checkRateLimit_of kind w) = Resolved r ->
  isLimited r = true ->
  exists a last,
    fst (getAttemptData (attemptKey kind) w) = Resolved a
    /\ lastAttempt a = Some (ValidDate last)
    /\ maxAttempts kind <= count a
    /\ clock w < last + cooldownMinutes kind * 60000
    /\ 1 <= waitTime r
    /\ (last <= clock w -> waitTime r <= cooldownMinutes kind).
Proof.
  intros Hr Hlim.
  destruct (checkRateLimit_of_cases (fun _ : S => ∅) kind w) as [what E].
  rewrite E in Hr.
  destruct (checkRateLimit_limited _ _ _ _ _ _ Hr Hlim)
    as (a & last & Ha & Hlast & Hcount & Hin & Hwait & _).
  exists a, last. repeat split; auto; try lia.
  - rewrite Hwait.
    apply (waitMinutes_spec_bounds _ (cooldownMinutes kind)); [lia | destruct kind; discriminate].
  - intros Hle. rewrite Hwait.
    apply (waitMinutes_spec_bounds _ (cooldownMinutes kind)); [lia | destruct kind; discriminate | lia].
Qed.

Lemma limited_only_within_cooldown_witness :
  let w := world_throttled (1704067200000 + 60000) in
  let r := {| isLimited := true; waitTime := 14;
              message := "Too many login attempts. Please wait 14 minutes before trying again." |} in
  fst (checkRateLimit_of (ST := Device) (CD := RefCodec) login w) = Resolved r
  /\ exists a last,
       fst (getAttemptData (ST := Device) (CD := RefCodec) (attemptKey login) w) = Resolved a
       /\ lastAttempt a = Some (ValidDate last)
       /\ maxAttempts login <= count a
       /\ clock w < last + cooldownMinutes login * 60000
       /\ 1 <= waitTime r
       /\ (last <= clock w -> waitTime r <= cooldownMinutes login).
Proof.
  split; [vm_compute; reflexivity |].
  apply (@limited_only_within_cooldown Stores Device RefCodec login
           (world_throttled (1704067200000 + 60000))).
  - vm_compute. reflexivity.
  - reflexivity.
Defined.

(** ** What a check or a recorded attempt leaves alone *)

(** X4: on a reliable store, checking or recording an attempt of one kind
    changes nothing stored under any other key; in particular login and
    registration attempts do not disturb each other. *)
Theorem attempt_kinds_independent {S} {ST : Storage S} {CD : Codec}
    (view : S -> gmap string string) (kind : AttemptKind) (isSuccess : bool)
    (w : World S) (k : string) :
  Reliable AsyncStorage view ->
  k <> attemptKey kind ->
  view (storage (snd (recordAttempt_of kind isSuccess w))) !! k = view (storage w) !! k
  /\ view (storage (snd (checkRateLimit_of kind w))) !! k = view (storage w) !! k.
Proof.
  intros HR Hk. split.
  - rewrite recordAttempt_of_unfold. destruct isSuccess.
    + destruct (recordAttempt_success view (attemptKey kind) w HR) as (_ & -> & _).
      apply lookup_delete_ne. congruence.
    + destruct (recordAttempt_failure view (attemptKey kind) w HR) as (_ & -> & _).
      apply lookup_insert_ne. congruence.
  - destruct (checkRateLimit_of_cases view kind w) as [what ->].
    pose proof (checkRateLimit_cases view (attemptKey kind) (maxAttempts kind)
                  (cooldownMinutes kind) what w HR) as (_ & _ & K).
    destruct (_ >=? _); [| destruct K as [_ ->]; reflexivity].
    destruct (lastAttempt _); [| destruct K as [_ ->]; reflexivity].
    cbv zeta in K. destruct (Date_lt _ _); destruct K as [_ ->]; [reflexivity |].
    apply lookup_delete_ne. congruence.
Qed.

Lemma attempt_kinds_independent_witness :
  let w := world_throttled 1704068160000 in
  async_kv (storage (snd (recordAttempt_of (ST := Device) (CD := RefCodec) register false w)))
    !! RATE_LIMIT_KEYS.LOGIN_ATTEMPTS
  = async_kv (storage w) !! RATE_LIMIT_KEYS.LOGIN_ATTEMPTS
  /\ async_kv (storage (snd (checkRateLimit_of (ST := Device) (CD := RefCodec) register w)))
       !! RATE_LIMIT_KEYS.LOGIN_ATTEMPTS
     = async_kv (storage w) !! RATE_LIMIT_KEYS.LOGIN_ATTEMPTS.
Proof.
  apply (@attempt_kinds_independent Stores Device RefCodec async_kv register false
           (world_throttled 1704068160000) RATE_LIMIT_KEYS.LOGIN_ATTEMPTS
           MemoryAsyncStorage_reliable).
  discriminate.
Defined.

(** ** A success in between *)

(** X5: on a reliable store, whatever was recorded before, a check right
    after a recorded success does not limit, and the next failure counts
    as the first again: it is stored with count 1 and awaits no timer. *)
Theorem success_resets_backoff {S} {ST : Storage S} {CD : Codec}
    (view : S -> gmap string string) (kind : AttemptKind) (w : World S) :
  Reliable AsyncStorage view ->
  fst ((recordAttempt_of kind true ;; checkRateLimit_of kind) w) = Resolved notLimited
  /\ (let r := (recordAttempt_of kind true ;; recordAttempt_of kind false) w in
      fst r = Resolved tt
      /\ view (storage (snd r)) !! attemptKey kind
         = Some (JSON_stringify (mkAttemptJson (Some 1) (Some (toISOString (clock w)))))
      /\ timers (snd r) = timers w
      /\ clock (snd r) = clock w).
Proof.
  intros HR. rewrite !recordAttempt_of_unfold.
  destruct (recordAttempt_success view (attemptKey kind) w HR) as (R1 & V1 & T1 & C1).
  rewrite !(bind_run _ _ _ _ R1).
  set (w1 := snd (recordAttempt (attemptKey kind) true w)) in *.
  assert (Hgone : view (storage w1) !! attemptKey kind = None)
    by (rewrite V1; apply lookup_delete_eq).
  split.
  - destruct (checkRateLimit_of_cases view kind w1) as [what ->].
    pose proof (checkRateLimit_cases view (attemptKey kind) (maxAttempts kind)
                  (cooldownMinutes kind) what w1 HR) as (_ & _ & K).
    rewrite Hgone in K. cbn [decodeAttempt truthy count lastAttempt] in K.
    destruct (0 >=? maxAttempts kind); apply K.
  - destruct (recordAttempt_failure view (attemptKey kind) w1 HR) as (R2 & V2 & T2 & C2).
    rewrite Hgone in V2, T2, C2. cbn [decodeAttempt truthy count] in V2, T2, C2.
    change (0 + 1 >? 1) with false in T2, C2. change (0 + 1) with 1 in V2.
    cbv zeta. rewrite V2, T2, C2, T1, C1, app_nil_r, Z.add_0_r.
    repeat split; auto. apply lookup_insert_eq.
Qed.

Lemma success_resets_backoff_witness :
  let w := world_throttled 1704067201000 in
  fst ((recordAttempt_of (ST := Device) (CD := RefCodec) login true ;;
        checkRateLimit_of (ST := Device) (CD := RefCodec) login) w)
  = Resolved notLimited
  /\ (let r := (recordAttempt_of (ST := Device) (CD := RefCodec) login true ;;
                recordAttempt_of (ST := Device) (CD := RefCodec) login false) w in
      fst r = Resolved tt
      /\ async_kv (storage (snd r)) !! attemptKey login
         = Some (JSON_stringify (Codec := RefCodec)
                   (mkAttemptJson (Some 1)
                      (Some (toISOString (Codec := RefCodec) (clock w)))))
      /\ timers (snd r) = timers w
      /\ clock (snd r) = clock w).
Proof.
  exact (@success_resets_backoff Stores Device RefCodec async_kv login
           (world_throttled 1704067201000) MemoryAsyncStorage_reliable).
Defined.

(** ** Any number of failures *)

Ltac config_constants :=
  unfold maxAttempts, cooldownMinutes,
    RATE_LIMIT_CONFIG.MAX_LOGIN_ATTEMPTS, RATE_LIMIT_CONFIG.MAX_REGISTER_ATTEMPTS,
    RATE_LIMIT_CONFIG.LOGIN_COOLDOWN_MINUTES,
    RATE_LIMIT_CONFIG.REGISTER_COOLDOWN_MINUTES in *.

Lemma default_backoff_wait (n : Z) :
  0 <= timer_ms (calculateBackoffDelay_default n) <= 10000.
Proof.
  unfold calculateBackoffDelay_default, calculateBackoffDelay. cbv zeta.
  exact (timer_ms_Math_min _ (Number_of_Z RATE_LIMIT_CONFIG.MAX_DELAY_MS) _ eq_refl).
Qed.

Section ManyFailures.
Context {S : Type} {ST : Storage S} {CD : Codec} {CL : CodecLaws}.
Variable view : S -> gmap string string.
Hypothesis HR : Reliable AsyncStorage view.

(** After [n + 1] failures on top of a stored count [c]: the record holds
    [c + n + 1] and the time [t] of the last attempt, which the clock has
    passed by that attempt's backoff wait only. *)
Lemma failures_run (key : string) (n : nat) : forall (w : World S) (c : Z),
  count (decodeAttempt (view (storage w) !! key)) = c ->
  let r := repeat_async (Datatypes.S n) (recordAttempt key false) w in
  fst r = Resolved tt
  /\ exists t,
       view (storage (snd r)) !! key
       = Some (JSON_stringify
                 (mkAttemptJson (Some (c + Z.of_nat n + 1)) (Some (toISOString t))))
       /\ clock w <= t <= clock w + 10000 * Z.of_nat n
       /\ t <= clock (snd r) <= t + 10000.
Proof.
  induction n as [| n IH]; intros w c Hc.
  - cbn [repeat_async].
    destruct (recordAttempt_failure_next view key w c HR Hc) as (R & V & C & _).
    rewrite (bind_run _ _ _ _ R). unfold ret. cbn [fst snd].
    split; [reflexivity |]. exists (clock w).
    rewrite V, C, Z.add_0_r. split; [apply lookup_insert_eq |].
    pose proof (default_backoff_wait (c + 1)). destruct (c + 1 >? 1); lia.
  - change (repeat_async (Datatypes.S (Datatypes.S n)) (recordAttempt key false))
      with (recordAttempt key false ;; repeat_async (Datatypes.S n) (recordAttempt key false)).
    destruct (recordAttempt_failure_next view key w c HR Hc) as (R & _ & C & N).
    rewrite (bind_run _ _ _ _ R).
    destruct (IH (snd (recordAttempt key false w)) (c + 1) N) as (R' & t & V' & Ht & Hclock).
    split; [exact R' |]. exists t.
    replace (c + Z.of_nat (Datatypes.S n) + 1) with (c + 1 + Z.of_nat n + 1) by lia.
    split; [exact V' |]. split; [| exact Hclock].
    pose proof (default_backoff_wait (c + 1)). destruct (c + 1 >? 1); lia.
Qed.

End ManyFailures.

(** X6: starting with no record, [n] failed attempts in a row with [n] at
    or above the maximum leave the count [n] stored, and a check made at
    once limits, with the full cooldown as wait time.  The clock has to
    stay among the dates the codec laws speak about. *)
Theorem enough_failures_limit {S} {ST : Storage S} {CD : Codec} {CL : CodecLaws}
    (view : S -> gmap string string) (kind : AttemptKind) (n : nat) (w : World S) :
  Reliable AsyncStorage view ->
  view (storage w) !! attemptKey kind = None ->
  maxAttempts kind <= Z.of_nat n ->
  0 <= clock w ->
  clock w + 10000 * Z.of_nat n < 253402300800000 ->
  (exists a,
      fst ((repeat_async n (recordAttempt_of kind false) ;;
            getAttemptData (attemptKey kind)) w) = Resolved a
      /\ count a = Z.of_nat n)
  /\ (exists r,
        fst ((repeat_async n (recordAttempt_of kind false) ;;
              checkRateLimit_of kind) w) = Resolved r
        /\ isLimited r = true
        /\ waitTime r = cooldownMinutes kind).
Proof.
  intros HR Habsent Hmax Hclock Hbound.
  destruct n as [| n]; [destruct kind; config_constants; lia |].
  replace (recordAttempt_of kind false) with (recordAttempt (attemptKey kind) false)
    by (destruct kind; reflexivity).
  assert (H0 : count (decodeAttempt (view (storage w) !! attemptKey kind)) = 0)
    by (rewrite Habsent; reflexivity).
  destruct (failures_run view HR (attemptKey kind) n w 0 H0) as (R & t & V & Ht & Hc).
  rewrite !(bind_run _ _ _ _ R).
  set (w1 := snd (repeat_async (Datatypes.S n) (recordAttempt (attemptKey kind) false) w)) in *.
  assert (Hrep : representable t) by (unfold representable; lia).
  assert (Hdec : decodeAttempt (view (storage w1) !! attemptKey kind)
                 = {| count := Z.of_nat (Datatypes.S n); lastAttempt := Some (ValidDate t) |}).
  { rewrite V.
    pose proof (decodeAttempt_written (∅ : gmap string string) (attemptKey kind)
                  (0 + Z.of_nat n + 1) t Hrep) as D.
    rewrite lookup_insert_eq in D. rewrite D. f_equal. lia. }
  split.
  - destruct (getAttemptData_decode view (attemptKey kind) w1 HR) as (Ha & _).
    rewrite Hdec in Ha. eexists. split; [exact Ha | reflexivity].
  - destruct (checkRateLimit_of_cases view kind w1) as [what ->].
    pose proof (checkRateLimit_cases view (attemptKey kind) (maxAttempts kind)
                  (cooldownMinutes kind) what w1 HR) as (_ & _ & K).
    rewrite Hdec in K. cbn [count lastAttempt Date_plus Date_lt Date_minus] in K.
    replace (Z.of_nat (Datatypes.S n) >=? maxAttempts kind) with true in K
      by (symmetry; apply Z.geb_le; lia).
    assert (Hcool : 60000 <= cooldownMinutes kind * 60 * 1000)
      by (destruct kind; config_constants; lia).
    replace (clock w1 <? t + cooldownMinutes kind * 60 * 1000) with true in K
      by (symmetry; apply Z.ltb_lt; lia).
    destruct K as [K _]. cbv zeta in K. eexists. split; [exact K |].
    split; [reflexivity |]. cbn [waitTime].
    rewrite wait_minutes_formula.
    unfold waitMinutes_spec, Qceiling, Qfloor. rewrite Z.sub_0_r. cbn.
    rewrite Z.mul_1_r. destruct kind; config_constants; Z.div_mod_to_equations; lia.
Qed.

Lemma enough_failures_limit_witness :
  (exists a,
      fst ((repeat_async 4 (recordAttempt_of (ST := Device) (CD := RefCodec) register false) ;;
            getAttemptData (ST := Device) (CD := RefCodec) (attemptKey register))
             (world_at 1704067200000 ∅)) = Resolved a
      /\ count a = Z.of_nat 4)
  /\ (exists r,
        fst ((repeat_async 4 (recordAttempt_of (ST := Device) (CD := RefCodec) register false) ;;
              checkRateLimit_of (ST := Device) (CD := RefCodec) register)
               (world_at 1704067200000 ∅)) = Resolved r
        /\ isLimited r = true
        /\ waitTime r = cooldownMinutes register).
Proof.
  apply (@enough_failures_limit Stores Device RefCodec RefCodec_laws async_kv register 4
           (world_at 1704067200000 ∅) MemoryAsyncStorage_reliable).
  - reflexivity.
  - vm_compute. discriminate.
  - vm_compute. discriminate.
  - vm_compute. reflexivity.
Defined.

(** ** Clearing the rate-limit data *)

(** X7: on a reliable store [clearRateLimitData] removes both attempt
    records and nothing else, and neither kind is limited afterwards. *)
Theorem clearRateLimitData_clears {S} {ST : Storage S} {CD : Codec}
    (view : S -> gmap string string) (w : World S) :
  Reliable AsyncStorage view ->
  let w1 := snd (clearRateLimitData w) in
  fst (clearRateLimitData w) = Resolved tt
  /\ view (storage w1)
     = delete RATE_LIMIT_KEYS.REGISTER_ATTEMPTS
         (delete RATE_LIMIT_KEYS.LOGIN_ATTEMPTS (view (storage w)))
  /\ forall kind, fst (checkRateLimit_of kind w1) = Resolved notLimited.
Proof.
  intros HR w1.
  assert (E : fst (clearRateLimitData w) = Resolved tt
              /\ view (storage w1)
                 = delete RATE_LIMIT_KEYS.REGISTER_ATTEMPTS
                     (delete RATE_LIMIT_KEYS.LOGIN_ATTEMPTS (view (storage w)))).
  { subst w1. unfold clearRateLimitData, try_catch, bind. unfold Promise_all. cbn [Promise_all_in_order].
    rewrite on_storage_run.
    pose proof (remove_ok _ _ HR RATE_LIMIT_KEYS.LOGIN_ATTEMPTS (storage w)) as O1.
    pose proof (remove_value _ _ (reliable_consistent _ _ HR) _ _ O1) as V1.
    destruct (kv_remove AsyncStorage RATE_LIMIT_KEYS.LOGIN_ATTEMPTS (storage w)) as [o1 s1].
    cbn in O1, V1. subst o1. cbn [fst snd]. rewrite on_storage_run. cbn [storage].
    pose proof (remove_ok _ _ HR RATE_LIMIT_KEYS.REGISTER_ATTEMPTS s1) as O2.
    pose proof (remove_value _ _ (reliable_consistent _ _ HR) _ _ O2) as V2.
    destruct (kv_remove AsyncStorage RATE_LIMIT_KEYS.REGISTER_ATTEMPTS s1) as [o2 s2].
    cbn in O2, V2. subst o2. cbn. rewrite V2, V1. auto. }
  destruct E as [E1 E2]. split; [exact E1 |]. split; [exact E2 |].
  intros kind. destruct (checkRateLimit_of_cases view kind w1) as [what ->].
  pose proof (checkRateLimit_cases view (attemptKey kind) (maxAttempts kind)
                (cooldownMinutes kind) what w1 HR) as (_ & _ & K).
  assert (Hgone : view (storage w1) !! attemptKey kind = None).
  { rewrite E2. destruct kind; cbn [attemptKey].
    - rewrite lookup_delete_ne by discriminate. apply lookup_delete_eq.
    - apply lookup_delete_eq. }
  rewrite Hgone in K. cbn [decodeAttempt truthy count lastAttempt] in K.
  destruct (0 >=? maxAttempts kind); apply K.
Qed.

Lemma clearRateLimitData_clears_witness :
  let w1 := snd (clearRateLimitData (ST := Device) (world_throttled 1704067201000)) in
  fst (clearRateLimitData (ST := Device) (world_throttled 1704067201000)) = Resolved tt
  /\ async_kv (storage w1)
     = delete RATE_LIMIT_KEYS.REGISTER_ATTEMPTS
         (delete RATE_LIMIT_KEYS.LOGIN_ATTEMPTS
            (async_kv (storage (world_throttled 1704067201000))))
  /\ forall kind,
       fst (checkRateLimit_of (ST := Device) (CD := RefCodec) kind w1) = Resolved notLimited.
Proof.
  exact (@clearRateLimitData_clears Stores Device RefCodec async_kv
           (world_throttled 1704067201000) MemoryAsyncStorage_reliable).
Defined.

(** ** Stored records that cannot be read *)

(** X8: a stored record at or above the maximum whose [lastAttempt] is a
    string that is not a date does not limit at any time, and the check
    deletes it. *)
Theorem unparseable_timestamp_resets {S} {ST : Storage S} {CD : Codec}
    (view : S -> gmap string string) (kind : AttemptKind) (w : World S)
    (c : Z) (iso : string) :
  Reliable AsyncStorage view ->
  stored_record (view (storage w)) (attemptKey kind) (mkAttemptJson (Some c) (Some iso)) ->
  iso <> "" ->
  Date_parse iso = InvalidDate ->
  maxAttempts kind <= c ->
  fst (checkRateLimit_of kind w) = Resolved notLimited
  /\ view (storage (snd (checkRateLimit_of kind w)))
     = delete (attemptKey kind) (view (storage w)).
Proof.
  intros HR Hrec Hiso Hdate Hmax.
  destruct (checkRateLimit_of_cases view kind w) as [what ->].
  pose proof (checkRateLimit_cases view (attemptKey kind) (maxAttempts kind)
                (cooldownMinutes kind) what w HR) as (_ & _ & K).
  rewrite (decodeAttempt_stored _ _ _ Hrec) in K.
  cbn [json_count json_lastAttempt from_option id count lastAttempt] in K.
  rewrite (truthy_Some _ Hiso), Hdate in K.
  replace (c >=? maxAttempts kind) with true in K by (symmetry; apply Z.geb_le; lia).
  exact K.
Qed.

Lemma unparseable_timestamp_resets_witness :
  let w := world_bad_timestamp 1704067201000 in
  fst (checkRateLimit_of (ST := Device) (CD := RefCodec) login w) = Resolved notLimited
  /\ async_kv (storage (snd (checkRateLimit_of (ST := Device) (CD := RefCodec) login w)))
     = delete (attemptKey login) (async_kv (storage w)).
Proof.
  apply (@unparseable_timestamp_resets Stores Device RefCodec async_kv login
           (world_bad_timestamp 1704067201000) 9 "yesterday" MemoryAsyncStorage_reliable).
  - eexists. split; [reflexivity |]. split; [discriminate | vm_compute; reflexivity].
  - discriminate.
  - reflexivity.
  - vm_compute. discriminate.
Defined.

(** X9: a stored text that [JSON.parse] rejects counts as no record: the
    check logs the error, does not limit and leaves the text in place,
    and the next failure overwrites it with count 1. *)
Theorem malformed_record_fails_open {S} {ST : Storage S} {CD : Codec}
    (view : S -> gmap string string) (kind : AttemptKind) (w : World S)
    (data : string) (e : Error) :
  Reliable AsyncStorage view ->
  view (storage w) !! attemptKey kind = Some data ->
  data <> "" ->
  JSON_parse data = Rejected e ->
  fst (checkRateLimit_of kind w) = Resolved notLimited
  /\ view (storage (snd (checkRateLimit_of kind w))) = view (storage w)
  /\ console (snd (checkRateLimit_of kind w))
     = (console w ++ [("Error getting attempt data:", e)])%list
  /\ view (storage (snd (recordAttempt_of kind false w))) !! attemptKey kind
     = Some (JSON_stringify (mkAttemptJson (Some 1) (Some (toISOString (clock w))))).
Proof.
  intros HR Hdata Hne Hparse.
  assert (Hdec : decodeAttempt (view (storage w) !! attemptKey kind)
                 = {| count := 0; lastAttempt := None |}).
  { rewrite Hdata. unfold decodeAttempt. rewrite (truthy_Some _ Hne). cbn [from_option id].
    rewrite Hparse. reflexivity. }
  destruct (checkRateLimit_of_cases view kind w) as [what E]. rewrite E.
  pose proof (checkRateLimit_cases view (attemptKey kind) (maxAttempts kind)
                (cooldownMinutes kind) what w HR) as (_ & _ & K).
  rewrite Hdec in K. cbn [count lastAttempt] in K.
  assert (K' : fst (checkRateLimit (attemptKey kind) (maxAttempts kind)
                      (cooldownMinutes kind) what w) = Resolved notLimited
               /\ view (storage (snd (checkRateLimit (attemptKey kind) (maxAttempts kind)
                                        (cooldownMinutes kind) what w)))
                  = view (storage w))
    by (destruct (0 >=? maxAttempts kind); exact K).
  destruct K' as [K1 K2]. split; [exact K1 |]. split; [exact K2 |]. split.
  - pose proof (reliable_get AsyncStorage view (attemptKey kind) (storage w) HR) as Hget.
    rewrite Hdata in Hget.
    unfold checkRateLimit, getAttemptData, bind, try_catch. rewrite on_storage_run.
    destruct (kv_get AsyncStorage (attemptKey kind) (storage w)) as [o s']. cbn in Hget.
    subst o. cbn [fst snd]. rewrite (truthy_Some _ Hne). unfold of_outcome.
    cbn [from_option id]. rewrite Hparse. cbn.
    destruct (0 >=? maxAttempts kind); reflexivity.
  - rewrite recordAttempt_of_unfold.
    destruct (recordAttempt_failure view (attemptKey kind) w HR) as (_ & V & _).
    rewrite V, Hdec. apply lookup_insert_eq.
Qed.

Lemma malformed_record_fails_open_witness :
  let w := world_malformed 1704067201000 in
  fst (checkRateLimit_of (ST := Device) (CD := RefCodec) login w) = Resolved notLimited
  /\ async_kv (storage (snd (checkRateLimit_of (ST := Device) (CD := RefCodec) login w)))
     = async_kv (storage w)
  /\ console (snd (checkRateLimit_of (ST := Device) (CD := RefCodec) login w))
     = (console w ++ [("Error getting attempt data:", "SyntaxError: JSON Parse error")])%list
  /\ async_kv (storage (snd (recordAttempt_of (ST := Device) (CD := RefCodec) login false w)))
       !! attemptKey login
     = Some (JSON_stringify (Codec := RefCodec)
               (mkAttemptJson (Some 1) (Some (toISOString (Codec := RefCodec) (clock w))))).
Proof.
  apply (@malformed_record_fails_open Stores Device RefCodec async_kv login
           (world_malformed 1704067201000) "count=9" "SyntaxError: JSON Parse error"
           MemoryAsyncStorage_reliable).
  - reflexivity.
  - discriminate.
  - vm_compute. reflexivity.
Defined.

(** ** Calls that cannot fail *)

Lemma recordAttempt_failure_resolves {S} {ST : Storage S} {CD : Codec}
    (key : string) (w : World S) :
  fst (recordAttempt key false w) = Resolved tt.
Proof.
  destruct (getAttemptData_frame key w) as ([a Ha] & _).
  unfold recordAttempt. rewrite (bind_run _ _ _ _ Ha).
  unfold bind, Date_now, storeAttemptData, try_catch. rewrite on_storage_run.
  destruct (kv_set AsyncStorage key _ _) as [[[] | e] s']; cbn;
    destruct (count a + 1 >? 1); reflexivity.
Qed.

Lemma getTokens_resolves {S} {ST : Storage S} (w : World S) :
  exists t, fst (getTokens w) = Resolved t.
Proof.
  unfold getTokens, try_catch, bind. unfold Promise_all. cbn [Promise_all_in_order].
  destruct (getSecureItem_resolves STORAGE_KEYS.ACCESS_TOKEN w) as [v1 H1].
  destruct (getSecureItem STORAGE_KEYS.ACCESS_TOKEN w) as [o1 w1]. cbn in H1. subst o1.
  destruct (getSecureItem_resolves STORAGE_KEYS.REFRESH_TOKEN w1) as [v2 H2].
  destruct (getSecureItem STORAGE_KEYS.REFRESH_TOKEN w1) as [o2 w2]. cbn in H2. subst o2.
  cbn. eauto.
Qed.

(** X10: whatever the storage backends do, these calls resolve: reading
    the attempt data, recording a failed attempt, clearing the rate-limit
    data, and reading tokens, profile and last login. *)
Theorem calls_that_never_reject {S} {ST : Storage S} {CD : Codec}
    (kind : AttemptKind) (w : World S) :
  (exists a, fst (getAttemptData (attemptKey kind) w) = Resolved a)
  /\ fst (recordAttempt_of kind false w) = Resolved tt
  /\ fst (clearRateLimitData w) = Resolved tt
  /\ (exists t, fst (getTokens w) = Resolved t)
  /\ (exists u, fst (getUserData w) = Resolved u)
  /\ (exists d, fst (getLastLogin w) = Resolved d).
Proof.
  split; [apply getAttemptData_frame |].
  split; [rewrite recordAttempt_of_unfold; apply recordAttempt_failure_resolves |].
  split.
  { unfold clearRateLimitData, try_catch, bind.
    destruct (Promise_all _ w) as [[l | e] w']; reflexivity. }
  split; [apply getTokens_resolves |]. split.
  - unfold getUserData, try_catch, bind.
    destruct (getSecureItem_resolves STORAGE_KEYS.USER_DATA w) as [v Hv].
    destruct (getSecureItem STORAGE_KEYS.USER_DATA w) as [o w1]. cbn in Hv. subst o.
    destruct (truthy v); [| cbn; eauto].
    unfold of_outcome. destruct (JSON_parse_user _); cbn; eauto.
  - unfold getLastLogin, try_catch, bind.
    destruct (getSecureItem_resolves STORAGE_KEYS.LAST_LOGIN w) as [v Hv].
    destruct (getSecureItem STORAGE_KEYS.LAST_LOGIN w) as [o w1]. cbn in Hv. subst o.
    cbn. eauto.
Qed.

(** ** Reading from a store that fails *)

(** X11: when every read of the selected backend rejects, the credential
    store reads as empty: no tokens, no profile, no last login. *)
Theorem failing_reads_read_as_empty {S} {ST : Storage S} {CD : Codec} (w : World S) :
  (forall k s, exists e, fst (kv_get selected k s) = Rejected e) ->
  fst (getTokens w) = Resolved {| accessToken := None; refreshToken := None |}
  /\ fst (getUserData w) = Resolved None
  /\ fst (getLastLogin w) = Resolved None.
Proof.
  intros Hfail.
  assert (Hget : forall k w', fst (getSecureItem k w') = Resolved None).
  { intros k w'. rewrite getSecureItem_run. unfold try_catch. rewrite on_storage_run.
    destruct (Hfail k (storage w')) as [e He].
    destruct (kv_get selected k (storage w')) as [o s']. cbn in He. subst o. reflexivity. }
  repeat split.
  - unfold getTokens, try_catch, bind. unfold Promise_all. cbn [Promise_all_in_order].
    pose proof (Hget STORAGE_KEYS.ACCESS_TOKEN w) as H1.
    destruct (getSecureItem STORAGE_KEYS.ACCESS_TOKEN w) as [o1 w1]. cbn in H1. subst o1.
    pose proof (Hget STORAGE_KEYS.REFRESH_TOKEN w1) as H2.
    destruct (getSecureItem STORAGE_KEYS.REFRESH_TOKEN w1) as [o2 w2]. cbn in H2. subst o2.
    reflexivity.
  - unfold getUserData, try_catch, bind.
    pose proof (Hget STORAGE_KEYS.USER_DATA w) as H1.
    destruct (getSecureItem STORAGE_KEYS.USER_DATA w) as [o1 w1]. cbn in H1. subst o1.
    reflexivity.
  - unfold getLastLogin, try_catch, bind.
    pose proof (Hget STORAGE_KEYS.LAST_LOGIN w) as H1.
    destruct (getSecureItem STORAGE_KEYS.LAST_LOGIN w) as [o1 w1]. cbn in H1. subst o1.
    reflexivity.
Qed.

Lemma failing_reads_read_as_empty_witness :
  fst (getTokens (ST := BrokenDevice) world_broken)
  = Resolved {| accessToken := None; refreshToken := None |}
  /\ fst (getUserData (ST := BrokenDevice) (CD := RefCodec) world_broken) = Resolved None
  /\ fst (getLastLogin (ST := BrokenDevice) (CD := RefCodec) world_broken) = Resolved None.
Proof.
  apply (@failing_reads_read_as_empty Stores BrokenDevice RefCodec world_broken).
  intros k s. exists "storage unavailable". reflexivity.
Defined.

(** ** The profile and the last login *)

(** X12: on a backend that does not fail, a profile whose JSON text is
    not empty and parses back to the profile survives [storeUserData]
    followed by [getUserData]; the text is stored under the profile key
    and under no other. *)
Theorem user_data_roundtrip {S} {ST : Storage S} {CD : Codec} {UJ : UserJson}
    (view : S -> gmap string string) (u : UserData) (text : string) (w : World S) :
  Reliable selected view ->
  JSON_stringify_user u = Resolved text ->
  text <> "" ->
  JSON_parse_user text = Resolved (Some u) ->
  fst ((storeUserData u ;; getUserData) w) = Resolved (Some u)
  /\ view (storage (snd (storeUserData u w)))
     = <[STORAGE_KEYS.USER_DATA := text]> (view (storage w)).
Proof.
  intros HR Hs Hne Hp.
  destruct (setSecureItem_reliable view STORAGE_KEYS.USER_DATA text w HR) as (O & V & _).
  assert (E : storeUserData u w = setSecureItem STORAGE_KEYS.USER_DATA text w).
  { unfold storeUserData, try_catch, bind, of_outcome. rewrite Hs.
    destruct (setSecureItem STORAGE_KEYS.USER_DATA text w) as [o w1]. cbn in O. subst o.
    reflexivity. }
  split; [| rewrite E; exact V].
  rewrite (bind_run _ _ _ tt) by (rewrite E; exact O). rewrite E.
  set (w1 := snd (setSecureItem STORAGE_KEYS.USER_DATA text w)) in *.
  unfold getUserData, try_catch, bind.
  destruct (getSecureItem_reliable view STORAGE_KEYS.USER_DATA w1 HR) as (G & _).
  rewrite V, lookup_insert_eq in G.
  destruct (getSecureItem STORAGE_KEYS.USER_DATA w1) as [o w2]. cbn in G. subst o.
  rewrite (truthy_Some _ Hne). unfold of_outcome. cbn [from_option id]. rewrite Hp.
  reflexivity.
Qed.

Lemma user_data_roundtrip_witness :
  fst ((storeUserData (ST := Device) (CD := RefCodec) (UJ := RefUserJson) sample_profile ;;
        getUserData (ST := Device) (CD := RefCodec)) world_broken)
  = Resolved (Some sample_profile)
  /\ secure_kv (storage (snd (storeUserData (ST := Device) (CD := RefCodec)
                                (UJ := RefUserJson) sample_profile world_broken)))
     = <[STORAGE_KEYS.USER_DATA := ref_stringify_user sample_profile]>
         (secure_kv (storage world_broken)).
Proof.
  apply (@user_data_roundtrip Stores Device RefCodec RefUserJson secure_kv sample_profile
           (ref_stringify_user sample_profile) world_broken MemorySecureStore_reliable).
  - reflexivity.
  - discriminate.
  - vm_compute. reflexivity.
Defined.

(** X13: on a backend that does not fail, [getLastLogin] after
    [storeTokens] returns the date at which the tokens were stored. *)
Theorem last_login_roundtrip {S} {ST : Storage S} {CD : Codec} {CL : CodecLaws}
    (view : S -> gmap string string) (a r : string) (w : World S) :
  Reliable selected view ->
  representable (clock w) ->
  fst ((storeTokens a r ;; getLastLogin) w) = Resolved (Some (ValidDate (clock w))).
Proof.
  intros HR Hrep.
  destruct (storeTokens_reliable view a r w HR) as (Hs & Hv).
  rewrite (bind_run _ _ _ _ Hs). set (w1 := snd (storeTokens a r w)) in *.
  unfold getLastLogin, try_catch, bind.
  destruct (getSecureItem_reliable view STORAGE_KEYS.LAST_LOGIN w1 HR) as (G & _).
  rewrite Hv, lookup_insert_eq in G.
  destruct (getSecureItem STORAGE_KEYS.LAST_LOGIN w1) as [o w2]. cbn in G. subst o.
  cbn [fst snd ret]. rewrite (truthy_Some _ (toISOString_nonempty (clock w))).
  cbn [from_option id]. rewrite (parse_toISOString _ Hrep). reflexivity.
Qed.

Lemma last_login_roundtrip_witness :
  fst ((storeTokens (ST := Device) (CD := RefCodec) "access-token" "refresh-token" ;;
        getLastLogin (ST := Device) (CD := RefCodec)) world_broken)
  = Resolved (Some (ValidDate (clock world_broken))).
Proof.
  apply (@last_login_roundtrip Stores Device RefCodec RefCodec_laws secure_kv
           "access-token" "refresh-token" world_broken MemorySecureStore_reliable).
  unfold representable. vm_compute. split; [discriminate | reflexivity].
Defined.

(** ** Grouped writes and removals *)

Lemma setSecureItem_any {S} {ST : Storage S} (key value : string) (w : World S) :
  fst (setSecureItem key value w) = fst (kv_set selected key value (storage w))
  /\ storage (snd (setSecureItem key value w)) = snd (kv_set selected key value (storage w))
  /\ clock (snd (setSecureItem key value w)) = clock w.
Proof.
  rewrite setSecureItem_run. unfold try_catch. rewrite on_storage_run.
  destruct (kv_set selected key value (storage w)) as [[[] | e] s']; cbn; auto.
Qed.

Lemma setSecureItem_quiet {S} {ST : Storage S} (key value : string) (w : World S)
    (u : unit) :
  fst (setSecureItem key value w) = Resolved u ->
  console (snd (setSecureItem key value w)) = console w.
Proof.
  rewrite setSecureItem_run. unfold try_catch. rewrite on_storage_run.
  destruct (kv_set selected key value (storage w)) as [[[] | e] s']; cbn;
    [reflexivity | discriminate].
Qed.

Lemma removeSecureItem_any {S} {ST : Storage S} (key : string) (w : World S) :
  fst (removeSecureItem key w) = fst (kv_remove selected key (storage w))
  /\ storage (snd (removeSecureItem key w)) = snd (kv_remove selected key (storage w)).
Proof.
  rewrite removeSecureItem_run. unfold try_catch. rewrite on_storage_run.
  destruct (kv_remove selected key (storage w)) as [[[] | e] s']; cbn; auto.
Qed.

(** A group of calls wrapped as [storeTokens] and [clearAuthData] wrap
    theirs: it resolves exactly when every call of the group resolves, and
    then leaves the world the calls leave; a rejection is logged under the
    label before it is passed on. *)
Lemma Promise_all_logged {S A} {ST : Storage S} (ps : list (Async S A))
    (label : string) (w : World S) :
  let call := try_catch (Promise_all ps ;; ret tt)
                (fun error => console_error label error ;; throw error) in
  (fst (call w) = Resolved tt <-> exists l, fst (Promise_all_in_order ps w) = Resolved l)
  /\ (fst (call w) = Resolved tt ->
      snd (call w) = snd (Promise_all_in_order ps w))
  /\ (forall e, fst (call w) = Rejected e ->
      last (console (snd (call w))) = Some (label, e)).
Proof.
  cbv zeta. unfold try_catch, bind, Promise_all.
  destruct (Promise_all_in_order ps w) as [[l | e0] w1]; cbn.
  - repeat split; eauto. discriminate.
  - destruct (Promise_all_rejection A ps w) as [e1 w2]. cbn.
    split; [split; [discriminate | intros [l H]; discriminate H] |].
    split; [discriminate |].
    intros e [= <-]. apply last_snoc.
Qed.

Lemma storeTokens_in_order {S} {ST : Storage S} {CD : Codec}
    (a r : string) (w : World S) :
  let w1 := kv_set selected STORAGE_KEYS.ACCESS_TOKEN a (storage w) in
  let w2 := kv_set selected STORAGE_KEYS.REFRESH_TOKEN r (snd w1) in
  let w3 := kv_set selected STORAGE_KEYS.LAST_LOGIN (toISOString (clock w)) (snd w2) in
  let run :=
    Promise_all_in_order
      [ setSecureItem STORAGE_KEYS.ACCESS_TOKEN a;
        setSecureItem STORAGE_KEYS.REFRESH_TOKEN r;
        (now <- Date_now ;; setSecureItem STORAGE_KEYS.LAST_LOGIN (toISOString now)) ] w in
  storage (snd run) = snd w3
  /\ ((exists l, fst run = Resolved l)
      <-> fst w1 = Resolved tt /\ fst w2 = Resolved tt /\ fst w3 = Resolved tt)
  /\ ((exists l, fst run = Resolved l) -> console (snd run) = console w).
Proof.
  cbv zeta. cbn [Promise_all_in_order]. unfold bind.
  destruct (setSecureItem_any STORAGE_KEYS.ACCESS_TOKEN a w) as (F1 & S1 & C1).
  pose proof (setSecureItem_quiet STORAGE_KEYS.ACCESS_TOKEN a w) as Q1.
  destruct (setSecureItem STORAGE_KEYS.ACCESS_TOKEN a w) as [o1 x1].
  cbn [fst snd] in F1, S1, C1, Q1. rewrite <- F1, <- S1.
  destruct (setSecureItem_any STORAGE_KEYS.REFRESH_TOKEN r x1) as (F2 & S2 & C2).
  pose proof (setSecureItem_quiet STORAGE_KEYS.REFRESH_TOKEN r x1) as Q2.
  destruct (setSecureItem STORAGE_KEYS.REFRESH_TOKEN r x1) as [o2 x2].
  cbn [fst snd] in F2, S2, C2, Q2. rewrite <- F2, <- S2.
  unfold Date_now.
  destruct (setSecureItem_any STORAGE_KEYS.LAST_LOGIN (toISOString (clock x2)) x2)
    as (F3 & S3 & _).
  pose proof (setSecureItem_quiet STORAGE_KEYS.LAST_LOGIN (toISOString (clock x2)) x2) as Q3.
  rewrite C2, C1 in F3, S3, Q3. rewrite C2, C1.
  destruct (setSecureItem STORAGE_KEYS.LAST_LOGIN (toISOString (clock w)) x2) as [o3 x3].
  cbn [fst snd] in F3, S3, Q3. rewrite <- F3, <- S3.
  destruct o1 as [[] | e1], o2 as [[] | e2], o3 as [[] | e3]; cbn;
    (split; [reflexivity |]);
    (split; [split; intros H;
       try (destruct H as [l H]; discriminate H);
       try (destruct H as (H1 & H2 & H3); discriminate); eauto |]);
    intros [l H]; try discriminate H.
  rewrite (Q3 _ eq_refl), (Q2 _ eq_refl), (Q1 _ eq_refl). reflexivity.
Qed.

(** X14: [storeTokens] resolves exactly when its three writes, issued in
    the order of the source, all resolve; the store is then as the three
    writes leave it and nothing is logged.  When a write rejects, the
    call rejects with the reason [Promise.all] rejects with, after logging
    it under "Error storing tokens:"; what the store then holds is the
    platform's. *)
Theorem storeTokens_writes_all {S} {ST : Storage S} {CD : Codec}
    (a r : string) (w : World S) :
  let w1 := kv_set selected STORAGE_KEYS.ACCESS_TOKEN a (storage w) in
  let w2 := kv_set selected STORAGE_KEYS.REFRESH_TOKEN r (snd w1) in
  let w3 := kv_set selected STORAGE_KEYS.LAST_LOGIN (toISOString (clock w)) (snd w2) in
  (fst (storeTokens a r w) = Resolved tt
   <-> fst w1 = Resolved tt /\ fst w2 = Resolved tt /\ fst w3 = Resolved tt)
  /\ (fst (storeTokens a r w) = Resolved tt ->
      storage (snd (storeTokens a r w)) = snd w3
      /\ console (snd (storeTokens a r w)) = console w)
  /\ (forall e, fst (storeTokens a r w) = Rejected e ->
      last (console (snd (storeTokens a r w))) = Some ("Error storing tokens:", e)).
Proof.
  cbv zeta.
  destruct (storeTokens_in_order a r w) as (St & Iff & Quiet).
  destruct (Promise_all_logged
              [ setSecureItem STORAGE_KEYS.ACCESS_TOKEN a;
                setSecureItem STORAGE_KEYS.REFRESH_TOKEN r;
                (now <- Date_now ;;
                 setSecureItem STORAGE_KEYS.LAST_LOGIN (toISOString now)) ]
              "Error storing tokens:" w) as (R & W & L).
  fold (storeTokens a r) in R, W, L.
  split; [rewrite R; exact Iff |].
  split; [| exact L].
  intros H. rewrite (W H). split; [exact St |]. apply Quiet, R, H.
Qed.

Lemma storeTokens_writes_all_witness :
  let out := storeTokens (ST := Device) (CD := RefCodec) "access-token" "refresh-token"
               world_broken in
  fst out = Resolved tt
  /\ secure_kv (storage (snd out))
     = <[STORAGE_KEYS.LAST_LOGIN := "2024-01-01T00:00:00.000Z"]>
         (<[STORAGE_KEYS.REFRESH_TOKEN := "refresh-token"]>
            (<[STORAGE_KEYS.ACCESS_TOKEN := "access-token"]> ∅))
  /\ console (snd out) = [].
Proof.
  cbv zeta.
  destruct (@storeTokens_writes_all Stores Device RefCodec "access-token" "refresh-token"
              world_broken) as (_ & H & _).
  assert (R : fst (storeTokens (ST := Device) (CD := RefCodec) "access-token"
                     "refresh-token" world_broken) = Resolved tt)
    by (vm_compute; reflexivity).
  destruct (H R) as (H1 & H2).
  split; [exact R |].
  split; [rewrite H1; vm_compute; reflexivity | rewrite H2; reflexivity].
Defined.

Example storeTokens_on_a_failing_store :
  let out := storeTokens (ST := BrokenDevice) (CD := RefCodec) "access-token"
               "refresh-token" world_broken in
  fst out = Rejected "storage unavailable"
  /\ last (console (snd out)) = Some ("Error storing tokens:", "storage unavailable").
Proof. vm_compute. split; reflexivity. Qed.

Lemma clearAuthData_in_order {S} {ST : Storage S} (w : World S) :
  let r1 := kv_remove selected STORAGE_KEYS.ACCESS_TOKEN (storage w) in
  let r2 := kv_remove selected STORAGE_KEYS.REFRESH_TOKEN (snd r1) in
  let r3 := kv_remove selected STORAGE_KEYS.USER_DATA (snd r2) in
  let r4 := kv_remove selected STORAGE_KEYS.LAST_LOGIN (snd r3) in
  let run :=
    Promise_all_in_order
      [ removeSecureItem STORAGE_KEYS.ACCESS_TOKEN;
        removeSecureItem STORAGE_KEYS.REFRESH_TOKEN;
        removeSecureItem STORAGE_KEYS.USER_DATA;
        removeSecureItem STORAGE_KEYS.LAST_LOGIN ] w in
  storage (snd run) = snd r4
  /\ ((exists l, fst run = Resolved l)
      <-> fst r1 = Resolved tt /\ fst r2 = Resolved tt
          /\ fst r3 = Resolved tt /\ fst r4 = Resolved tt).
Proof.
  cbv zeta. cbn [Promise_all_in_order].
  set (r1 := kv_remove selected STORAGE_KEYS.ACCESS_TOKEN (storage w)) in *.
  set (r2 := kv_remove selected STORAGE_KEYS.REFRESH_TOKEN (snd r1)) in *.
  set (r3 := kv_remove selected STORAGE_KEYS.USER_DATA (snd r2)) in *.
  set (r4 := kv_remove selected STORAGE_KEYS.LAST_LOGIN (snd r3)) in *.
  destruct (removeSecureItem_any STORAGE_KEYS.ACCESS_TOKEN w) as (F1 & S1).
  destruct (removeSecureItem STORAGE_KEYS.ACCESS_TOKEN w) as [o1 x1].
  cbn [fst snd] in F1, S1. fold r1 in F1, S1.
  destruct (removeSecureItem_any STORAGE_KEYS.REFRESH_TOKEN x1) as (F2 & S2).
  destruct (removeSecureItem STORAGE_KEYS.REFRESH_TOKEN x1) as [o2 x2].
  cbn [fst snd] in F2, S2. rewrite S1 in F2, S2. fold r2 in F2, S2.
  destruct (removeSecureItem_any STORAGE_KEYS.USER_DATA x2) as (F3 & S3).
  destruct (removeSecureItem STORAGE_KEYS.USER_DATA x2) as [o3 x3].
  cbn [fst snd] in F3, S3. rewrite S2 in F3, S3. fold r3 in F3, S3.
  destruct (removeSecureItem_any STORAGE_KEYS.LAST_LOGIN x3) as (F4 & S4).
  destruct (removeSecureItem STORAGE_KEYS.LAST_LOGIN x3) as [o4 x4].
  cbn [fst snd] in F4, S4. rewrite S3 in F4, S4. fold r4 in F4, S4.
  rewrite <- F1, <- F2, <- F3, <- F4 in *.
  destruct o1 as [[] | e1], o2 as [[] | e2], o3 as [[] | e3], o4 as [[] | e4]; cbn;
    (split; [exact S4 |]); split; intros H;
    try (destruct H as [l H]; discriminate H);
    try (destruct H as (H1 & H2 & H3 & H4); discriminate); eauto.
Qed.

(** X15: [clearAuthData] resolves exactly when its four removals, issued
    in the order of the source, all resolve; the store is then as the four
    removals leave it, and on a backend consistent with its contents the
    four credential keys are gone and nothing else is.  When a removal
    rejects, the call rejects with the reason [Promise.all] rejects with,
    after logging it under "Error clearing auth data:"; what the store
    then holds is the platform's. *)
Theorem clearAuthData_removes_all {S} {ST : Storage S}
    (view : S -> gmap string string) (w : World S) :
  Consistent selected view ->
  let r1 := kv_remove selected STORAGE_KEYS.ACCESS_TOKEN (storage w) in
  let r2 := kv_remove selected STORAGE_KEYS.REFRESH_TOKEN (snd r1) in
  let r3 := kv_remove selected STORAGE_KEYS.USER_DATA (snd r2) in
  let r4 := kv_remove selected STORAGE_KEYS.LAST_LOGIN (snd r3) in
  (fst (clearAuthData w) = Resolved tt
   <-> fst r1 = Resolved tt /\ fst r2 = Resolved tt
       /\ fst r3 = Resolved tt /\ fst r4 = Resolved tt)
  /\ (fst (clearAuthData w) = Resolved tt ->
      storage (snd (clearAuthData w)) = snd r4
      /\ view (storage (snd (clearAuthData w)))
         = delete STORAGE_KEYS.LAST_LOGIN
             (delete STORAGE_KEYS.USER_DATA
                (delete STORAGE_KEYS.REFRESH_TOKEN
                   (delete STORAGE_KEYS.ACCESS_TOKEN (view (storage w))))))
  /\ (forall e, fst (clearAuthData w) = Rejected e ->
      last (console (snd (clearAuthData w))) = Some ("Error clearing auth data:", e)).
Proof.
  intros HC. cbv zeta.
  destruct (clearAuthData_in_order w) as (St & Iff).
  destruct (Promise_all_logged
              [ removeSecureItem STORAGE_KEYS.ACCESS_TOKEN;
                removeSecureItem STORAGE_KEYS.REFRESH_TOKEN;
                removeSecureItem STORAGE_KEYS.USER_DATA;
                removeSecureItem STORAGE_KEYS.LAST_LOGIN ]
              "Error clearing auth data:" w) as (R & W & L).
  fold (clearAuthData (ST := ST)) in R, W, L.
  split; [rewrite R; exact Iff |].
  split; [| exact L].
  intros H. rewrite (W H). split; [exact St |].
  destruct (proj1 Iff (proj1 R H)) as (H1 & H2 & H3 & H4).
  rewrite St.
  rewrite (remove_value _ _ HC _ _ H4), (remove_value _ _ HC _ _ H3),
    (remove_value _ _ HC _ _ H2), (remove_value _ _ HC _ _ H1).
  reflexivity.
Qed.

Lemma clearAuthData_removes_all_witness :
  fst (clearAuthData (ST := Device) world_signed_in) = Resolved tt
  /\ secure_kv (storage (snd (clearAuthData (ST := Device) world_signed_in)))
     = delete STORAGE_KEYS.LAST_LOGIN
         (delete STORAGE_KEYS.USER_DATA
            (delete STORAGE_KEYS.REFRESH_TOKEN
               (delete STORAGE_KEYS.ACCESS_TOKEN
                  (secure_kv (storage world_signed_in))))).
Proof.
  destruct (@clearAuthData_removes_all Stores Device secure_kv world_signed_in
              (reliable_consistent _ _ MemorySecureStore_reliable)) as (R & W & _).
  assert (H : fst (clearAuthData (ST := Device) world_signed_in) = Resolved tt)
    by (vm_compute; reflexivity).
  split; [exact H |]. apply (W H).
Defined.

Example clearAuthData_on_a_failing_store :
  let out := clearAuthData (ST := BrokenDevice) world_broken in
  fst out = Rejected "storage unavailable"
  /\ last (console (snd out))
     = Some ("Error clearing auth data:", "storage unavailable").
Proof. vm_compute. split; reflexivity. Qed.

(** * The authentication actions *)

Example login_with_the_right_password :
  fst ((loginUser (ST := Device) (CD := RefCodec) (UJ := RefUserJson) (AP := RefAuth)
          "ada@example.com" "Secret1" ;;
        getTokens (ST := Device)) world_broken)
  = Resolved {| accessToken := Some "id-token"; refreshToken := Some "refresh-token" |}.
Proof. vm_compute. reflexivity. Qed.

Example login_with_a_wrong_password :
  fst (loginUser (ST := Device) (CD := RefCodec) (UJ := RefUserJson) (AP := RefAuth)
         "ada@example.com" "guess" world_broken)
  = Resolved (failure "Invalid email or password.").
Proof. vm_compute. reflexivity. Qed.

(** ** While the limiter is closed *)

(** X16: while the check of its kind limits, [loginUser] (and likewise
    [registerUser]) returns the limiter's message as a failure and does
    nothing else: the world is the one the check left, whatever the
    identity provider would have answered. *)
Theorem limited_actions_skip_provider {S} {ST : Storage S} {CD : Codec}
    {UJ : UserJson} {AP : AuthPlatform S}
    (kind : AttemptKind) (email password displayName : string) (w : World S)
    (r : RateLimit) :
  fst (checkRateLimit_of kind w) = Resolved r ->
  isLimited r = true ->
  guardedAction kind email password displayName w
  = (Resolved (failure (message r)), snd (checkRateLimit_of kind w)).
Proof.
  intros Hr Hlim. destruct kind; cbn [guardedAction checkRateLimit_of] in *.
  - unfold loginUser, try_catch, bind.
    destruct (checkLoginRateLimit w) as [o w1]. cbn in Hr. subst o.
    rewrite Hlim. reflexivity.
  - unfold registerUser, try_catch, bind.
    destruct (checkRegisterRateLimit w) as [o w1]. cbn in Hr. subst o.
    rewrite Hlim. reflexivity.
Qed.

Lemma limited_actions_skip_provider_witness :
  let w := world_throttled (1704067200000 + 60000) in
  guardedAction (ST := Device) (CD := RefCodec) (UJ := RefUserJson) (AP := RefAuth)
    login "ada@example.com" "Secret1" "" w
  = (Resolved (failure "Too many login attempts. Please wait 14 minutes before trying again."),
     snd (checkRateLimit_of (ST := Device) (CD := RefCodec) login w)).
Proof.
  apply (@limited_actions_skip_provider Stores Device RefCodec RefUserJson RefAuth login
           "ada@example.com" "Secret1" "" (world_throttled (1704067200000 + 60000))
           {| isLimited := true; waitTime := 14;
              message := "Too many login attempts. Please wait 14 minutes before trying again." |}).
  - vm_compute. reflexivity.
  - reflexivity.
Defined.

(** ** What the actions settle to *)

Lemma try_catch_resolves {S A} (body : Async S A) (handler : Error -> Async S A)
    (w : World S) :
  (forall e w', exists a, fst (handler e w') = Resolved a) ->
  exists a, fst (try_catch body handler w) = Resolved a.
Proof.
  intros H. unfold try_catch. destruct (body w) as [[a | e] w']; cbn; eauto.
Qed.

Lemma try_catch_outcome {S A} (body : Async S A) (handler : Error -> Async S A)
    (P : Outcome A -> Prop) (w : World S) :
  (forall a, P (Resolved a)) ->
  (forall e w', P (fst (handler e w'))) ->
  P (fst (try_catch body handler w)).
Proof.
  intros Ha Hh. unfold try_catch. destruct (body w) as [[a | e] w']; cbn; auto.
Qed.

(** The end of the three [catch] blocks that read [error.code]. *)
Lemma switch_error_code_run {S} {AP : AuthPlatform S} (error : Error)
    (errorMessage : Error -> string) (w : World S) :
  (m <- switch_error_code error errorMessage ;; ret (failure m)) w
  = (if nullish error then Rejected (TypeError error)
     else Resolved (failure (errorMessage error)), w).
Proof. unfold bind, switch_error_code. destruct (nullish error); reflexivity. Qed.

Lemma loginUser_settles {S} {ST : Storage S} {CD : Codec}
    {UJ : UserJson} {AP : AuthPlatform S} (email password : string) (w : World S) :
  (exists r, fst (loginUser email password w) = Resolved r)
  \/ (exists e, nullish e = true
                /\ fst (loginUser email password w) = Rejected (TypeError e)).
Proof.
  apply (try_catch_outcome _ _
           (fun o => (exists r, o = Resolved r)
                     \/ (exists e, nullish e = true /\ o = Rejected (TypeError e))));
    [eauto |].
  intros e w'. cbv beta.
  match goal with
  | |- (exists r, ?o = _) \/ _ =>
      assert (E : o = if nullish e then Rejected (TypeError e)
                      else Resolved (failure (loginErrorMessage e)))
  end.
  { unfold bind at 1 2, console_error; cbn [fst snd].
    pose proof (recordAttempt_failure_resolves RATE_LIMIT_KEYS.LOGIN_ATTEMPTS
                  (mkWorld (clock w') (storage w')
                     (console w' ++ [("Login error:", e)]) (timers w'))) as R.
    unfold recordLoginAttempt.
    destruct (recordAttempt RATE_LIMIT_KEYS.LOGIN_ATTEMPTS false _) as [o w2].
    cbn in R. subst o. rewrite switch_error_code_run. reflexivity. }
  rewrite E. destruct (nullish e) eqn:N; eauto.
Qed.

Lemma registerUser_settles {S} {ST : Storage S} {CD : Codec}
    {UJ : UserJson} {AP : AuthPlatform S} (email password displayName : string)
    (w : World S) :
  (exists r, fst (registerUser email password displayName w) = Resolved r)
  \/ (exists e, nullish e = true
                /\ fst (registerUser email password displayName w)
                   = Rejected (TypeError e)).
Proof.
  apply (try_catch_outcome _ _
           (fun o => (exists r, o = Resolved r)
                     \/ (exists e, nullish e = true /\ o = Rejected (TypeError e))));
    [eauto |].
  intros e w'. cbv beta.
  match goal with
  | |- (exists r, ?o = _) \/ _ =>
      assert (E : o = if nullish e then Rejected (TypeError e)
                      else Resolved (failure (registerErrorMessage e)))
  end.
  { unfold bind at 1 2, console_error; cbn [fst snd].
    pose proof (recordAttempt_failure_resolves RATE_LIMIT_KEYS.REGISTER_ATTEMPTS
                  (mkWorld (clock w') (storage w')
                     (console w' ++ [("Registration error:", e)]) (timers w'))) as R.
    unfold recordRegisterAttempt.
    destruct (recordAttempt RATE_LIMIT_KEYS.REGISTER_ATTEMPTS false _) as [o w2].
    cbn in R. subst o. rewrite switch_error_code_run. reflexivity. }
  rewrite E. destruct (nullish e) eqn:N; eauto.
Qed.

Lemma sendPasswordReset_settles {S} {AP : AuthPlatform S} (email : string)
    (w : World S) :
  (exists r, fst (sendPasswordReset email w) = Resolved r)
  \/ (exists e, nullish e = true
                /\ fst (sendPasswordReset email w) = Rejected (TypeError e)).
Proof.
  apply (try_catch_outcome _ _
           (fun o => (exists r, o = Resolved r)
                     \/ (exists e, nullish e = true /\ o = Rejected (TypeError e))));
    [eauto |].
  intros e w'. cbv beta.
  match goal with
  | |- (exists r, ?o = _) \/ _ =>
      assert (E : o = if nullish e then Rejected (TypeError e)
                      else Resolved (failure (resetErrorMessage e)))
  end.
  { unfold bind at 1, console_error; cbn [fst snd].
    rewrite switch_error_code_run. reflexivity. }
  rewrite E. destruct (nullish e) eqn:N; eauto.
Qed.

Lemma logoutUser_resolves {S} {ST : Storage S} {AP : AuthPlatform S} (w : World S) :
  exists r, fst (logoutUser w) = Resolved r.
Proof. apply try_catch_resolves; intros e w'. cbn. eauto. Qed.

Lemma refreshAuthToken_resolves {S} {ST : Storage S} {CD : Codec}
    {AP : AuthPlatform S} (w : World S) :
  exists r, fst (refreshAuthToken w) = Resolved r.
Proof. apply try_catch_resolves; intros e w'. cbn. eauto. Qed.

(** X17: on every platform [logoutUser] and [refreshAuthToken] resolve
    with a result object, whatever the identity provider and the stores
    do.  [loginUser], [registerUser] and [sendPasswordReset] resolve with
    a result object or reject with the TypeError of reading the code of a
    rejection reason that is [null] or [undefined]; no other failure
    escapes them. *)
Theorem actions_settle {S} {ST : Storage S} {CD : Codec}
    {UJ : UserJson} {AP : AuthPlatform S}
    (email password displayName : string) (w : World S) :
  let settles (o : Outcome ActionResult) :=
    (exists r, o = Resolved r)
    \/ (exists e, nullish e = true /\ o = Rejected (TypeError e)) in
  settles (fst (loginUser email password w))
  /\ settles (fst (registerUser email password displayName w))
  /\ settles (fst (sendPasswordReset email w))
  /\ (exists r, fst (logoutUser w) = Resolved r)
  /\ (exists r, fst (refreshAuthToken w) = Resolved r).
Proof.
  cbv zeta. split; [apply loginUser_settles |].
  split; [apply registerUser_settles |].
  split; [apply sendPasswordReset_settles |].
  split; [apply logoutUser_resolves | apply refreshAuthToken_resolves].
Qed.

(** A sign-in rejected without a reason: the failure is logged and
    counted, then the action itself rejects. *)
Example login_rejected_without_a_reason :
  let out := loginUser (ST := Device) (CD := RefCodec) (UJ := RefUserJson)
               (AP := VagueAuth) "ada@example.com" "Secret1"
               (world_at 1704067200000 ∅) in
  fst out = Rejected "TypeError: Cannot read properties of undefined"
  /\ console (snd out) = [("Login error:", "undefined")]
  /\ async_kv (storage (snd out)) !! RATE_LIMIT_KEYS.LOGIN_ATTEMPTS
     = Some (RefJson.stringify (mkAttemptJson (Some 1) (Some "2024-01-01T00:00:00.000Z"))).
Proof. vm_compute. repeat split; reflexivity. Qed.

Example reset_rejected_without_a_reason :
  fst (sendPasswordReset (AP := VagueAuth) "ada@example.com" (world_at 0 ∅))
  = Rejected "TypeError: Cannot read properties of undefined".
Proof. vm_compute. reflexivity. Qed.

(** ** A sign-in that fails *)



(** ** A sign-in that succeeds *)

Lemma recordAttempt_success_storage {S} {ST : Storage S} {CD : Codec}
    (key : string) (w : World S) :
  storage (snd (recordAttempt key true w))
  = snd (kv_remove AsyncStorage key (snd (kv_get AsyncStorage key (storage w)))).
Proof.
  destruct (getAttemptData_frame key w) as ([a Ha] & _ & _ & Hs).
  unfold recordAttempt. rewrite (bind_run _ _ _ _ Ha).
  unfold bind, Date_now. rewrite on_storage_run. cbn [fst snd storage].
  rewrite Hs. destruct (kv_remove _ _ _); reflexivity.
Qed.

Lemma storeUserData_reliable {S} {ST : Storage S} {CD : Codec} {UJ : UserJson}
    (view : S -> gmap string string) (u : UserData) (text : string) (w : World S) :
  Reliable selected view ->
  JSON_stringify_user u = Resolved text ->
  fst (storeUserData u w) = Resolved tt
  /\ view (storage (snd (storeUserData u w)))
     = <[STORAGE_KEYS.USER_DATA := text]> (view (storage w)).
Proof.
  intros HR Hs.
  destruct (setSecureItem_reliable view STORAGE_KEYS.USER_DATA text w HR) as (O & V & _).
  unfold storeUserData, try_catch, bind, of_outcome. rewrite Hs.
  destruct (setSecureItem STORAGE_KEYS.USER_DATA text w) as [o w1]. cbn in O, V. subst o.
  cbn. auto.
Qed.

(** X19: when the check lets the login through, the identity provider
    signs the user in and hands out a token, and the stores do not fail,
    [loginUser] succeeds with the profile it built, leaves both tokens,
    the profile text and the login time in the credential store, and
    leaves no login attempt record behind. *)
Theorem successful_login_stores_credentials {S} {ST : Storage S} {CD : Codec}
    {UJ : UserJson} {AP : AuthPlatform S}
    (av sv : S -> gmap string string) (email password : string) (w : World S)
    (r : RateLimit) (fu : Fb.User) (tok text : string) (s2 s3 : S) :
  Reliable AsyncStorage av ->
  Reliable selected sv ->
  Apart sv ->
  fst (checkLoginRateLimit w) = Resolved r ->
  isLimited r = false ->
  signInWithEmailAndPassword email password (storage (snd (checkLoginRateLimit w)))
  = (Resolved fu, s2) ->
  getIdToken fu false s2 = (Resolved tok, s3) ->
  let profile := {|
    uid := Fb.uid fu;
    email := Fb.email fu;
    displayName := default "" (Fb.displayName fu);
    emailVerified := Fb.emailVerified fu;
    photoURL := Fb.photoURL fu;
    createdAt := None;
    lastLoginAt := Some (toISOString (clock w)) |} in
  JSON_stringify_user (user_object profile) = Resolved text ->
  let out := loginUser email password w in
  fst out = Resolved {| success := true; user := Some profile; token := None; error := None |}
  /\ sv (storage (snd out)) !! STORAGE_KEYS.ACCESS_TOKEN = Some tok
  /\ sv (storage (snd out)) !! STORAGE_KEYS.REFRESH_TOKEN
     = Some (default "" (Fb.refreshToken fu))
  /\ sv (storage (snd out)) !! STORAGE_KEYS.USER_DATA = Some text
  /\ sv (storage (snd out)) !! STORAGE_KEYS.LAST_LOGIN = Some (toISOString (clock w))
  /\ av (storage (snd out)) !! RATE_LIMIT_KEYS.LOGIN_ATTEMPTS = None.
Proof.
  intros HA HS HP Hr Hlim Hsign Htok profile Htext out. subst out.
  pose proof (checkRateLimit_cases av RATE_LIMIT_KEYS.LOGIN_ATTEMPTS
                RATE_LIMIT_CONFIG.MAX_LOGIN_ATTEMPTS
                RATE_LIMIT_CONFIG.LOGIN_COOLDOWN_MINUTES "login" w HA) as (Hc & _ & _).
  fold checkLoginRateLimit in Hc.
  unfold loginUser, try_catch, bind.
  destruct (checkLoginRateLimit w) as [o w1]. cbn [fst snd] in *. subst o.
  rewrite Hlim. rewrite on_storage_run, Hsign. cbn [fst snd].
  rewrite on_storage_run. cbn [storage]. rewrite Htok. cbn [fst snd].
  unfold Date_now. cbn [clock fst snd]. rewrite Hc. fold profile.
  match goal with |- context [storeTokens _ _ ?x] => set (w3 := x) end.
  destruct (storeTokens_reliable sv tok (default "" (Fb.refreshToken fu)) w3 HS) as (O1 & V1).
  change (clock w3) with (clock w) in V1.
  destruct (storeTokens tok (default "" (Fb.refreshToken fu)) w3) as [o1 w4].
  cbn [fst snd] in O1, V1. subst o1.
  destruct (storeUserData_reliable sv (user_object profile) text w4 HS Htext) as (O2 & V2).
  destruct (storeUserData (user_object profile) w4) as [o2 w5].
  cbn [fst snd] in O2, V2. subst o2.
  unfold recordLoginAttempt.
  destruct (recordAttempt_success av RATE_LIMIT_KEYS.LOGIN_ATTEMPTS w5 HA) as (O3 & V3 & _).
  pose proof (recordAttempt_success_storage RATE_LIMIT_KEYS.LOGIN_ATTEMPTS w5) as S3.
  destruct (recordAttempt RATE_LIMIT_KEYS.LOGIN_ATTEMPTS true w5) as [o3 w6].
  cbn [fst snd] in O3, V3, S3. subst o3. cbn [fst snd ret].
  assert (F : forall k, k <> RATE_LIMIT_KEYS.LOGIN_ATTEMPTS ->
                        sv (storage w6) !! k = sv (storage w5) !! k).
  { intros k Hk. rewrite S3.
    rewrite (remove_apart _ HP) by congruence.
    rewrite (get_apart _ HP). reflexivity. }
  split; [reflexivity |].
  rewrite !F by discriminate. rewrite V2, V1.
  repeat split.
  - rewrite !lookup_insert_ne by discriminate. apply lookup_insert_eq.
  - rewrite !lookup_insert_ne by discriminate. apply lookup_insert_eq.
  - apply lookup_insert_eq.
  - rewrite lookup_insert_ne by discriminate. apply lookup_insert_eq.
  - rewrite V3. apply lookup_delete_eq.
Qed.

Lemma Device_apart : Apart (ST := Device) secure_kv.
Proof. split; intros; reflexivity. Qed.

Lemma successful_login_stores_credentials_witness :
  let w := world_throttled 1704068160000 in
  let out := loginUser (ST := Device) (CD := RefCodec) (UJ := RefUserJson) (AP := RefAuth)
               "ada@example.com" "Secret1" w in
  fst out
  = Resolved {|
      success := true;
      user := Some (mkUserProfile "u-1" (Some "ada@example.com") "Ada" true None None
                      (Some "2024-01-01T00:16:00.000Z"));
      token := None;
      error := None |}
  /\ secure_kv (storage (snd out)) !! STORAGE_KEYS.ACCESS_TOKEN = Some "id-token"
  /\ secure_kv (storage (snd out)) !! STORAGE_KEYS.REFRESH_TOKEN = Some "refresh-token"
  /\ secure_kv (storage (snd out)) !! STORAGE_KEYS.LAST_LOGIN
     = Some "2024-01-01T00:16:00.000Z"
  /\ async_kv (storage (snd out)) !! RATE_LIMIT_KEYS.LOGIN_ATTEMPTS = None.
Proof.
  destruct (@successful_login_stores_credentials Stores Device RefCodec RefUserJson RefAuth
              async_kv secure_kv "ada@example.com" "Secret1"
              (world_throttled 1704068160000) notLimited ada "id-token"
              (ref_stringify_user
                 (ref_user_object
                    (mkUserProfile "u-1" (Some "ada@example.com") "Ada" true None None
                       (Some "2024-01-01T00:16:00.000Z"))))
              (mkStores ∅ ∅) (mkStores ∅ ∅)
              MemoryAsyncStorage_reliable MemorySecureStore_reliable Device_apart
              ltac:(vm_compute; reflexivity) eq_refl
              ltac:(vm_compute; reflexivity) eq_refl
              ltac:(vm_compute; reflexivity))
    as (H1 & H2 & H3 & _ & H5 & H6).
  split; [rewrite H1; vm_compute; reflexivity |].
  split; [exact H2 |]. split; [exact H3 |].
  split; [rewrite H5; vm_compute; reflexivity | exact H6].
Defined.

(** ** Signing out *)

(** X20: a [logoutUser] that reports success has removed both tokens, the
    profile and the last login from a credential store that is consistent
    with its contents. *)
Theorem logout_success_clears {S} {ST : Storage S} {AP : AuthPlatform S}
    (view : S -> gmap string string) (w : World S) (r : ActionResult) :
  Consistent selected view ->
  fst (logoutUser w) = Resolved r ->
  success r = true ->
  view (storage (snd (logoutUser w))) !! STORAGE_KEYS.ACCESS_TOKEN = None
  /\ view (storage (snd (logoutUser w))) !! STORAGE_KEYS.REFRESH_TOKEN = None
  /\ view (storage (snd (logoutUser w))) !! STORAGE_KEYS.USER_DATA = None
  /\ view (storage (snd (logoutUser w))) !! STORAGE_KEYS.LAST_LOGIN = None.
Proof.
  intros HC. unfold logoutUser, try_catch, bind.
  destruct (on_storage signOut w) as [[[] | e] w1]; cbn [fst snd];
    [| unfold console_error; cbn; intros [= <-]; discriminate].
  destruct (clearAuthData w1) as [[[] | e] w2] eqn:E; cbn [fst snd ret];
    [| unfold console_error; cbn; intros [= <-]; discriminate].
  intros _ _.
  assert (Hr : fst (clearAuthData w1) = Resolved tt) by (rewrite E; reflexivity).
  assert (Hw : w2 = snd (clearAuthData w1)) by (rewrite E; reflexivity).
  clear E. revert Hr. rewrite Hw. clear Hw w2.
  unfold clearAuthData, try_catch, bind.
  destruct (Promise_all _ w1) as [[l | e] w'] eqn:E; cbn; [intros _ | discriminate].
  assert (E1 : fst (Promise_all
                      [removeSecureItem STORAGE_KEYS.ACCESS_TOKEN;
                       removeSecureItem STORAGE_KEYS.REFRESH_TOKEN;
                       removeSecureItem STORAGE_KEYS.USER_DATA;
                       removeSecureItem STORAGE_KEYS.LAST_LOGIN] w1) = Resolved l)
    by (rewrite E; reflexivity).
  assert (E2 : w' = snd (Promise_all
                      [removeSecureItem STORAGE_KEYS.ACCESS_TOKEN;
                       removeSecureItem STORAGE_KEYS.REFRESH_TOKEN;
                       removeSecureItem STORAGE_KEYS.USER_DATA;
                       removeSecureItem STORAGE_KEYS.LAST_LOGIN] w1))
    by (rewrite E; reflexivity).
  apply Promise_all_cons in E1 as (u1 & l1 & -> & R1 & E1 & S1).
  apply Promise_all_cons in E1 as (u2 & l2 & -> & R2 & E1 & S2).
  apply Promise_all_cons in E1 as (u3 & l3 & -> & R3 & E1 & S3).
  apply Promise_all_cons in E1 as (u4 & l4 & -> & R4 & E1 & S4).
  rewrite E2, S1, S2, S3, S4. unfold Promise_all. cbn [Promise_all_in_order ret snd].
  rewrite (removeSecureItem_resolved view _ _ _ HC R4).
  rewrite (removeSecureItem_resolved view _ _ _ HC R3).
  rewrite (removeSecureItem_resolved view _ _ _ HC R2).
  rewrite (removeSecureItem_resolved view _ _ _ HC R1).
  repeat split.
  - rewrite !lookup_delete_ne by discriminate. apply lookup_delete_eq.
  - rewrite !lookup_delete_ne by discriminate. apply lookup_delete_eq.
  - rewrite !lookup_delete_ne by discriminate. apply lookup_delete_eq.
  - apply lookup_delete_eq.
Qed.

Lemma logout_success_clears_witness :
  let out := logoutUser (ST := Device) (AP := RefAuth) world_signed_in in
  fst out = Resolved {| success := true; user := None; token := None; error := None |}
  /\ secure_kv (storage (snd out)) !! STORAGE_KEYS.ACCESS_TOKEN = None
  /\ secure_kv (storage (snd out)) !! STORAGE_KEYS.REFRESH_TOKEN = None
  /\ secure_kv (storage (snd out)) !! STORAGE_KEYS.USER_DATA = None
  /\ secure_kv (storage (snd out)) !! STORAGE_KEYS.LAST_LOGIN = None.
Proof.
  split; [reflexivity |].
  apply (@logout_success_clears Stores Device RefAuth secure_kv
           world_signed_in
           {| success := true; user := None; token := None; error := None |}).
  - apply MemorySecureStore_reliable.
  - reflexivity.
  - reflexivity.
Defined.

(** X21: when the identity provider rejects the sign-out, [logoutUser]
    reports a failure and does not clear anything: the stores are as the
    sign-out call left them, so the credentials stay on the device. *)
Theorem failed_sign_out_keeps_credentials {S} {ST : Storage S} {AP : AuthPlatform S}
    (w : World S) (e : Error) :
  fst (signOut (storage w)) = Rejected e ->
  fst (logoutUser w) = Resolved (failure "Failed to logout. Please try again.")
  /\ storage (snd (logoutUser w)) = snd (signOut (storage w))
  /\ console (snd (logoutUser w)) = (console w ++ [("Logout error:", e)])%list.
Proof.
  intros H. unfold logoutUser, try_catch, bind. rewrite on_storage_run.
  destruct (signOut (storage w)) as [o s']. cbn in H. subst o. cbn. auto.
Qed.

Lemma failed_sign_out_keeps_credentials_witness :
  let out := logoutUser (ST := Device) (AP := OfflineAuth) world_signed_in in
  fst out = Resolved (failure "Failed to logout. Please try again.")
  /\ storage (snd out) = snd (signOut (AuthPlatform := OfflineAuth) (storage world_signed_in))
  /\ console (snd out)
     = (console world_signed_in ++ [("Logout error:", "auth/network-request-failed")])%list.
Proof.
  apply (@failed_sign_out_keeps_credentials Stores Device OfflineAuth
           world_signed_in "auth/network-request-failed").
  reflexivity.
Defined.

(** ** Refreshing the token *)

(** X22: with a signed-in user, a fresh token from the provider and
    stores that do not fail, [refreshAuthToken] returns that token and
    the credential store holds it, so that [getTokens] reads the token
    that was returned, next to the refresh token of the user. *)
Theorem refreshed_token_is_stored {S} {ST : Storage S} {CD : Codec}
    {AP : AuthPlatform S}
    (view : S -> gmap string string) (w : World S) (fu : Fb.User) (tok : string) (s2 : S) :
  Reliable selected view ->
  currentUser (storage w) = Some fu ->
  getIdToken fu true (storage w) = (Resolved tok, s2) ->
  fst (refreshAuthToken w)
  = Resolved {| success := true; user := None; token := Some tok; error := None |}
  /\ fst ((refreshAuthToken ;; getTokens) w)
     = Resolved {| accessToken := Some tok;
                   refreshToken := Some (default "" (Fb.refreshToken fu)) |}.
Proof.
  intros HR Hcur Htok.
  assert (E : exists w3,
             refreshAuthToken w
             = (Resolved {| success := true; user := None; token := Some tok; error := None |}, w3)
             /\ view (storage w3) !! STORAGE_KEYS.ACCESS_TOKEN = Some tok
             /\ view (storage w3) !! STORAGE_KEYS.REFRESH_TOKEN
                = Some (default "" (Fb.refreshToken fu))).
  { unfold refreshAuthToken, try_catch, bind, auth_currentUser. cbn [fst snd].
    rewrite Hcur. rewrite on_storage_run, Htok. cbn [fst snd].
    match goal with |- context [storeTokens _ _ ?x] => set (w2 := x) end.
    destruct (storeTokens_reliable view tok (default "" (Fb.refreshToken fu)) w2 HR)
      as (O & V).
    destruct (storeTokens tok (default "" (Fb.refreshToken fu)) w2) as [o w3].
    cbn [fst snd] in O, V. subst o. exists w3. cbn. split; [reflexivity |].
    rewrite V. split.
    - rewrite !lookup_insert_ne by discriminate. apply lookup_insert_eq.
    - rewrite lookup_insert_ne by discriminate. apply lookup_insert_eq. }
  destruct E as (w3 & E & Ha & Hr). split; [rewrite E; reflexivity |].
  unfold bind at 1. rewrite E.
  unfold getTokens, try_catch, bind. unfold Promise_all. cbn [Promise_all_in_order].
  pose proof (getSecureItem_reliable view STORAGE_KEYS.ACCESS_TOKEN w3 HR) as (G1 & F1).
  destruct (getSecureItem STORAGE_KEYS.ACCESS_TOKEN w3) as [o1 w4].
  cbn in G1, F1. subst o1.
  pose proof (getSecureItem_reliable view STORAGE_KEYS.REFRESH_TOKEN w4 HR) as (G2 & F2).
  destruct (getSecureItem STORAGE_KEYS.REFRESH_TOKEN w4) as [o2 w5].
  cbn in G2, F2. subst o2. cbn. rewrite F1, Ha, Hr. reflexivity.
Qed.

Lemma refreshed_token_is_stored_witness :
  fst (refreshAuthToken (ST := Device) (CD := RefCodec) (AP := RefAuth) world_signed_in)
  = Resolved {| success := true; user := None; token := Some "fresh-token"; error := None |}
  /\ fst ((refreshAuthToken (ST := Device) (CD := RefCodec) (AP := RefAuth) ;;
           getTokens (ST := Device)) world_signed_in)
     = Resolved {| accessToken := Some "fresh-token";
                   refreshToken := Some "refresh-token" |}.
Proof.
  exact (@refreshed_token_is_stored Stores Device RefCodec RefAuth secure_kv
           world_signed_in ada "fresh-token" (storage world_signed_in)
           MemorySecureStore_reliable eq_refl eq_refl).
Defined.

Example refresh_without_a_user :
  refreshAuthToken (ST := Device) (CD := RefCodec) (AP := RefAuth) world_broken
  = (Resolved (failure "No authenticated user found."), world_broken).
Proof. vm_compute. reflexivity. Qed.

(** * The authentication state *)

(** X23: along every sequence of actions reduced from the initial state,
    in which a state change that is not authenticated carries no user, a
    state that is not authenticated holds no user. *)
Theorem unauthenticated_state_has_no_user {U} (actions : list (AuthProvider.Action U)) :
  Forall AuthProvider.provider_action actions ->
  let state := AuthProvider.reduce AuthProvider.initialState actions in
  AuthProvider.isAuthenticated state = false ->
  AuthProvider.user state = None.
Proof.
  intros HF. unfold AuthProvider.reduce. cbv zeta.
  assert (G : forall st : AuthProvider.State U,
             (AuthProvider.isAuthenticated st = false -> AuthProvider.user st = None) ->
             AuthProvider.isAuthenticated (fold_left AuthProvider.authReducer actions st)
             = false ->
             AuthProvider.user (fold_left AuthProvider.authReducer actions st) = None).
  { induction HF as [| a l Ha _ IH]; intros st Hst; [exact Hst |].
    cbn [fold_left]. apply IH.
    destruct a as [b [u |] | | | | | | | | | | | |]; cbn; try tauto; try discriminate.
    destruct b; [discriminate | destruct Ha]. }
  apply G. reflexivity.
Qed.

Lemma unauthenticated_state_has_no_user_witness :
  AuthProvider.user
    (AuthProvider.reduce AuthProvider.initialState
       [AuthProvider.AUTH_STATE_CHANGED true (Some sample_profile);
        AuthProvider.LOGOUT_START;
        AuthProvider.LOGOUT_FAILURE (Some "Failed to logout. Please try again.");
        AuthProvider.LOGIN_START;
        AuthProvider.LOGIN_FAILURE (Some "Invalid email or password.")])
  = None.
Proof.
  apply (unauthenticated_state_has_no_user
           [AuthProvider.AUTH_STATE_CHANGED true (Some sample_profile);
            AuthProvider.LOGOUT_START;
            AuthProvider.LOGOUT_FAILURE (Some "Failed to logout. Please try again.");
            AuthProvider.LOGIN_START;
            AuthProvider.LOGIN_FAILURE (Some "Invalid email or password.")]).
  - repeat constructor.
  - reflexivity.
Defined.

(** X24: with Firebase configured, [login] and [register] of the hook
    never reject: they dispatch the start action and then one action
    made from the result of [loginUser] or [registerUser], where a
    rejection of the action counts as the failure of the hook's own
    catch block, "An unexpected error occurred during login." (or
    "registration.").  Reducing that action on any state ends the
    loading, makes the state authenticated exactly when the result is a
    success, and leaves the error of the result as the error of the
    state.  The hook returns the success flag and the error of that
    result, in the world the action left. *)
Theorem login_and_register_settle_state {S} {ST : Storage S} {CD : Codec}
    {UJ : UserJson} {AP : AuthPlatform S}
    (email password displayName : string) (w : World S) :
  (let r := match fst (loginUser email password w) with
            | Resolved result => result
            | Rejected _ => failure "An unexpected error occurred during login."
            end in
   let last := if success r then AuthProvider.LOGIN_SUCCESS (user r)
               else AuthProvider.LOGIN_FAILURE (error r) in
   useAuth_login true email password w
   = (Resolved ([AuthProvider.LOGIN_START; last],
                {| success := success r; user := None; token := None;
                   error := if success r then None else error r |}),
      snd (loginUser email password w))
   /\ forall st : AuthProvider.State UserProfile,
       let st' := AuthProvider.authReducer st last in
       AuthProvider.isLoading st' = false
       /\ AuthProvider.isAuthenticated st' = success r
       /\ AuthProvider.error st' = (if success r then None else error r)
       /\ AuthProvider.user st' = (if success r then user r else None))
  /\ (let r := match fst (registerUser email password displayName w) with
               | Resolved result => result
               | Rejected _ =>
                   failure "An unexpected error occurred during registration."
               end in
      let last := if success r then AuthProvider.REGISTER_SUCCESS (user r)
                  else AuthProvider.REGISTER_FAILURE (error r) in
      useAuth_register true email password displayName w
      = (Resolved ([AuthProvider.REGISTER_START; last],
                   {| success := success r; user := None; token := None;
                      error := if success r then None else error r |}),
         snd (registerUser email password displayName w))
      /\ forall st : AuthProvider.State UserProfile,
          let st' := AuthProvider.authReducer st last in
          AuthProvider.isLoading st' = false
          /\ AuthProvider.isAuthenticated st' = success r
          /\ AuthProvider.error st' = (if success r then None else error r)
          /\ AuthProvider.user st' = (if success r then user r else None)).
Proof.
  split; cbv zeta.
  - unfold useAuth_login, try_catch, bind. cbn [negb].
    destruct (loginUser email password w) as [[r | e] w']; cbn [fst snd].
    + split; [destruct (success r); reflexivity |].
      intros st. destruct (success r); cbn; auto.
    + split; [reflexivity |]. intros st. cbn. auto.
  - unfold useAuth_register, try_catch, bind. cbn [negb].
    destruct (registerUser email password displayName w) as [[r | e] w']; cbn [fst snd].
    + split; [destruct (success r); reflexivity |].
      intros st. destruct (success r); cbn; auto.
    + split; [reflexivity |]. intros st. cbn. auto.
Qed.

Example hook_login_rejected_without_a_reason :
  fst (useAuth_login (ST := Device) (CD := RefCodec) (UJ := RefUserJson)
         (AP := VagueAuth) true "ada@example.com" "Secret1" (world_at 1704067200000 ∅))
  = Resolved ([AuthProvider.LOGIN_START;
               AuthProvider.LOGIN_FAILURE
                 (Some "An unexpected error occurred during login.")],
              failure "An unexpected error occurred during login.").
Proof. vm_compute. reflexivity. Qed.

(** X25: with Firebase configured, [logout] of the hook never rejects
    and never reaches its own catch block: it dispatches the start
    action and then one action made from the result of [logoutUser].
    Reducing that action on any state ends the loading; after a success
    the state is not authenticated and holds no user, after a failure
    the state keeps its user and its authentication and takes the error
    of the result. *)
Theorem logout_settles_state {S} {ST : Storage S} {AP : AuthPlatform S}
    (w : World S) :
  exists r,
    logoutUser w = (Resolved r, snd (logoutUser w))
    /\ (let last := if success r then AuthProvider.LOGOUT_SUCCESS
                    else AuthProvider.LOGOUT_FAILURE (error r) in
        useAuth_logout true w
        = (Resolved ([AuthProvider.LOGOUT_START; last],
                     {| success := success r; user := None; token := None;
                        error := if success r then None else error r |}),
           snd (logoutUser w))
        /\ forall st : AuthProvider.State UserProfile,
            let st' := AuthProvider.authReducer st last in
            AuthProvider.isLoading st' = false
            /\ (if success r
                then AuthProvider.isAuthenticated st' = false
                     /\ AuthProvider.user st' = None
                     /\ AuthProvider.error st' = None
                else AuthProvider.isAuthenticated st' = AuthProvider.isAuthenticated st
                     /\ AuthProvider.user st' = AuthProvider.user st
                     /\ AuthProvider.error st' = error r)).
Proof.
  destruct (logoutUser_resolves w) as (r & Hr).
  exists r. unfold useAuth_logout, try_catch, bind. cbn [negb].
  destruct (logoutUser w) as [o w']. cbn [fst snd] in *. subst o.
  split; [reflexivity |]. cbv zeta. split.
  - destruct (success r); reflexivity.
  - intros st. destruct (success r); cbn; auto.
Qed.

(** X26: without the Firebase configuration every operation of the hook
    resolves to a failure without dispatching an action and without
    touching the platform.  With it, [refreshToken] is
    [refreshAuthToken], whose result it passes on unchanged, and
    [resetPassword] never rejects: it passes on the result of
    [sendPasswordReset] unchanged and turns a rejection of it into the
    failure "An unexpected error occurred while sending password reset
    email.", in the world the action left. *)
Theorem hook_without_configuration {S} {ST : Storage S} {CD : Codec}
    {UJ : UserJson} {AP : AuthPlatform S}
    (email password displayName : string) (w : World S) :
  (exists m, useAuth_login false email password w = (Resolved ([], failure m), w))
  /\ (exists m, useAuth_register false email password displayName w
                = (Resolved ([], failure m), w))
  /\ (exists m, useAuth_logout false w = (Resolved ([], failure m), w))
  /\ (exists m, useAuth_resetPassword false email w = (Resolved (failure m), w))
  /\ (exists m, useAuth_refreshToken false w = (Resolved (failure m), w))
  /\ useAuth_resetPassword true email w
     = (Resolved
          match fst (sendPasswordReset email w) with
          | Resolved result => result
          | Rejected _ =>
              failure "An unexpected error occurred while sending password reset email."
          end,
        snd (sendPasswordReset email w))
  /\ useAuth_refreshToken true w = refreshAuthToken w.
Proof.
  repeat split; try (eexists; reflexivity).
  - unfold useAuth_resetPassword. cbn [negb]. unfold try_catch at 1.
    destruct (sendPasswordReset email w) as [[r | e] w']; reflexivity.
  - destruct (refreshAuthToken_resolves w) as (r & Hr).
    unfold useAuth_refreshToken. cbn [negb]. unfold try_catch at 1.
    destruct (refreshAuthToken w) as [o w']. cbn in Hr. subst o. reflexivity.
Qed.

Example hook_reset_rejected_without_a_reason :
  fst (useAuth_resetPassword (AP := VagueAuth) true "ada@example.com" (world_at 0 ∅))
  = Resolved (failure "An unexpected error occurred while sending password reset email.").
Proof. vm_compute. reflexivity. Qed.

(** * Form validation *)

Lemma notSpace_true (x : N) : Js.notSpace x = true <-> Js.isWhiteSpace x = false.
Proof. unfold Js.notSpace. apply negb_true_iff. Qed.

Lemma anyChar_true (x : N) : Js.anyChar x = true <-> Js.isLineTerminator x = false.
Proof. unfold Js.anyChar. apply negb_true_iff. Qed.

Lemma matcher_Class (p : N -> bool) (x : N) (rest : Js.String) (k : Js.String -> bool) :
  Js.matcher (Js.Class p) (x :: rest) k = p x && k rest.
Proof. reflexivity. Qed.

Lemma matcher_Plus (r : Js.RegExp) (s : Js.String) (k : Js.String -> bool) :
  Js.matcher (Js.Plus r) s k
  = Js.matcher r s (fun s' => Js.RepeatMatcher (Js.matcher r) (length s') s' k).
Proof. reflexivity. Qed.

Lemma matcher_Star (r : Js.RegExp) (s : Js.String) (k : Js.String -> bool) :
  Js.matcher (Js.Star r) s k = Js.RepeatMatcher (Js.matcher r) (length s) s k.
Proof. reflexivity. Qed.

Lemma matcher_Seq (r1 r2 : Js.RegExp) (s : Js.String) (k : Js.String -> bool) :
  Js.matcher (Js.Seq r1 r2) s k = Js.matcher r1 s (fun s' => Js.matcher r2 s' k).
Proof. reflexivity. Qed.

(** A star of a character class takes any run of characters of the
    class; the fuel it is given is enough. *)
Lemma RepeatMatcher_class (p : N -> bool) (fuel : nat) (s : Js.String)
    (k : Js.String -> bool) :
  (length s <= fuel)%nat ->
  Js.RepeatMatcher (Js.matcher (Js.Class p)) fuel s k = true
  <-> exists a b, s = (a ++ b)%list /\ Forall (fun x => p x = true) a /\ k b = true.
Proof.
  revert s. induction fuel as [| fuel IH]; intros s Hlen.
  - destruct s; [| cbn in Hlen; lia]. cbn. split.
    + intros Hk. exists [], []. auto.
    + intros (a & b & Hs & _ & Hk). symmetry in Hs.
      apply app_eq_nil in Hs as [_ ->]. exact Hk.
  - cbn [Js.RepeatMatcher]. destruct s as [| x rest].
    + cbn. split.
      * intros Hk. exists [], []. auto.
      * intros (a & b & Hs & _ & Hk). symmetry in Hs.
        apply app_eq_nil in Hs as [_ ->]. exact Hk.
    + rewrite matcher_Class.
      assert (L : (length rest <? length (x :: rest))%nat = true)
        by (apply Nat.ltb_lt; cbn; lia).
      rewrite L. cbn [andb]. rewrite orb_true_iff, andb_true_iff.
      rewrite IH by (cbn in Hlen; lia). split.
      * intros [(Hp & a & b & -> & Ha & Hk) | Hk].
        -- exists (x :: a), b. repeat split; auto.
        -- exists [], (x :: rest). auto.
      * intros (a & b & Hs & Ha & Hk). destruct a as [| y a].
        -- right. cbn in Hs. subst b. exact Hk.
        -- left. cbn in Hs. injection Hs as -> ->.
           apply Forall_cons in Ha as [Hy Ha]. split; [exact Hy |].
           exists a, b. auto.
Qed.

Lemma Star_class (p : N -> bool) (s : Js.String) (k : Js.String -> bool) :
  Js.matcher (Js.Star (Js.Class p)) s k = true
  <-> exists a b, s = (a ++ b)%list /\ Forall (fun x => p x = true) a /\ k b = true.
Proof. rewrite matcher_Star. apply RepeatMatcher_class. lia. Qed.

Lemma Plus_class (p : N -> bool) (s : Js.String) (k : Js.String -> bool) :
  Js.matcher (Js.Plus (Js.Class p)) s k = true
  <-> exists a b, s = (a ++ b)%list /\ a <> [] /\ Forall (fun x => p x = true) a
                  /\ k b = true.
Proof.
  rewrite matcher_Plus. destruct s as [| x rest].
  - split; [discriminate |]. intros (a & b & Hs & Hne & _).
    symmetry in Hs. apply app_eq_nil in Hs as [-> _]. contradiction.
  - rewrite matcher_Class, andb_true_iff, RepeatMatcher_class by lia. split.
    + intros (Hp & a & b & -> & Ha & Hk). exists (x :: a), b.
      repeat split; auto; discriminate.
    + intros (a & b & Hs & Hne & Ha & Hk). destruct a as [| y a]; [contradiction |].
      cbn in Hs. injection Hs as -> ->. apply Forall_cons in Ha as [Hy Ha].
      split; [exact Hy |]. exists a, b. auto.
Qed.

Lemma Char_then (c : N) (r : Js.RegExp) (s : Js.String) (k : Js.String -> bool) :
  Js.matcher (Js.Seq (Js.Char c) r) s k = true
  <-> exists rest, s = c :: rest /\ Js.matcher r rest k = true.
Proof.
  cbn [Js.matcher]. destruct s as [| x rest].
  - split; [discriminate | intros (? & ? & _); discriminate].
  - rewrite andb_true_iff, N.eqb_eq. split.
    + intros (-> & H). eauto.
    + intros (rest' & [= -> ->] & H). auto.
Qed.

(** A match is tried at every index. *)
Lemma test_somewhere (r : Js.RegExp) (s : Js.String) :
  Js.test r s = true
  <-> exists before rest,
      s = (before ++ rest)%list /\ Js.matcher r rest (fun _ => true) = true.
Proof.
  induction s as [| x s IH]; cbn [Js.test]; rewrite orb_true_iff.
  - split.
    + intros [H | H]; [| discriminate]. exists [], []. auto.
    + intros (before & rest & Hs & H). symmetry in Hs.
      apply app_eq_nil in Hs as [_ ->]. auto.
  - rewrite IH. split.
    + intros [H | (before & rest & -> & H)].
      * exists [], (x :: s). auto.
      * exists (x :: before), rest. auto.
    + intros (before & rest & Hs & H). destruct before as [| y before].
      * cbn in Hs. subst rest. auto.
      * cbn in Hs. injection Hs as -> ->. right. eauto.
Qed.

Lemma emailPattern_matches (s : Js.String) (k : Js.String -> bool) :
  Js.matcher emailPattern s k = true
  <-> exists a b c after : Js.String,
      s = (a ++ 64%N :: b ++ 46%N :: c ++ after)%list
      /\ a <> [] /\ b <> [] /\ c <> []
      /\ Forall (fun x => Js.isWhiteSpace x = false) (a ++ b ++ c)%list
      /\ k after = true.
Proof.
  unfold emailPattern. rewrite matcher_Seq, Plus_class. split.
  - intros (a & s1 & -> & Ha & Fa & H).
    apply Char_then in H as (s2 & -> & H). rewrite matcher_Seq in H.
    apply Plus_class in H as (b & s3 & -> & Hb & Fb & H).
    apply Char_then in H as (s4 & -> & H).
    apply Plus_class in H as (c & after & -> & Hc & Fc & H).
    exists a, b, c, after. repeat split; auto.
    rewrite !Forall_app. repeat split;
      (eapply Forall_impl; [eassumption | intros x; apply notSpace_true]).
  - intros (a & b & c & after & -> & Ha & Hb & Hc & F & H).
    rewrite !Forall_app in F. destruct F as (Fa & Fb & Fc).
    exists a, (64%N :: b ++ 46%N :: c ++ after)%list.
    repeat split; auto.
    { eapply Forall_impl; [exact Fa | intros x; apply notSpace_true]. }
    apply Char_then. eexists. split; [reflexivity |]. rewrite matcher_Seq.
    apply Plus_class. exists b, (46%N :: c ++ after)%list. repeat split; auto.
    { eapply Forall_impl; [exact Fb | intros x; apply notSpace_true]. }
    apply Char_then. eexists. split; [reflexivity |].
    apply Plus_class. exists c, after. repeat split; auto.
    eapply Forall_impl; [exact Fc | intros x; apply notSpace_true].
Qed.

Lemma email_test (s : Js.String) : Js.test emailPattern s = true <-> email_shaped s.
Proof.
  rewrite test_somewhere. unfold email_shaped. split.
  - intros (before & rest & -> & H).
    apply emailPattern_matches in H as (a & b & c & after & -> & H).
    exists before, a, b, c, after. tauto.
  - intros (before & a & b & c & after & -> & Ha & Hb & Hc & F).
    exists before, (a ++ 64%N :: b ++ 46%N :: c ++ after)%list.
    split; [reflexivity |]. apply emailPattern_matches.
    exists a, b, c, after. repeat split; auto.
Qed.

Lemma lookahead_class (p : N -> bool) (s : Js.String) :
  Js.matcher (Js.Seq (Js.Star (Js.Class Js.anyChar)) (Js.Class p)) s (fun _ => true) = true
  <-> on_first_line p s.
Proof.
  rewrite matcher_Seq, Star_class. unfold on_first_line. split.
  - intros (a & b & -> & Fa & H). cbn in H. destruct b as [| x b]; [discriminate |].
    rewrite andb_true_r in H. exists a, x, b. repeat split; auto.
    eapply Forall_impl; [exact Fa | intros y; apply anyChar_true].
  - intros (a & x & b & -> & Fa & H). exists a, (x :: b). repeat split.
    + eapply Forall_impl; [exact Fa | intros y; apply anyChar_true].
    + cbn. rewrite H. reflexivity.
Qed.

Lemma password_test (s : Js.String) :
  Js.test passwordPattern s = true <-> mixed_password s.
Proof.
  rewrite test_somewhere. unfold mixed_password.
  assert (M : forall rest,
             Js.matcher passwordPattern rest (fun _ => true) = true
             <-> on_first_line Js.lower rest /\ on_first_line Js.upper rest
                 /\ on_first_line Js.digit rest).
  { intros rest. rewrite <- !lookahead_class. unfold passwordPattern.
    cbn [Js.matcher]. rewrite !andb_true_iff. tauto. }
  split.
  - intros (before & rest & -> & H). apply M in H. eauto.
  - intros (before & rest & -> & H). apply M in H. eauto.
Qed.

Lemma noErrors_insert (k v : string) (m : gmap string string) :
  noErrors (<[k := v]> m) = false.
Proof.
  unfold noErrors. apply Nat.eqb_neq. rewrite map_size_empty_iff.
  apply insert_non_empty.
Qed.

Lemma noErrors_empty : noErrors ∅ = true.
Proof. reflexivity. Qed.

Lemma blank_true (s : Js.String) : blank s = true <-> s = [].
Proof. destruct s; cbn; split; congruence. Qed.

Lemma blank_short (s : Js.String) (n : nat) :
  (0 < n)%nat -> blank s = true -> (length s <? n)%nat = true.
Proof. intros Hn ->%blank_true. apply Nat.ltb_lt. exact Hn. Qed.

Lemma blank_not_email (s : Js.String) :
  blank s = true -> Js.test emailPattern s = false.
Proof. intros ->%blank_true. reflexivity. Qed.

(** The result of a sequence of checks on one field. *)
Lemma noErrors_if2 (c1 c2 : bool) (k v1 v2 : string) (m : gmap string string) :
  noErrors (if c1 then <[k := v1]> m else if c2 then <[k := v2]> m else m)
  = negb c1 && negb c2 && noErrors m.
Proof. destruct c1, c2; cbn [negb andb]; rewrite ?noErrors_insert; reflexivity. Qed.

Lemma noErrors_if3 (c1 c2 c3 : bool) (k v1 v2 v3 : string) (m : gmap string string) :
  noErrors (if c1 then <[k := v1]> m
            else if c2 then <[k := v2]> m
            else if c3 then <[k := v3]> m else m)
  = negb c1 && negb c2 && negb c3 && noErrors m.
Proof. destruct c1, c2, c3; cbn [negb andb]; rewrite ?noErrors_insert; reflexivity. Qed.

Lemma not_blank_length (s : Js.String) (n : nat) :
  (0 < n)%nat -> (n <= length s)%nat -> blank s = false.
Proof. destruct s; cbn; [lia | reflexivity]. Qed.

Lemma LoginScreen_valid (formData : LoginScreen.FormData) :
  snd (LoginScreen.validateForm formData) = true
  <-> Js.test emailPattern (LoginScreen.email formData) = true
      /\ (6 <= length (LoginScreen.password formData))%nat.
Proof.
  unfold LoginScreen.validateForm. cbv zeta. cbn [snd].
  rewrite !noErrors_if2, noErrors_empty.
  rewrite !andb_true_iff, !negb_true_iff, negb_false_iff, Nat.ltb_ge. split.
  - tauto.
  - intros (He & Hp). repeat split; auto.
    + eapply not_blank_length; [| exact Hp]. lia.
    + destruct (blank _) eqn:Eb; [| reflexivity].
      rewrite (blank_not_email _ Eb) in He. discriminate.
Qed.

Lemma RegisterScreen_valid (formData : RegisterScreen.FormData) :
  snd (RegisterScreen.validateForm formData) = true
  <-> (2 <= length (Js.trim (RegisterScreen.displayName formData)))%nat
      /\ Js.test emailPattern (RegisterScreen.email formData) = true
      /\ (6 <= length (RegisterScreen.password formData))%nat
      /\ Js.test passwordPattern (RegisterScreen.password formData) = true
      /\ RegisterScreen.confirmPassword formData = RegisterScreen.password formData.
Proof.
  unfold RegisterScreen.validateForm. cbv zeta. cbn [snd].
  rewrite noErrors_if2, noErrors_if3, !noErrors_if2, noErrors_empty.
  rewrite !andb_true_iff, !negb_true_iff, !negb_false_iff, !Nat.ltb_ge,
    bool_decide_eq_true.
  split.
  - intros ((_ & Heq) & ((_ & Hp) & Hm) & (_ & He) & (_ & Hd) & _). auto.
  - intros (Hd & He & Hp & Hm & Heq). repeat split; auto.
    + rewrite Heq. eapply not_blank_length; [| exact Hp]. lia.
    + eapply not_blank_length; [| exact Hp]. lia.
    + destruct (blank (RegisterScreen.email formData)) eqn:Eb; [| reflexivity].
      rewrite (blank_not_email _ Eb) in He. discriminate.
    + eapply not_blank_length; [| exact Hd]. lia.
Qed.

Lemma email_shaped_inside (before s after : Js.String) :
  email_shaped s -> email_shaped (before ++ s ++ after)%list.
Proof.
  intros (before' & a & b & c & after' & -> & H).
  exists (before ++ before')%list, a, b, c, (after' ++ after)%list.
  split; [| exact H].
  repeat (rewrite <- app_assoc || rewrite <- app_comm_cons). reflexivity.
Qed.

Lemma mixed_on_one_line (s : Js.String) :
  Forall (fun x => Js.isLineTerminator x = false) s ->
  mixed_password s
  <-> Exists (fun x => Js.lower x = true) s
      /\ Exists (fun x => Js.upper x = true) s
      /\ Exists (fun x => Js.digit x = true) s.
Proof.
  intros HF.
  assert (A : forall p before rest,
             on_first_line p rest -> Exists (fun x => p x = true) (before ++ rest)%list).
  { intros p before rest (a & x & b & -> & _ & Hx).
    apply Exists_app. right. apply Exists_app. right. apply Exists_cons. auto. }
  assert (B : forall p, Exists (fun x => p x = true) s -> on_first_line p s).
  { intros p (x & Hin & Hx)%Exists_exists.
    apply list_elem_of_split in Hin as (a & b & ->).
    exists a, x, b. apply Forall_app in HF as [HF _]. auto. }
  split.
  - intros (before & rest & -> & Hl & Hu & Hd). auto.
  - intros (Hl & Hu & Hd). exists [], s. auto.
Qed.

(** X27: [validateForm] of the login screen accepts a form exactly when
    its email holds, somewhere, an [@] and a later dot with characters
    that are not white space before, between and after them, and its
    password has six code units or more. *)
Theorem login_form_accepted (formData : LoginScreen.FormData) :
  snd (LoginScreen.validateForm formData) = true
  <-> email_shaped (LoginScreen.email formData)
      /\ (6 <= length (LoginScreen.password formData))%nat.
Proof. rewrite LoginScreen_valid, email_test. reflexivity. Qed.

Example login_form_examples :
  LoginScreen.validateForm
    (LoginScreen.mkFormData (Js.codeUnits "ada@example.com") (Js.codeUnits "Secret1"))
  = (∅, true)
  /\ LoginScreen.validateForm
       (LoginScreen.mkFormData (Js.codeUnits "ada@example") (Js.codeUnits "12345"))
     = ({[ "email" := "Please enter a valid email address";
           "password" := "Password must be at least 6 characters" ]}, false)
  /\ LoginScreen.validateForm (LoginScreen.mkFormData [] [])
     = ({[ "email" := "Email is required"; "password" := "Password is required" ]},
        false).
Proof. repeat split; vm_compute; reflexivity. Qed.

(** X28: [validateForm] of the register screen accepts a form exactly
    when the trimmed display name has two code units or more, the email
    has the shape the login screen asks for, the password has six code
    units or more and a place from which a lower case letter, an upper
    case letter and a digit are each reached without crossing a line
    terminator, and the confirmation equals the password. *)
Theorem register_form_accepted (formData : RegisterScreen.FormData) :
  snd (RegisterScreen.validateForm formData) = true
  <-> (2 <= length (Js.trim (RegisterScreen.displayName formData)))%nat
      /\ email_shaped (RegisterScreen.email formData)
      /\ (6 <= length (RegisterScreen.password formData))%nat
      /\ mixed_password (RegisterScreen.password formData)
      /\ RegisterScreen.confirmPassword formData = RegisterScreen.password formData.
Proof. rewrite RegisterScreen_valid, email_test, password_test. reflexivity. Qed.

(** X29: for a password without a line terminator, the register screen
    asks for what its message says: a form is accepted exactly when,
    besides the display name, the email, the length and the
    confirmation, the password holds a lower case letter, an upper case
    letter and a digit. *)
Theorem register_password_rule (formData : RegisterScreen.FormData) :
  Forall (fun x => Js.isLineTerminator x = false) (RegisterScreen.password formData) ->
  snd (RegisterScreen.validateForm formData) = true
  <-> (2 <= length (Js.trim (RegisterScreen.displayName formData)))%nat
      /\ email_shaped (RegisterScreen.email formData)
      /\ (6 <= length (RegisterScreen.password formData))%nat
      /\ Exists (fun x => Js.lower x = true) (RegisterScreen.password formData)
      /\ Exists (fun x => Js.upper x = true) (RegisterScreen.password formData)
      /\ Exists (fun x => Js.digit x = true) (RegisterScreen.password formData)
      /\ RegisterScreen.confirmPassword formData = RegisterScreen.password formData.
Proof.
  intros HF.
  rewrite RegisterScreen_valid, email_test, password_test, (mixed_on_one_line _ HF).
  tauto.
Qed.

Lemma register_password_rule_witness :
  let formData :=
    RegisterScreen.mkFormData (Js.codeUnits " Ada ") (Js.codeUnits "ada@example.com")
      (Js.codeUnits "Secret1") (Js.codeUnits "Secret1") in
  Exists (fun x => Js.lower x = true) (RegisterScreen.password formData)
  /\ Exists (fun x => Js.upper x = true) (RegisterScreen.password formData)
  /\ Exists (fun x => Js.digit x = true) (RegisterScreen.password formData).
Proof.
  intros formData.
  assert (HF : Forall (fun x => Js.isLineTerminator x = false)
                 (RegisterScreen.password formData))
    by (repeat constructor).
  destruct (register_password_rule formData HF) as [H _].
  assert (V : snd (RegisterScreen.validateForm formData) = true)
    by (vm_compute; reflexivity).
  destruct (H V) as (_ & _ & _ & Hl & Hu & Hd & _). auto.
Defined.

(** A password with the three kinds of character on different lines is
    turned down. *)
Example password_on_two_lines :
  RegisterScreen.validateForm
    (RegisterScreen.mkFormData (Js.codeUnits "Ada") (Js.codeUnits "ada@example.com")
       (Js.codeUnits "secret" ++ [10%N] ++ Js.codeUnits "S1")%list
       (Js.codeUnits "secret" ++ [10%N] ++ Js.codeUnits "S1")%list)
  = ({[ "password" := "Password must contain at least one uppercase letter, one lowercase letter, and one number" ]},
     false).
Proof. vm_compute. reflexivity. Qed.

(** X30: neither screen anchors the email pattern: a form that is
    accepted is still accepted with any text put before and after its
    email. *)
Theorem accepted_email_inside_any_text
    (login_form : LoginScreen.FormData) (register_form : RegisterScreen.FormData)
    (before after : Js.String) :
  (snd (LoginScreen.validateForm login_form) = true ->
   snd (LoginScreen.validateForm
          (LoginScreen.mkFormData
             (before ++ LoginScreen.email login_form ++ after)%list
             (LoginScreen.password login_form))) = true)
  /\ (snd (RegisterScreen.validateForm register_form) = true ->
      snd (RegisterScreen.validateForm
             (RegisterScreen.mkFormData
                (RegisterScreen.displayName register_form)
                (before ++ RegisterScreen.email register_form ++ after)%list
                (RegisterScreen.password register_form)
                (RegisterScreen.confirmPassword register_form))) = true).
Proof.
  split.
  - rewrite !LoginScreen_valid, !email_test. cbn [LoginScreen.email LoginScreen.password].
    intros (He & Hp). split; [apply email_shaped_inside; exact He | exact Hp].
  - rewrite !RegisterScreen_valid, !email_test.
    cbn [RegisterScreen.email RegisterScreen.password RegisterScreen.displayName
         RegisterScreen.confirmPassword].
    intros (Hd & He & Hr). split; [exact Hd |].
    split; [apply email_shaped_inside; exact He | exact Hr].
Qed.

Lemma accepted_email_inside_any_text_witness :
  snd (LoginScreen.validateForm
         (LoginScreen.mkFormData
            (Js.codeUnits "not an email: " ++ Js.codeUnits "ada@example.com"
             ++ Js.codeUnits " !!")%list
            (Js.codeUnits "Secret1"))) = true.
Proof.
  apply (accepted_email_inside_any_text
           (LoginScreen.mkFormData (Js.codeUnits "ada@example.com") (Js.codeUnits "Secret1"))
           (RegisterScreen.mkFormData [] [] [] [])
           (Js.codeUnits "not an email: ") (Js.codeUnits " !!")).
  vm_compute. reflexivity.
Defined.
